(** * process_markdown.py: a shallow embedding and its verified properties

    The script rewrites gomarkdoc output into MDX.  This development embeds
    the section relocator ([move_to_top], [move_to_bottom],
    [move_responses_to_top]), the method block extractor
    ([find_method_blocks_and_relocate]), two regex passes
    ([correct_escaping_in_links], [remove_output_blocks]) and the combiner
    ([combine_files_into_mdx] with the tail of the main block).

    Conventions.
    - A Python [str] is a [string]; one [ascii] stands for one code point
      below 256.
    - A Python exception is a value of [exn]; a function that can raise
      returns [res].
    - The iteration order of a Python [set] is not fixed by the language: the
      functions that iterate over a set take the order as an argument.
    - The global dict [URL_TO_INFO] is read at call time: the combiner takes
      the table as an argument, and [URL_TO_INFO] is the table of the script. *)

From Stdlib Require Import String Ascii List ZArith Lia Bool Arith Permutation.
From Stdlib Require Import DecimalString.
Import ListNotations.
Open Scope string_scope.

(* ================================================================== *)
(** * Part I: definitions                                              *)
(* ================================================================== *)

(** ** Python results *)

Inductive exn : Type :=
| TypeError
| UnboundLocalError
| IndexError
| SystemExit (code : nat).

Inductive res (A : Type) : Type :=
| Ok (a : A)
| Raise (e : exn).
Arguments Ok {A} a.
Arguments Raise {A} e.

Definition bind {A B : Type} (r : res A) (f : A -> res B) : res B :=
  match r with
  | Ok a => f a
  | Raise e => Raise e
  end.

(** ** Python string primitives *)

Module Py.

Definition nl : ascii := "010"%char.
Definition dq : ascii := "034"%char.
Definition bslash : ascii := "092"%char.
(** The one-character strings for a line feed and for a double quote. *)
Definition NL : string := String nl "".
Definition DQ : string := String dq "".

(** [str.isspace] on one code point below 256; the regex class \s of a
    str pattern uses the same table. *)
Definition isspace (c : ascii) : bool :=
  let n := nat_of_ascii c in
  (((9 <=? n) && (n <=? 13)) || ((28 <=? n) && (n <=? 32))
   || (n =? 133) || (n =? 160))%nat.

(** [s.startswith(p)] *)
Fixpoint startswith (s p : string) {struct p} : bool :=
  match p with
  | "" => true
  | String a p' =>
      match s with
      | "" => false
      | String b s' => Ascii.eqb a b && startswith s' p'
      end
  end.

(** [s[n:]] and [s[:n]] for [n >= 0] *)
Fixpoint drop (n : nat) (s : string) : string :=
  match n, s with
  | S n', String _ s' => drop n' s'
  | _, _ => s
  end.

Fixpoint take (n : nat) (s : string) : string :=
  match n, s with
  | S n', String c s' => String c (take n' s')
  | _, _ => ""
  end.

(** [s.find(sub)]: the lowest index where [sub] occurs; [find_nat] gives
    [None] where Python gives -1. *)
Fixpoint find_nat (s sub : string) : option nat :=
  if startswith s sub then Some 0
  else match s with
       | "" => None
       | String _ s' => option_map S (find_nat s' sub)
       end.

Definition find (s sub : string) : Z :=
  match find_nat s sub with
  | Some i => Z.of_nat i
  | None => (-1)%Z
  end.

(** [sub in s] *)
Definition contains (s sub : string) : bool :=
  match find_nat s sub with
  | Some _ => true
  | None => false
  end.

(** [s.split(sep)] for a non-empty [sep] (Python raises ValueError on an
    empty one, and the script never passes one).  [skip] counts the
    characters of a separator still to be passed over. *)
Fixpoint split_from (sep : string) (skip : nat) (s : string) : list string :=
  match s with
  | "" => [""]
  | String c s' =>
      match skip with
      | S n => split_from sep n s'
      | 0 =>
          if startswith s sep then "" :: split_from sep (String.length sep - 1) s'
          else match split_from sep 0 s' with
               | p :: ps => String c p :: ps
               | [] => [String c ""]
               end
      end
  end.

Definition split (s sep : string) : list string := split_from sep 0 s.

(** [sep.join(l)] *)
Definition join (sep : string) (l : list string) : string := String.concat sep l.

(** [s.lstrip()], [s.rstrip()], [s.strip()] *)
Fixpoint lstrip (s : string) : string :=
  match s with
  | "" => ""
  | String c s' => if isspace c then lstrip s' else s
  end.

Fixpoint rstrip (s : string) : string :=
  match s with
  | "" => ""
  | String c s' =>
      match rstrip s' with
      | "" => if isspace c then "" else String c ""
      | r => String c r
      end
  end.

Definition strip (s : string) : string := rstrip (lstrip s).

(** [s.replace(c, '')] for a one-character [c] *)
Fixpoint remove_char (c : ascii) (s : string) : string :=
  match s with
  | "" => ""
  | String a s' =>
      if Ascii.eqb a c then remove_char c s' else String a (remove_char c s')
  end.

(** [s.replace(old, new, 1)]: the first occurrence only *)
Definition replace_first (s old new : string) : string :=
  match find_nat s old with
  | Some i => take i s ++ new ++ drop (i + String.length old) s
  | None => s
  end.

(** [s[-1]] as a string, empty on the empty string (the script takes it
    only of non-empty strings) and [s[1:-1]] *)
Fixpoint last_char (s : string) : string :=
  match s with
  | "" => ""
  | String c "" => String c ""
  | String _ s' => last_char s'
  end.

Definition first_char (s : string) : string := take 1 s.

Definition inner (s : string) : string := take (String.length s - 2) (drop 1 s).

(** [l[a:b]] for [0 <= a], [0 <= b]; empty when [b <= a] *)
Definition slice {A : Type} (a b : nat) (l : list A) : list A :=
  firstn (b - a) (skipn a l).

(** [l.insert(i, x)] for [0 <= i]: past the end it appends *)
Definition list_insert {A : Type} (i : nat) (x : A) (l : list A) : list A :=
  (firstn i l ++ x :: skipn i l)%list.

(** [del l[a:b]] for [0 <= a], [0 <= b]: nothing when [b <= a] *)
Definition del_slice {A : Type} (a b : nat) (l : list A) : list A :=
  (firstn a l ++ skipn (Nat.max a b) l)%list.

(** [[x for i, x in enumerate(l, i0) if f(i)]] *)
Fixpoint filter_idx {A : Type} (f : nat -> bool) (i : nat) (l : list A)
  : list A :=
  match l with
  | [] => []
  | x :: t => if f i then x :: filter_idx f (S i) t else filter_idx f (S i) t
  end.

(** [c in s] for one character *)
Fixpoint has_char (c : ascii) (s : string) : bool :=
  match s with
  | "" => false
  | String a s' => Ascii.eqb a c || has_char c s'
  end.

(** [str(n)] for a non-negative int *)
Definition str_of_nat (n : nat) : string :=
  NilZero.string_of_uint (Nat.to_uint n).

End Py.

Import Py.

(** ** A backtracking matcher for the regular expressions of the script

    The script uses [re.findall] and [re.sub] with five patterns.  [regex] is
    the fragment of Python's pattern language they are written in, and
    [matches] is a backtracking matcher in continuation-passing style with
    Python's priorities: in an alternation the left branch first, a greedy
    star tries one more iteration before the continuation, a lazy star tries
    the continuation first, a capture group inside a repetition keeps the
    text of its last iteration, and a lookahead consumes nothing.  Every
    repeated sub-pattern of the script consumes one character, and none of
    the five patterns matches the empty string; the treatment of empty
    iterations and of empty matches by Python is not modelled. *)

Module Re.

Inductive regex : Type :=
| Chr (c : ascii)                 (* a literal character *)
| Class (p : ascii -> bool)       (* a character class, or the dot *)
| Eps                             (* the empty pattern *)
| Cat (r1 r2 : regex)             (* r1 r2 *)
| Alt (r1 r2 : regex)             (* r1 | r2 *)
| Star (r : regex)                (* r*  *)
| LazyStar (r : regex)            (* r*? *)
| Group (n : nat) (r : regex)     (* ( r ), the n-th group *)
| Ahead (r : regex)               (* (?= r ) *)
| NotAhead (r : regex).           (* (?! r ) *)

(** The most recent binding of a group comes first. *)
Definition captures : Type := list (nat * string).
Definition cont : Type := string -> captures -> option (string * captures).

Fixpoint lit (s : string) : regex :=
  match s with
  | "" => Eps
  | String c s' => Cat (Chr c) (lit s')
  end.

Definition plus (r : regex) : regex := Cat r (Star r).
Definition opt (r : regex) : regex := Alt r Eps.

(** [n] bounds the number of iterations left; an iteration that consumes
    nothing is refused. *)
Fixpoint star_greedy (body : cont -> cont) (k : cont) (n : nat)
  (s : string) (cs : captures) : option (string * captures) :=
  match n with
  | 0 => k s cs
  | S n' =>
      match body (fun s' cs' =>
                    if (String.length s' <? String.length s)%nat
                    then star_greedy body k n' s' cs' else None) s cs with
      | Some x => Some x
      | None => k s cs
      end
  end.

Fixpoint star_lazy (body : cont -> cont) (k : cont) (n : nat)
  (s : string) (cs : captures) : option (string * captures) :=
  match k s cs with
  | Some x => Some x
  | None =>
      match n with
      | 0 => None
      | S n' =>
          body (fun s' cs' =>
                  if (String.length s' <? String.length s)%nat
                  then star_lazy body k n' s' cs' else None) s cs
      end
  end.

Definition accept : cont := fun s cs => Some (s, cs).

Fixpoint matches (r : regex) (k : cont) (s : string) (cs : captures)
  {struct r} : option (string * captures) :=
  match r with
  | Chr c =>
      match s with
      | String a s' => if Ascii.eqb a c then k s' cs else None
      | "" => None
      end
  | Class p =>
      match s with
      | String a s' => if p a then k s' cs else None
      | "" => None
      end
  | Eps => k s cs
  | Cat r1 r2 => matches r1 (matches r2 k) s cs
  | Alt r1 r2 =>
      match matches r1 k s cs with
      | Some x => Some x
      | None => matches r2 k s cs
      end
  | Star r' => star_greedy (matches r') k (String.length s) s cs
  | LazyStar r' => star_lazy (matches r') k (String.length s) s cs
  | Group n r' =>
      matches r'
        (fun s' cs' =>
           k s' ((n, take (String.length s - String.length s') s) :: cs'))
        s cs
  | Ahead r' =>
      match matches r' accept s cs with
      | Some (_, cs') => k s cs'
      | None => None
      end
  | NotAhead r' =>
      match matches r' accept s cs with
      | Some _ => None
      | None => k s cs
      end
  end.

(** A match of [r] at the start of [s]: the matched text, the rest of [s]
    and the groups. *)
Definition match_here (r : regex) (s : string)
  : option (string * string * captures) :=
  match matches r accept s [] with
  | Some (rest, cs) =>
      Some (take (String.length s - String.length rest) s, rest, cs)
  | None => None
  end.

(** [match.group(n)]; an unset group reads as the empty string, as in the
    lists [re.findall] returns. *)
Fixpoint group (n : nat) (cs : captures) : string :=
  match cs with
  | [] => ""
  | (i, t) :: cs' => if Nat.eqb i n then t else group n cs'
  end.

(** The non-overlapping matches of [r] in [s], left to right; [skip] counts
    the characters of the last match still to be passed over. *)
Fixpoint finditer (r : regex) (skip : nat) (s : string)
  : list (string * captures) :=
  match s with
  | "" => []
  | String _ s' =>
      match skip with
      | S n => finditer r n s'
      | 0 =>
          match match_here r s with
          | Some (mt, _, cs) =>
              (mt, cs) :: finditer r (String.length mt - 1) s'
          | None => finditer r 0 s'
          end
      end
  end.

(** [re.findall(r, s)] for a pattern without a group, and for a pattern with
    one group. *)
Definition findall0 (r : regex) (s : string) : list string :=
  map fst (finditer r 0 s).

Definition findall1 (r : regex) (s : string) : list string :=
  map (fun mc => group 1 (snd mc)) (finditer r 0 s).

(** [re.sub(r, repl, s)] with a function [repl] of the matched text. *)
Fixpoint sub_from (r : regex) (repl : string -> string) (skip : nat)
  (s : string) : string :=
  match s with
  | "" => ""
  | String c s' =>
      match skip with
      | S n => sub_from r repl n s'
      | 0 =>
          match match_here r s with
          | Some (mt, _, _) =>
              repl mt ++ sub_from r repl (String.length mt - 1) s'
          | None => String c (sub_from r repl 0 s')
          end
      end
  end.

Definition sub (r : regex) (repl : string -> string) (s : string) : string :=
  sub_from r repl 0 s.

End Re.

Import Re.

(** ** The section relocator *)

(** [<a name="{name}"></a>], the f-string of [move_responses_to_top] *)
Definition anchor (name : string) : string :=
  "<a name=" ++ DQ ++ name ++ DQ ++ "></a>".

(** The state of the scanning loop of [move_to_top] and [move_to_bottom]:
    the sections closed so far, in the order they were appended, and
    [start_index]. *)
Definition scan_state : Type := (list (nat * nat) * option nat)%type.

(** One iteration of the loop of [move_to_top] at line [i]. *)
Definition top_step (start_pattern : string) (end_pattern : option string)
  (i : nat) (line : string) (st : scan_state) : scan_state :=
  let '(sections, start_index) := st in
  if startswith line start_pattern then
    match start_index with
    | Some s => ((sections ++ [(s, i)])%list, Some i)
    | None => (sections, Some i)
    end
  else
    match end_pattern, start_index with
    | Some e, Some s =>
        if startswith line e then ((sections ++ [(s, i)])%list, None)
        else st
    | _, _ => st
    end.

Fixpoint top_loop (start_pattern : string) (end_pattern : option string)
  (i : nat) (lines : list string) (st : scan_state) : scan_state :=
  match lines with
  | [] => st
  | line :: rest =>
      top_loop start_pattern end_pattern (S i) rest
        (top_step start_pattern end_pattern i line st)
  end.

(** The sections after the loop and the closing [if]. *)
Definition close_sections (n : nat) (st : scan_state) : list (nat * nat) :=
  match st with
  | (sections, Some s) => (sections ++ [(s, n)])%list
  | (sections, None) => sections
  end.

Definition top_sections (lines : list string) (start_pattern : string)
  (end_pattern : option string) : list (nat * nat) :=
  close_sections (List.length lines)
    (top_loop start_pattern end_pattern 0 lines ([], None)).

(** [any(start <= i < end for start, end in sections)] *)
Definition in_sections (sections : list (nat * nat)) (i : nat) : bool :=
  existsb (fun se => (fst se <=? i)%nat && (i <? snd se)%nat) sections.

(** [[line for section in section_contents for line in section]] *)
Definition section_lines (sections : list (nat * nat)) (lines : list string)
  : list string :=
  List.concat (map (fun se => slice (fst se) (snd se) lines) sections).

Definition rest_of_content (sections : list (nat * nat))
  (lines : list string) : list string :=
  filter_idx (fun i => negb (in_sections sections i)) 0 lines.

Definition move_to_top (file_content start_pattern : string)
  (end_pattern : option string) : string :=
  let lines := split file_content NL in
  let sections := top_sections lines start_pattern end_pattern in
  join NL (section_lines sections lines ++ rest_of_content sections lines)%list.

(** [move_to_bottom] calls [line.startswith(end_pattern)] before it looks at
    [start_index] and without the test [end_pattern is not None] of
    [move_to_top]: with [None] that call raises TypeError. *)
Definition bottom_step (start_pattern : string) (end_pattern : option string)
  (i : nat) (line : string) (st : scan_state) : res scan_state :=
  let '(sections, start_index) := st in
  if startswith line start_pattern then
    match start_index with
    | Some s => Ok ((sections ++ [(s, i)])%list, Some i)
    | None => Ok (sections, Some i)
    end
  else
    match end_pattern with
    | None => Raise TypeError
    | Some e =>
        if startswith line e then
          match start_index with
          | Some s => Ok ((sections ++ [(s, i)])%list, None)
          | None => Ok st
          end
        else Ok st
    end.

Fixpoint bottom_loop (start_pattern : string) (end_pattern : option string)
  (i : nat) (lines : list string) (st : scan_state) : res scan_state :=
  match lines with
  | [] => Ok st
  | line :: rest =>
      bind (bottom_step start_pattern end_pattern i line st)
        (fun st' => bottom_loop start_pattern end_pattern (S i) rest st')
  end.

Definition bottom_sections (lines : list string) (start_pattern : string)
  (end_pattern : option string) : res (list (nat * nat)) :=
  bind (bottom_loop start_pattern end_pattern 0 lines ([], None))
    (fun st => Ok (close_sections (List.length lines) st)).

Definition move_to_bottom (file_content start_pattern : string)
  (end_pattern : option string) : res string :=
  let lines := split file_content NL in
  bind (bottom_sections lines start_pattern end_pattern)
    (fun sections =>
       Ok (join NL
             (rest_of_content sections lines ++ section_lines sections lines)%list)).

(** *** move_responses_to_top *)

Definition not_dq (c : ascii) : bool := negb (Ascii.eqb c dq).
(** The dot without DOTALL: any character but a line feed. *)
Definition dot (c : ascii) : bool := negb (Ascii.eqb c nl).

(** The pattern of [response_struct_patterns]: the text <a name= and a
    quote, the group ([^ quote]*Response), a lookahead for a quote, then
    a quote and ></a>. *)
Definition response_re : regex :=
  Cat (lit ("<a name=" ++ DQ))
    (Cat (Group 1 (Cat (Star (Class not_dq)) (lit "Response")))
       (Cat (Ahead (Chr dq)) (lit (DQ ++ "></a>")))).

(** The pattern of [non_response_patterns]: the text <a name= and a quote,
    the repeated group ((?!Response).)*, then a quote and >.  The group is
    inside the repetition, so it holds one character. *)
Definition non_response_re : regex :=
  Cat (lit ("<a name=" ++ DQ))
    (Cat (Star (Group 1 (Cat (NotAhead (lit "Response")) (Class dot))))
       (lit (DQ ++ ">"))).

Definition response_struct_patterns (file_content : string) : list string :=
  findall1 response_re file_content.

Definition non_response_patterns (file_content : string) : list string :=
  findall1 non_response_re file_content.

(** [order] is a possible iteration order of [set(found)]. *)
Definition set_order (found order : list string) : Prop :=
  NoDup order /\ forall x, In x order <-> In x found.

(** The inner loop: the first [non_response], in iteration order, whose
    anchor is found after the response anchor. *)
Fixpoint find_end_pattern (file_content start_pattern : string)
  (non_responses : list string) : option string :=
  match non_responses with
  | [] => None
  | non_response :: rest =>
      let non_response_index := find file_content (anchor non_response) in
      let response_index := find file_content start_pattern in
      if (non_response_index >? response_index)%Z
      then Some (anchor non_response)
      else find_end_pattern file_content start_pattern rest
  end.

Fixpoint responses_loop (file_content : string) (non_responses : list string)
  (responses : list string) (modified_content : string) : string :=
  match responses with
  | [] => modified_content
  | pattern :: rest =>
      let start_pattern := anchor pattern in
      responses_loop file_content non_responses rest
        (move_to_top modified_content start_pattern
           (find_end_pattern file_content start_pattern non_responses))
  end.

(** [move_responses_to_top] with the iteration orders of its two sets. *)
Definition move_responses_to_top (responses non_responses : list string)
  (file_content : string) : string :=
  responses_loop file_content non_responses responses file_content.

(** [out] is a result of [move_responses_to_top(file_content)] for some
    iteration order of the two sets. *)
Definition move_responses_to_top_returns (file_content out : string) : Prop :=
  exists responses non_responses,
    set_order (response_struct_patterns file_content) responses /\
    set_order (non_response_patterns file_content) non_responses /\
    out = move_responses_to_top responses non_responses file_content.

(** The end marker as the specification words it: among the anchors whose
    name does not end in Response, the one at the least offset after the
    response anchor; none if no such anchor follows. *)
Definition anchor_re : regex :=
  Cat (lit ("<a name=" ++ DQ))
    (Cat (Group 1 (Star (Class not_dq))) (lit (DQ ++ "></a>"))).

Fixpoint endswith (s suffix : string) : bool :=
  String.eqb s suffix
  || match s with
     | "" => false
     | String _ s' => endswith s' suffix
     end.

Fixpoint nearest_after (file_content : string) (pos : Z)
  (names : list string) (best : option (Z * string)) : option string :=
  match names with
  | [] => option_map (fun b => anchor (snd b)) best
  | n :: rest =>
      let i := find file_content (anchor n) in
      if (i >? pos)%Z
      then match best with
           | Some (j, _) =>
               if (i <? j)%Z
               then nearest_after file_content pos rest (Some (i, n))
               else nearest_after file_content pos rest best
           | None => nearest_after file_content pos rest (Some (i, n))
           end
      else nearest_after file_content pos rest best
  end.

Definition spec_end_marker (file_content response : string) : option string :=
  nearest_after file_content (find file_content (anchor response))
    (filter (fun n => negb (endswith n "Response"))
       (findall1 anchor_re file_content))
    None.

Fixpoint spec_responses_loop (file_content : string) (responses : list string)
  (modified_content : string) : string :=
  match responses with
  | [] => modified_content
  | r :: rest =>
      spec_responses_loop file_content rest
        (move_to_top modified_content (anchor r)
           (spec_end_marker file_content r))
  end.

Definition spec_move_responses_to_top (responses : list string)
  (file_content : string) : string :=
  spec_responses_loop file_content responses file_content.

(** ** The method block extractor *)

(** A value of the dict [method_blocks]. *)
Record method_info : Type := {
  mi_type_name : string;
  start_line_number : nat;
  mi_end_line_number : nat;
  content : string
}.

(** The local variables of [find_method_blocks_and_relocate] that live
    across iterations.  [end_line_number] is [None] while the name is
    unbound; [method_blocks] keeps the insertion order of the dict. *)
Record extractor_state : Type := {
  type_definition_found : bool;
  type_end_loop : bool;
  type_name : string;
  type_end_line : nat;
  first_method_line_number : option nat;
  end_line_number : option nat;
  method_blocks : list (string * method_info)
}.

Definition method_suffixes : list string := [".Get"; ".Raw"; ".Packed"].

(** The first [j] in [range(i+1, len(lines))] with [p lines[j]]; [rest] is
    [lines[j0:]]. *)
Fixpoint first_index (p : string -> bool) (j0 : nat) (rest : list string)
  : option nat :=
  match rest with
  | [] => None
  | l :: rest' => if p l then Some j0 else first_index p (S j0) rest'
  end.

(** [d[k] = v]: an existing key keeps its place. *)
Fixpoint dict_set {V : Type} (k : string) (v : V) (d : list (string * V))
  : list (string * V) :=
  match d with
  | [] => [(k, v)]
  | (k', v') :: d' =>
      if String.eqb k' k then (k, v) :: d' else (k', v') :: dict_set k v d'
  end.

(** The [for method_suffix in method_suffixes] loop with its [break]. *)
Fixpoint record_block (suffixes : list string) (lines : list string)
  (stripped_line : string) (i : nat) (st : extractor_state)
  : res extractor_state :=
  match suffixes with
  | [] => Ok st
  | method_suffix :: rest =>
      if contains stripped_line (anchor (type_name st ++ method_suffix)) then
        match end_line_number st with
        | None => Raise UnboundLocalError
        | Some e =>
            Ok {| type_definition_found := type_definition_found st;
                  type_end_loop := type_end_loop st;
                  type_name := type_name st;
                  type_end_line := type_end_line st;
                  first_method_line_number := first_method_line_number st;
                  end_line_number := end_line_number st;
                  method_blocks :=
                    dict_set method_suffix
                      {| mi_type_name := type_name st;
                         start_line_number := i;
                         mi_end_line_number := e;
                         content := join NL (slice i (e + 1) lines) |}
                      (method_blocks st) |}
        end
      else record_block rest lines stripped_line i st
  end.

(** One iteration of the main loop at line [i]. *)
Definition extractor_step (lines : list string) (i : nat) (line : string)
  (st : extractor_state) : res extractor_state :=
  let stripped_line := strip line in
  if negb (type_definition_found st) && startswith stripped_line "<a"
     && contains stripped_line "Request"
  then
    (* type_name = stripped_line.split(quote)[1]; continue *)
    match split stripped_line DQ with
    | _ :: name :: _ =>
        Ok {| type_definition_found := true;
              type_end_loop := type_end_loop st;
              type_name := name;
              type_end_line := type_end_line st;
              first_method_line_number := first_method_line_number st;
              end_line_number := end_line_number st;
              method_blocks := method_blocks st |}
    | _ => Raise IndexError
    end
  else
    let st1 :=
      if type_definition_found st && negb (type_end_loop st) then
        {| type_definition_found := type_definition_found st;
           type_end_loop := true;
           type_name := type_name st;
           type_end_line :=
             match first_index (fun l => contains l "## type") (i + 1)
                     (skipn (i + 1) lines) with
             | Some j => j
             | None => List.length lines - 1
             end;
           first_method_line_number := first_method_line_number st;
           end_line_number := end_line_number st;
           method_blocks := method_blocks st |}
      else st in
    if type_definition_found st1
       && startswith stripped_line ("<a name=" ++ DQ ++ type_name st1 ++ ".")
    then
      let st2 :=
        {| type_definition_found := type_definition_found st1;
           type_end_loop := type_end_loop st1;
           type_name := type_name st1;
           type_end_line := type_end_line st1;
           first_method_line_number :=
             match first_method_line_number st1 with
             | None => Some i
             | Some f => if (i <? f)%nat then Some i else Some f
             end;
           end_line_number :=
             match first_index (fun l => startswith (strip l) "<a") (i + 1)
                     (skipn (i + 1) lines) with
             | Some j => Some (j - 1)
             | None => end_line_number st1
             end;
           method_blocks := method_blocks st1 |} in
      record_block method_suffixes lines stripped_line i st2
    else Ok st1.

Fixpoint extractor_loop (lines : list string) (i : nat) (todo : list string)
  (st : extractor_state) : res extractor_state :=
  match todo with
  | [] => Ok st
  | line :: rest =>
      bind (extractor_step lines i line st)
        (fun st' => extractor_loop lines (S i) rest st')
  end.

Definition initial_state : extractor_state :=
  {| type_definition_found := false;
     type_end_loop := false;
     type_name := "";
     type_end_line := 0;
     first_method_line_number := None;
     end_line_number := None;
     method_blocks := [] |}.

(** [sorted(l, key=key)]: a stable insertion sort. *)
Fixpoint insert_by {A : Type} (le : A -> A -> bool) (x : A) (l : list A)
  : list A :=
  match l with
  | [] => [x]
  | y :: l' => if le x y then x :: l else y :: insert_by le x l'
  end.

Definition sorted_by {A : Type} (le : A -> A -> bool) (l : list A) : list A :=
  fold_right (insert_by le) [] l.

(** [[".Get", ".Packed", ".Raw"].index(k)]; the keys of [method_blocks] are
    all in the list. *)
Fixpoint index_of (k : string) (l : list string) : nat :=
  match l with
  | [] => 0
  | x :: l' => if String.eqb x k then 0 else S (index_of k l')
  end.

Definition priority (kv : string * method_info) : nat :=
  index_of (fst kv) [".Get"; ".Packed"; ".Raw"].

Definition sorted_methods (blocks : list (string * method_info))
  : list (string * method_info) :=
  sorted_by (fun a b => (priority a <=? priority b)%nat) blocks.

(** [sorted(method_blocks.items(), reverse=True)]: the keys of a dict are
    distinct, so the tuples are ordered by their keys alone, greatest
    first. *)
Definition sorted_reverse (blocks : list (string * method_info))
  : list (string * method_info) :=
  sorted_by (fun a b => String.leb (fst b) (fst a)) blocks.

(** The loop that pastes the blocks: each block is inserted as ONE list
    element, and [type_end_line] advances by its number of lines. *)
Fixpoint paste_blocks (blocks : list (string * method_info))
  (type_end_line : nat) (lines : list string) : list string :=
  match blocks with
  | [] => lines
  | (_, info) :: rest =>
      paste_blocks rest
        (type_end_line + List.length (split (content info) NL))
        (list_insert (type_end_line + 1) (content info) lines)
  end.

(** The loop that deletes the blocks at their ORIGINAL line numbers. *)
Fixpoint delete_blocks (blocks : list (string * method_info))
  (lines : list string) : list string :=
  match blocks with
  | [] => lines
  | (_, info) :: rest =>
      delete_blocks rest
        (del_slice (start_line_number info) (mi_end_line_number info + 1) lines)
  end.

Definition find_method_blocks_and_relocate (file_content : string)
  : res string :=
  let lines := split file_content NL in
  bind (extractor_loop lines 0 lines initial_state)
    (fun st =>
       let lines1 :=
         if type_definition_found st
         then list_insert (type_end_line st)
                ("## " ++ type_name st ++ " Execution Methods") lines
         else lines in
       let lines2 :=
         paste_blocks (sorted_methods (method_blocks st)) (type_end_line st)
           lines1 in
       let lines3 := delete_blocks (sorted_reverse (method_blocks st)) lines2 in
       let lines4 :=
         match type_definition_found st, first_method_line_number st with
         | true, Some f =>
             (* a method line comes after the type line, so f >= 1 *)
             list_insert (f - 1) ("## " ++ type_name st ++ " Setter Methods")
               lines3
         | _, _ => lines3
         end in
       Ok (join NL lines4)).

(** ** The two regex passes *)

Definition not_rbracket (c : ascii) : bool := negb (Ascii.eqb c "]"%char).

(** The pattern of [correct_escaping_in_links]: one group around the text
    [/v1, one or more characters other than ], and ]. *)
Definition link_re : regex :=
  Group 1 (Cat (lit "[/v1") (Cat (plus (Class not_rbracket)) (Chr "]"%char))).

Definition remove_escapes_and_check_braces (matched : string) : string :=
  let cleaned_match := remove_char bslash matched in
  if contains cleaned_match "{" || contains cleaned_match "}"
  then first_char cleaned_match ++ "`" ++ inner cleaned_match ++ "`"
       ++ last_char cleaned_match
  else cleaned_match.

Definition correct_escaping_in_links (content : string) : string :=
  sub link_re remove_escapes_and_check_braces content.

(** The pattern of [remove_output_blocks], compiled with DOTALL: the text
    // Output:, a lazy .*, and three backticks. *)
Definition output_marker : string := "// Output:".
Definition fence : string := "```".

(** The dot under DOTALL: any character. *)
Definition any_char (c : ascii) : bool := true.

Definition output_re : regex :=
  Cat (lit output_marker) (Cat (LazyStar (Class any_char)) (lit fence)).

Definition remove_output_blocks (content : string) : string :=
  sub output_re (fun _ => fence) content.

(** ** The combiner *)

Record info : Type := { title : string; sidebar_position : nat }.

(** The dict [URL_TO_INFO] in insertion order. *)
Definition url_table : Type := list (string * info).

Definition entry (url title : string) (pos : nat) : string * info :=
  (url, {| title := title; sidebar_position := pos |}).

Definition URL_TO_INFO : url_table :=
  [ entry "https://www.marketdata.app/docs/api/markets/status" "Status" 1;
    entry "https://www.marketdata.app/docs/api/indices/candles" "Candles" 1;
    entry "https://www.marketdata.app/docs/api/indices/quotes" "Quotes" 2;
    entry "https://www.marketdata.app/docs/api/stocks/candles" "Candles" 1;
    entry "https://www.marketdata.app/docs/api/stocks/bulkcandles"
      "Bulk Candles" 2;
    entry "https://www.marketdata.app/docs/api/stocks/quotes" "Quotes" 3;
    entry "https://www.marketdata.app/docs/api/stocks/bulkquotes"
      "Bulk Quotes" 4;
    entry "https://www.marketdata.app/docs/api/stocks/earnings" "Earnings" 5;
    entry "https://www.marketdata.app/docs/api/stocks/news" "News" 6;
    entry "https://www.marketdata.app/docs/api/options/expirations"
      "Expirations" 1;
    entry "https://www.marketdata.app/docs/api/options/lookup" "Lookup" 2;
    entry "https://www.marketdata.app/docs/api/options/strikes" "Strikes" 3;
    entry "https://www.marketdata.app/docs/api/options/chain" "Option Chain" 4;
    entry "https://www.marketdata.app/docs/api/options/quotes" "Quotes" 5;
    entry "https://www.marketdata.app/docs/sdk/go/client" "Client" 3 ].

(** [table.get(url)] and [url in table] *)
Fixpoint table_get (table : url_table) (url : string) : option info :=
  match table with
  | [] => None
  | (k, v) :: rest => if String.eqb k url then Some v else table_get rest url
  end.

Definition in_table (table : url_table) (url : string) : bool :=
  match table_get table url with
  | Some _ => true
  | None => false
  end.

Definition mem (x : string) (l : list string) : bool :=
  existsb (String.eqb x) l.

(** The pattern https?://[^\s)>]+ *)
Definition url_char (c : ascii) : bool :=
  negb (isspace c || Ascii.eqb c ")"%char || Ascii.eqb c ">"%char).

Definition url_re : regex :=
  Cat (lit "http") (Cat (opt (Chr "s"%char))
                      (Cat (lit "://") (plus (Class url_char)))).

Definition header_text (i : info) : string :=
  "---" ++ NL ++ "title: " ++ title i ++ NL ++ "sidebar_position: "
  ++ str_of_nat (sidebar_position i) ++ NL ++ "---" ++ NL ++ NL.

Definition import_statements : string :=
  "import Tabs from " ++ DQ ++ "@theme/Tabs" ++ DQ ++ ";" ++ NL
  ++ "import TabItem from " ++ DQ ++ "@theme/TabItem" ++ DQ ++ ";" ++ NL ++ NL.

(** What the script prints and writes. *)
Inductive event : Type :=
| PrintReadError (file_path : string)
| PrintNoMatchingUrls (urls_found expected_not_found : list string)
| PrintMissingArgument
| PrintWriteError (output_filename : string)
| WriteFile (output_filename content : string)
| PrintCreated (output_filename : string).

(** The reading loop: [fs] gives the content of the files that can be read;
    the first file that cannot be read ends the loop. *)
Fixpoint read_files (fs : string -> option string) (file_paths : list string)
  (combined_content : string) : string + string :=
  match file_paths with
  | [] => inl combined_content
  | file_path :: rest =>
      match fs file_path with
      | Some text => read_files fs rest (combined_content ++ text ++ NL ++ NL)
      | None => inr file_path
      end
  end.

(** [s.split(sep)[-1]] *)
Definition last_part (s sep : string) : string := last (split s sep) "".

(** The loop over [urls_to_process]: the content with the headers prepended
    so far, and [output_filename] if the loop bound it. *)
Fixpoint url_loop (table : url_table) (urls : list string)
  (combined_content : string) : string * option string :=
  match urls with
  | [] => (combined_content, None)
  | url :: rest =>
      match table_get table url with
      | Some i =>
          let combined_content := header_text i ++ combined_content in
          if contains url "/sdk/" then
            (combined_content, Some ("go" ++ "/" ++ last_part url "/go/" ++ ".mdx"))
          else if contains url "/api/" then
            (combined_content, Some ("go" ++ "/" ++ last_part url "/api/" ++ ".mdx"))
          else url_loop table rest combined_content
      | None => url_loop table rest combined_content
      end
  end.

Definition front_matter_end : string := "---" ++ NL ++ NL.

Definition add_imports (combined_content : string) : string :=
  if contains combined_content "<Tabs>"
  then replace_first combined_content front_matter_end
         (front_matter_end ++ import_statements)
  else combined_content.

Definition urls_to_process (table : url_table) (combined_content : string)
  : list string :=
  filter (in_table table) (findall0 url_re combined_content).

(** After the files are read. *)
Definition combine_content (table : url_table) (combined_content : string)
  : list event * res (option (string * string)) :=
  let urls_found := findall0 url_re combined_content in
  match urls_to_process table combined_content with
  | [] =>
      ([PrintNoMatchingUrls urls_found
          (filter (fun url => negb (mem url urls_found)) (map fst table))],
       Raise (SystemExit 1))
  | urls =>
      let '(combined_content, output_filename) :=
        url_loop table urls combined_content in
      let combined_content := add_imports combined_content in
      match output_filename with
      | Some f => ([], Ok (Some (combined_content, f)))
      | None => ([], Raise UnboundLocalError)
      end
  end.

(** [combine_files_into_mdx(file_paths)]; the pair (None, None) is
    [Ok None]. *)
Definition combine_files_into_mdx (table : url_table)
  (fs : string -> option string) (file_paths : list string)
  : list event * res (option (string * string)) :=
  match read_files fs file_paths "" with
  | inr file_path => ([PrintReadError file_path], Ok None)
  | inl combined_content => combine_content table combined_content
  end.

(** [save_combined_content]: [can_write] tells whether the directory can be
    made and the file written; a failure is caught and reported. *)
Definition save_combined_content (can_write : string -> bool)
  (combined_content output_filename : string) : list event :=
  if String.eqb combined_content "" || String.eqb output_filename ""
  then [PrintMissingArgument]
  else if can_write output_filename
       then [WriteFile output_filename combined_content;
             PrintCreated output_filename]
       else [PrintWriteError output_filename].

(** How the process ends: it runs to the end, or an exception leaves the
    main block. *)
Inductive ending : Type :=
| Finished
| Uncaught (e : exn).

(** The exit status of the interpreter. *)
Definition exit_code (e : ending) : nat :=
  match e with
  | Finished => 0
  | Uncaught (SystemExit n) => n
  | Uncaught _ => 1
  end.

(** The main block from the call of [combine_files_into_mdx] on, the files
    being those the per-file pass has left. *)
Definition main_combine (table : url_table) (fs : string -> option string)
  (can_write : string -> bool) (file_paths : list string)
  : list event * ending :=
  match combine_files_into_mdx table fs file_paths with
  | (out, Ok (Some (combined_content, output_filename))) =>
      ((out ++ save_combined_content can_write combined_content
                 output_filename)%list, Finished)
  | (out, Ok None) => (out, Finished)
  | (out, Raise e) => (out, Uncaught e)
  end.

Definition writes (out : list event) : list event :=
  filter (fun e => match e with WriteFile _ _ => true | _ => false end) out.

(** *** Notions for the statements about the combiner *)

(** The strings of a list put end to end. *)
Definition concat_all (l : list string) : string := fold_right append "" l.

(** The front-matter block the loop prepends for [url]. *)
Definition header_of (table : url_table) (url : string) : string :=
  match table_get table url with
  | Some i => header_text i
  | None => ""
  end.

(** [output_filename] for a URL with one of the two segments. *)
Definition output_filename_of (url : string) : string :=
  if contains url "/sdk/"
  then "go" ++ "/" ++ last_part url "/go/" ++ ".mdx"
  else "go" ++ "/" ++ last_part url "/api/" ++ ".mdx".

Definition lacks_segments (url : string) : Prop :=
  contains url "/sdk/" = false /\ contains url "/api/" = false.

(** ** Notions used in the proofs *)

(** [chain lo sections hi]: the sections are well formed, in increasing
    order, and disjoint, all within [lo, hi]. *)
Fixpoint chain (lo : nat) (sections : list (nat * nat)) (hi : nat) : Prop :=
  match sections with
  | [] => lo <= hi
  | (a, b) :: rest => lo <= a /\ a <= b /\ chain b rest hi
  end.

(** All characters of [s] are in the class [p]; [s] is empty or begins with
    a character outside [p]. *)
Fixpoint all_chars (p : ascii -> bool) (s : string) : bool :=
  match s with
  | "" => true
  | String c s' => p c && all_chars p s'
  end.

Definition stops (p : ascii -> bool) (s : string) : bool :=
  match s with
  | "" => true
  | String c _ => negb (p c)
  end.

(** The invariant of the scanning loop before line [i]. *)
Definition scan_inv (i : nat) (st : scan_state) : Prop :=
  match st with
  | (sections, Some s) => chain 0 sections s /\ s <= i
  | (sections, None) => chain 0 sections i
  end.

(** ** Documents used as examples *)

Module Examples.

(** A type section whose methods come in the order Raw, Get, Packed,
    followed by the next type. *)
Definition doc_raw_get_packed : string :=
  join NL
    [ anchor "XRequest"; "## type XRequest"; "";
      anchor "XRequest.Raw"; "### func Raw"; "";
      anchor "XRequest.Get"; "### func Get"; "";
      anchor "XRequest.Packed"; "### func Packed"; "";
      anchor "Y"; "## type Y"; "body" ].

(** A response section between two other sections. *)
Definition doc_response : string :=
  join NL
    [ anchor "Alpha"; "a"; anchor "FooResponse"; "foo"; anchor "Bar"; "b" ].

(** A response section followed by two sections with one-letter names. *)
Definition doc_response_short : string :=
  join NL
    [ anchor "XResponse"; "x"; anchor "A"; "a"; anchor "B"; "b" ].

Definition doc_by : string :=
  join NL [ "intro"; anchor "ByDate"; "body" ].

End Examples.

Module CombinerExamples.

(** A table extended with two pages outside /api/ and /sdk/. *)
Definition table : url_table :=
  (entry "https://www.marketdata.app/docs/account/plans" "Plans" 7
   :: entry "https://www.marketdata.app/docs/account/limits" "Limits" 8
   :: URL_TO_INFO)%list.

Definition fs (file_path : string) : option string :=
  if String.eqb file_path "plans.md"
  then Some "See <https://www.marketdata.app/docs/account/plans>."
  else if String.eqb file_path "quotes.md"
  then Some "See (https://www.marketdata.app/docs/api/stocks/quotes)."
  else if String.eqb file_path "other.md"
  then Some "See https://example.com/docs and nothing else."
  else None.

End CombinerExamples.

(* ================================================================== *)
(** * Part I, continued: notions for further properties, and further
      functions of the script                                          *)
(* ================================================================== *)

(** ** Which lines the relocator moves

    A direct description of the lines [move_to_top] and [move_to_bottom]
    move, against which the sections computed by the script are compared:
    a line is moved when it begins with the start marker, or when the
    line before it was moved and it does not begin with the end marker. *)

(** Whether the scan is inside a section at [line], having been [inside] at
    the line before. *)
Definition next_inside (start_pattern : string) (end_pattern : option string)
  (inside : bool) (line : string) : bool :=
  if startswith line start_pattern then true
  else match end_pattern with
       | Some e => if startswith line e then false else inside
       | None => inside
       end.

Fixpoint inside_flags (start_pattern : string) (end_pattern : option string)
  (inside : bool) (lines : list string) : list bool :=
  match lines with
  | [] => []
  | line :: rest =>
      let b := next_inside start_pattern end_pattern inside line in
      b :: inside_flags start_pattern end_pattern b rest
  end.

Fixpoint moved_lines (start_pattern : string) (end_pattern : option string)
  (inside : bool) (lines : list string) : list string :=
  match lines with
  | [] => []
  | line :: rest =>
      let b := next_inside start_pattern end_pattern inside line in
      if b then line :: moved_lines start_pattern end_pattern b rest
      else moved_lines start_pattern end_pattern b rest
  end.

Fixpoint kept_lines (start_pattern : string) (end_pattern : option string)
  (inside : bool) (lines : list string) : list string :=
  match lines with
  | [] => []
  | line :: rest =>
      let b := next_inside start_pattern end_pattern inside line in
      if b then kept_lines start_pattern end_pattern b rest
      else line :: kept_lines start_pattern end_pattern b rest
  end.

(** The state of the scan after [lines]. *)
Fixpoint final_inside (start_pattern : string) (end_pattern : option string)
  (inside : bool) (lines : list string) : bool :=
  match lines with
  | [] => inside
  | line :: rest =>
      final_inside start_pattern end_pattern
        (next_inside start_pattern end_pattern inside line) rest
  end.

(** The part of the loop state the description above follows. *)
Definition is_inside (st : scan_state) : bool :=
  match snd st with
  | Some _ => true
  | None => false
  end.

(** Line [j] belongs to the section that is open in [st]. *)
Definition pending (st : scan_state) (j : nat) : bool :=
  match snd st with
  | Some s => (s <=? j)%nat
  | None => false
  end.

(** ** Notions for further properties of the method block extractor *)

(** The test of the extractor for the line that names the type. *)
Definition is_type_line (line : string) : bool :=
  startswith (strip line) "<a" && contains (strip line) "Request".

(** The test for a line that opens a method block of the type [name]. *)
Definition is_method_line (name line : string) : bool :=
  startswith (strip line) ("<a name=" ++ DQ ++ name ++ ".").

(** The test that ends a method block. *)
Definition is_anchor_line (line : string) : bool :=
  startswith (strip line) "<a".

(** The extractor has found the type [name] and has bound no
    [end_line_number] yet. *)
Definition type_found_unbound (name : string) (st : extractor_state) : Prop :=
  type_definition_found st = true
  /\ type_name st = name
  /\ end_line_number st = None.

(** ** Further line passes of the script *)

(** [out] is [l] with some elements that satisfy [P] deleted. *)
Inductive deletes {A : Type} (P : A -> Prop) : list A -> list A -> Prop :=
| deletes_nil : deletes P [] []
| deletes_keep (x : A) (l out : list A) :
    deletes P l out -> deletes P (x :: l) (x :: out)
| deletes_drop (x : A) (l out : list A) :
    P x -> deletes P l out -> deletes P (x :: l) out.

(** *** remove_code_block_delimiters *)

(** The loop of [remove_code_block_delimiters], with [in_section] and
    [code_block_delimiters_removed]; the result is [new_lines]. *)
Fixpoint delimiters_loop (section_title : string) (lines : list string)
  (in_section : bool) (code_block_delimiters_removed : nat) : list string :=
  match lines with
  | [] => []
  | line :: rest =>
      if String.eqb (strip line) section_title then
        (* in_section = True; the line is appended *)
        line :: delimiters_loop section_title rest
                  (if (code_block_delimiters_removed =? 2)%nat
                   then false else true)
                  code_block_delimiters_removed
      else if in_section && String.eqb (strip line) "```"
              && (code_block_delimiters_removed <? 2)%nat then
        (* the delimiter is skipped *)
        delimiters_loop section_title rest in_section
          (code_block_delimiters_removed + 1)
      else
        line :: delimiters_loop section_title rest
                  (if (code_block_delimiters_removed =? 2)%nat
                   then false else in_section)
                  code_block_delimiters_removed
  end.

Definition remove_code_block_delimiters (content section_title : string)
  : string :=
  join NL (delimiters_loop section_title (split content NL) false 0).

(** *** remove_index_block *)

(** The loop of [remove_index_block], with [in_index_block] and
    [past_first_new_line]; the result is [new_lines]. *)
Fixpoint index_loop (lines : list string) (in_index_block : bool)
  (past_first_new_line : bool) : list string :=
  match lines with
  | [] => []
  | line :: rest =>
      if startswith line "## Index" then
        index_loop rest true past_first_new_line
      else if in_index_block && negb past_first_new_line then
        index_loop rest in_index_block
          (if String.eqb (strip line) "" then true else past_first_new_line)
      else if in_index_block then
        if String.eqb (strip line) "" || negb (startswith (lstrip line) "-")
        then index_loop rest false past_first_new_line
        else index_loop rest in_index_block past_first_new_line
      else line :: index_loop rest in_index_block past_first_new_line
  end.

Definition remove_index_block (content : string) : string :=
  join NL (index_loop (split content NL) false false).

(** *** remove_first_sentence *)

(** The line is one whose first sentence the pass removes. *)
Definition has_first_sentence (line : string) : bool :=
  startswith line "Package" && contains line ".".

(** What the pass leaves of such a line: the text after the first period,
    without leading white space; nothing if that is empty. *)
Definition without_first_sentence (line : string) : list string :=
  match find_nat line "." with
  | Some period_index =>
      let new_line := lstrip (drop (period_index + 1) line) in
      if String.eqb new_line "" then [] else [new_line]
  | None => [line]
  end.

(** The loop of [remove_first_sentence], with [found]. *)
Fixpoint sentence_loop (lines : list string) (found : bool) : list string :=
  match lines with
  | [] => []
  | line :: rest =>
      if negb found && startswith line "Package" then
        match find_nat line "." with
        | Some period_index =>
            let new_line := lstrip (drop (period_index + 1) line) in
            ((if String.eqb new_line "" then [] else [new_line])
             ++ sentence_loop rest true)%list
        | None => line :: sentence_loop rest found
        end
      else line :: sentence_loop rest found
  end.

Definition remove_first_sentence (content : string) : string :=
  join NL (sentence_loop (split content NL) false).

(** *** clean_headings *)

(** [s.split()]: the maximal runs of characters that are not white
    space. *)
Fixpoint words (s : string) : list string :=
  match s with
  | "" => []
  | String c s' =>
      if isspace c then words s'
      else match s' with
           | "" => [String c ""]
           | String c' _ =>
               if isspace c' then String c "" :: words s'
               else match words s' with
                    | w :: ws => String c w :: ws
                    | [] => [String c ""]
                    end
           end
  end.

(** [l[-1]]: IndexError on the empty list. *)
Definition last_item (l : list string) : res string :=
  match l with
  | [] => Raise IndexError
  | x :: l' => Ok (last l' x)
  end.

Fixpoint count_char (c : ascii) (s : string) : nat :=
  match s with
  | "" => 0
  | String a s' => (if Ascii.eqb a c then 1 else 0) + count_char c s'
  end.

(** [c * n] *)
Fixpoint repeat_char (c : ascii) (n : nat) : string :=
  match n with
  | 0 => ""
  | S n' => String c (repeat_char c n')
  end.

(** [line.count('#', 0, line.find(' '))]: without a space [find] gives -1,
    and the count stops before the last character. *)
Definition hash_count (line : string) : nat :=
  match find_nat line " " with
  | Some e => count_char "#" (take e line)
  | None => count_char "#" (take (String.length line - 1) line)
  end.

Definition is_heading_with (pattern line : string) : bool :=
  startswith (strip line) "#" && contains line pattern.

(** The body of the loop of [clean_headings] for one line. *)
Definition clean_heading_line (pattern line : string) : res string :=
  if is_heading_with pattern line then
    bind (last_item (words line))
      (fun last_word =>
         Ok (repeat_char "#" (hash_count line) ++ " " ++ last_word))
  else Ok line.

Fixpoint clean_headings_loop (pattern : string) (lines : list string)
  : res (list string) :=
  match lines with
  | [] => Ok []
  | line :: rest =>
      bind (clean_heading_line pattern line)
        (fun modified_line =>
           bind (clean_headings_loop pattern rest)
             (fun modified_lines => Ok (modified_line :: modified_lines)))
  end.

Definition clean_headings (content pattern : string) : res string :=
  bind (clean_headings_loop pattern (split content NL))
    (fun modified_lines => Ok (join NL modified_lines)).

(** The last word of a line, for lines that have one. *)
Definition last_word (line : string) : string := last (words line) "".

(** The heading [clean_headings] makes of a line. *)
Definition cleaned_heading (line : string) : string :=
  repeat_char "#" (hash_count line) ++ " " ++ last_word line.

Definition not_space (c : ascii) : bool := negb (isspace c).

(** A non-empty text without white space. *)
Definition is_word (w : string) : Prop :=
  w <> "" /\ all_chars not_space w = true.

(** What [clean_headings] makes of a line. *)
Definition clean_line (pattern line : string) : string :=
  if is_heading_with pattern line then cleaned_heading line else line.

(** *** add_tabs_tags *)

(** The first line that, stripped, is not empty. *)
Fixpoint first_non_blank (lines : list string) : option string :=
  match lines with
  | [] => None
  | line :: rest =>
      if String.eqb (strip line) "" then first_non_blank rest else Some line
  end.

(** The inner function of [add_tabs_tags]: [forward] is direction 1, and
    its negation direction -1.  The while loop walks over the blank lines
    after (before) [start_index]. *)
Definition is_next_non_blank_line_tabitem (lines : list string)
  (start_index : nat) (forward : bool) : bool :=
  if forward then
    match first_non_blank (skipn (start_index + 1) lines) with
    | Some line => startswith (strip line) "<TabItem"
    | None => false
    end
  else
    match first_non_blank (rev (firstn start_index lines)) with
    | Some line => endswith (strip line) "</TabItem>"
    | None => false
    end.

(** The loop of [add_tabs_tags] from line [i] on, with [in_tab_group]; the
    result is what is appended to [new_lines]. *)
Fixpoint tabs_loop (lines : list string) (i : nat) (todo : list string)
  (in_tab_group : bool) : list string :=
  match todo with
  | [] => []
  | line :: rest =>
      let trimmed_line := strip line in
      let starts_group :=
        startswith trimmed_line "<TabItem"
        && negb (is_next_non_blank_line_tabitem lines i false) in
      let opened := starts_group && negb in_tab_group in
      let in_tab_group := in_tab_group || starts_group in
      let ends_group :=
        endswith trimmed_line "</TabItem>"
        && negb (is_next_non_blank_line_tabitem lines i true) in
      let closed := ends_group && in_tab_group in
      ((if opened then ["<Tabs>"] else [])
       ++ line
       :: (if closed then ["</Tabs>"] else [])
       ++ tabs_loop lines (S i) rest
            (if closed then false else in_tab_group))%list
  end.

Definition add_tabs_tags (content : string) : string :=
  let lines := split content NL in
  join NL (tabs_loop lines 0 lines false).

Definition is_tabs_tag (line : string) : Prop :=
  line = "<Tabs>" \/ line = "</Tabs>".

(** The number of lines equal to [x]. *)
Fixpoint count_lines (x : string) (l : list string) : nat :=
  match l with
  | [] => 0
  | y :: l' => (if String.eqb y x then 1 else 0) + count_lines x l'
  end.

(** ** Further regex passes of the script *)

(** [re.sub(r, template, s)] where the replacement is built from the groups
    of the match. *)
Fixpoint sub_groups_from (r : regex) (repl : captures -> string) (skip : nat)
  (s : string) : string :=
  match s with
  | "" => ""
  | String c s' =>
      match skip with
      | S n => sub_groups_from r repl n s'
      | 0 =>
          match match_here r s with
          | Some (mt, _, cs) =>
              repl cs ++ sub_groups_from r repl (String.length mt - 1) s'
          | None => String c (sub_groups_from r repl 0 s')
          end
      end
  end.

(** *** convert_details_to_tabitem *)

Definition details_open : string := "<details><summary>".
(** The text </summary>, a line feed, and <p>. *)
Definition details_close : string := "</summary>" ++ NL ++ "<p>".

(** The pattern of [convert_details_to_tabitem], compiled with DOTALL: the
    opening text, the group (.*?), and the closing text. *)
Definition details_re : regex :=
  Cat (lit details_open)
    (Cat (Group 1 (LazyStar (Class any_char))) (lit details_close)).

(** The template: <TabItem value=, the group in quotes, label=, the group
    in quotes, >, and a line feed. *)
Definition tabitem_open (summary : string) : string :=
  "<TabItem value=" ++ DQ ++ summary ++ DQ ++ " label=" ++ DQ ++ summary
  ++ DQ ++ ">" ++ NL.

Definition convert_details_to_tabitem (content : string) : string :=
  sub_groups_from details_re (fun cs => tabitem_open (group 1 cs)) 0 content.

(** ** The pattern stripper *)

(** [s.replace(old, new)] for a non-empty [old] (the script passes no empty
    one): the occurrences of [old], found left to right without overlap,
    are replaced.  [skip] counts the characters of an occurrence still to
    be passed over. *)
Fixpoint replace_from (old new : string) (skip : nat) (s : string) : string :=
  match s with
  | "" => ""
  | String c s' =>
      match skip with
      | S n => replace_from old new n s'
      | 0 =>
          if startswith s old
          then new ++ replace_from old new (String.length old - 1) s'
          else String c (replace_from old new 0 s')
      end
  end.

Definition str_replace (s old new : string) : string :=
  replace_from old new 0 s.

(** [replace_pattern]: the pairs of the dict in insertion order. *)
Fixpoint replace_pattern (content : string)
  (replacements : list (string * string)) : string :=
  match replacements with
  | [] => content
  | (find, replace) :: rest =>
      replace_pattern (str_replace content find replace) rest
  end.

(** The pattern [remove_pattern] builds from the parts of one entry: the
    escaped parts joined by an optional line feed. *)
Fixpoint pattern_re (parts : list string) : regex :=
  match parts with
  | [] => Eps
  | part :: rest =>
      match rest with
      | [] => lit part
      | _ :: _ => Cat (lit part) (Cat (opt (Chr nl)) (pattern_re rest))
      end
  end.

(** [re.sub(r, '', s, 1)]: the first match is deleted. *)
Fixpoint remove_first (r : regex) (s : string) : string :=
  match match_here r s with
  | Some (_, rest, _) => rest
  | None =>
      match s with
      | "" => ""
      | String c s' => String c (remove_first r s')
      end
  end.

Fixpoint remove_pattern (content : string) (patterns : list (list string))
  : string :=
  match patterns with
  | [] => content
  | pattern :: rest =>
      remove_pattern (remove_first (pattern_re pattern) content) rest
  end.

(** The first part of a pattern does not occur in the content. *)
Definition first_part_absent (content : string) (pattern : list string)
  : Prop :=
  match pattern with
  | [] => True
  | part :: _ => contains content part = false
  end.

(** The pairs of a dict that change nothing. *)
Definition is_identity_pair (fr : string * string) : bool :=
  String.eqb (fst fr) (snd fr).

(** *** process_header_blocks *)

(** The four steps that rewrite a list line of a header block. *)
Definition reformat_header_line (line : string) : string :=
  (* Step 1: line.replace('- ', '- `', 1) *)
  let line := replace_first line "- " "- `" in
  (* Step 2: line.replace(':', '`\n\n ', 1) *)
  let line := replace_first line ":" ("`" ++ NL ++ NL ++ " ") in
  (* Step 3: the escapes between the first two backticks are removed *)
  let parts := split line "`" in
  let line :=
    match parts with
    | p0 :: p1 :: p2 :: rest =>
        join "`" (p0 :: remove_char bslash p1 :: p2 :: rest)
    | _ => line
    end in
  (* Step 4 *)
  line ++ NL.

(** The loop of [process_header_blocks], with [processing] and
    [found_first_dash]; the result is [processed_lines], whose elements
    may hold line feeds. *)
Fixpoint header_loop (blocks_to_process : list string) (lines : list string)
  (processing found_first_dash : bool) : list string :=
  match lines with
  | [] => []
  | line :: rest =>
      if mem (strip line) blocks_to_process then
        line :: header_loop blocks_to_process rest true false
      else if processing then
        if negb found_first_dash && String.eqb (strip line) "" then
          line :: header_loop blocks_to_process rest processing
                    found_first_dash
        else if negb found_first_dash && negb (startswith line "-") then
          line :: header_loop blocks_to_process rest processing
                    found_first_dash
        else if startswith line "-" then
          reformat_header_line line
          :: header_loop blocks_to_process rest processing true
        else
          line :: header_loop blocks_to_process rest false true
      else line :: header_loop blocks_to_process rest processing
                     found_first_dash
  end.

Definition process_header_blocks (content : string)
  (blocks_to_process : list string) : string :=
  join NL (header_loop blocks_to_process (split content NL) false false).

(** *** add_anchor_tags *)

(** [lines.index(line)] for a line of [lines]: its first position. *)
Fixpoint index_of_line (line : string) (lines : list string) : nat :=
  match lines with
  | [] => 0
  | l :: rest =>
      if String.eqb l line then 0 else S (index_of_line line rest)
  end.

(** The loop over [reversed(previous_lines)]: the second word of the
    nearest line before that, stripped, begins with "type "; the empty
    string if there is none; IndexError if that line has one word. *)
Fixpoint find_type_word (reversed_previous_lines : list string)
  : res string :=
  match reversed_previous_lines with
  | [] => Ok ""
  | prev_line :: rest =>
      if startswith (strip prev_line) "type " then
        match nth_error (words prev_line) 1 with
        | Some w => Ok w
        | None => Raise IndexError
        end
      else find_type_word rest
  end.

(** [s[a:b]] for [0 <= a] where [b] is an index or, as [None], -1. *)
Definition slice_to (s : string) (a : nat) (b : option nat) : string :=
  let stop := match b with
              | Some b => b
              | None => String.length s - 1
              end in
  take (stop - a) (drop a s).

(** [line[line.find('`')+1:line.find('(')].strip()] *)
Definition anchor_of (line : string) : string :=
  strip (slice_to line
           (match find_nat line "`" with
            | Some i => i + 1
            | None => 0
            end)
           (find_nat line "(")).

(** The two replacements for a list line: with the type word, and (in a
    Generated By section) without. *)
Definition typed_item (type_word line : string) : string :=
  "- " ++ "<a href=" ++ DQ ++ "#" ++ type_word ++ "." ++ anchor_of line
  ++ DQ ++ ">" ++ "`" ++ drop 3 line ++ "</a>".

Definition plain_item (line : string) : string :=
  "- " ++ "<a href=" ++ DQ ++ "#" ++ anchor_of line ++ DQ ++ ">" ++ "`"
  ++ drop 3 line ++ "</a>".

Definition cons_res (x : string) (r : res (list string)) : res (list string) :=
  bind r (fun l => Ok (x :: l)).

(** The loop of [add_anchor_tags], with [processing], [matched_string] and
    [found_first_dash]; the result is [processed_lines]. *)
Fixpoint anchor_loop (sections_to_process : list string)
  (lines : list string) (todo : list string) (processing : bool)
  (matched_string : string) (found_first_dash : bool)
  : res (list string) :=
  match todo with
  | [] => Ok []
  | line :: rest =>
      if mem (strip line) sections_to_process then
        cons_res line
          (anchor_loop sections_to_process lines rest true (strip line) false)
      else if processing then
        if negb found_first_dash && String.eqb (strip line) "" then
          cons_res line
            (anchor_loop sections_to_process lines rest processing
               matched_string found_first_dash)
        else if negb found_first_dash
                && negb (startswith (lstrip line) "-") then
          cons_res line
            (anchor_loop sections_to_process lines rest processing
               matched_string found_first_dash)
        else if startswith line "-" then
          if negb (String.eqb matched_string "#### Generated By") then
            bind (find_type_word
                    (rev (firstn (index_of_line line lines) lines)))
              (fun type_word =>
                 cons_res (typed_item type_word line)
                   (anchor_loop sections_to_process lines rest processing
                      matched_string true))
          else
            cons_res (plain_item line)
              (anchor_loop sections_to_process lines rest processing
                 matched_string true)
        else if String.eqb (strip line) "" || startswith line "  " then
          cons_res line
            (anchor_loop sections_to_process lines rest processing
               matched_string true)
        else
          cons_res line
            (anchor_loop sections_to_process lines rest false
               matched_string true)
      else
        cons_res line
          (anchor_loop sections_to_process lines rest processing
             matched_string found_first_dash)
  end.

Definition add_anchor_tags (content : string)
  (sections_to_process : list string) : res string :=
  let lines := split content NL in
  bind (anchor_loop sections_to_process lines lines false "" false)
    (fun processed_lines => Ok (join NL processed_lines)).




(* ================================================================== *)
(** * Part I, continued: the remaining passes and the file loop         *)
(* ================================================================== *)

(** ** colapse_bullet_points *)

(** The test of [colapse_bullet_points] for a list item: the line begins
    with a dash and a space and holds two backticks. *)
Definition is_bullet (line : string) : bool :=
  startswith line "- " && (count_char "`" line =? 2)%nat.

(** The while loop of [colapse_bullet_points] from line [i] on, where
    [lines] is [lines[i:]]: an item followed by an empty line and a line
    that begins with two spaces takes three lines, any other line one. *)
Fixpoint bullet_loop (lines : list string) : list string :=
  match lines with
  | [] => []
  | line :: rest =>
      match rest with
      | blank :: description :: rest' =>
          if is_bullet line && String.eqb blank ""
             && startswith description "  "
          then (line ++ " " ++ strip description) :: bullet_loop rest'
          else line :: bullet_loop rest
      | _ => line :: bullet_loop rest
      end
  end.

Definition colapse_bullet_points (content : string) : string :=
  join NL (bullet_loop (split content NL)).

(** ** What a call can raise

    Besides the exceptions of [exn], the rest of the script can raise the
    error of [re] for a malformed replacement template, and the exceptions
    of [open], [read] and [write]. *)

Inductive raised : Type :=
| Script (e : exn)
| ReError
| FileError.

Inductive outcome (A : Type) : Type :=
| Returns (a : A)
| Raises (r : raised).
Arguments Returns {A} a.
Arguments Raises {A} r.

Definition and_then {A B : Type} (o : outcome A) (f : A -> outcome B)
  : outcome B :=
  match o with
  | Returns a => f a
  | Raises r => Raises r
  end.

Definition of_res {A : Type} (r : res A) : outcome A :=
  match r with
  | Ok a => Returns a
  | Raise e => Raises (Script e)
  end.

(** ** move_all_struct_definitions *)

(** [\w] on the code points below 256: the letters and digits of Unicode
    and the underscore. *)
Definition word_char (c : ascii) : bool :=
  let n := nat_of_ascii c in
  (((48 <=? n) && (n <=? 57)) || ((65 <=? n) && (n <=? 90)) || (n =? 95)
   || ((97 <=? n) && (n <=? 122)) || (n =? 170)
   || ((178 <=? n) && (n <=? 179)) || (n =? 181)
   || ((185 <=? n) && (n <=? 186)) || ((188 <=? n) && (n <=? 190))
   || ((192 <=? n) && (n <=? 214)) || ((216 <=? n) && (n <=? 246))
   || (248 <=? n))%nat.

(** The pattern of the struct headings, with the group (\w+). *)
Definition struct_doc_re : regex :=
  Cat (lit "## type ") (Group 1 (plus (Class word_char))).

(** The pattern of the definition block of [struct_name], compiled with
    DOTALL: one group around the fence with go, \s+, type and the name, \s,
    .*? and the closing fence.  The name is made of word characters, so
    it stands for itself in the pattern. *)
Definition struct_def_re (struct_name : string) : regex :=
  Group 1
    (Cat (lit "```go")
       (Cat (plus (Class isspace))
          (Cat (lit ("type " ++ struct_name))
             (Cat (Class isspace)
                (Cat (LazyStar (Class any_char)) (lit "```")))))).

(** The pattern of the heading of [struct_name]: one group around the
    heading, \s* and a line feed. *)
Definition struct_heading_re (struct_name : string) : regex :=
  Group 1
    (Cat (lit ("## type " ++ struct_name))
       (Cat (Star (Class isspace)) (Chr nl))).

(** [r.search(s)]: the groups of the first match. *)
Fixpoint search (r : regex) (s : string) : option captures :=
  match match_here r s with
  | Some (_, _, cs) => Some cs
  | None =>
      match s with
      | "" => None
      | String _ s' => search r s'
      end
  end.

(** [re.sub(r, repl, s, count=1)] with a replacement built from the
    groups of the match. *)
Fixpoint sub_first (r : regex) (repl : captures -> string) (s : string)
  : string :=
  match match_here r s with
  | Some (_, rest, cs) => repl cs ++ rest
  | None =>
      match s with
      | "" => ""
      | String c s' => String c (sub_first r repl s')
      end
  end.

(** The template of the second substitution: a reference to group 1, the
    block and two line feeds. *)
Definition block_template (struct_def_block : string) : string :=
  String bslash "1" ++ struct_def_block ++ NL ++ NL.

(** Such a template denotes group 1 followed by the block and two line
    feeds when the block holds no backslash; what [re] makes of a backslash
    in the block (an escape, a group reference, or [re.error]) is left to
    [parse_template] below. *)
Definition plain_expansion (struct_def_block : string) : string -> string :=
  fun group1 => group1 ++ struct_def_block ++ NL ++ NL.

Section Templates.

(** [re.sub] parses its replacement template before it searches:
    [parse_template t] is what the template [t] denotes for a pattern with
    one group, as a function of the text of that group, or what the parser
    raises. *)
Variable parse_template : string -> outcome (string -> string).

(** The loop of [move_all_struct_definitions] over [struct_names]. *)
Fixpoint struct_loop (struct_names : list string) (content : string)
  : outcome string :=
  match struct_names with
  | [] => Returns content
  | struct_name :: rest =>
      match search (struct_def_re struct_name) content with
      | None => struct_loop rest content
      | Some cs =>
          let struct_def_block := group 1 cs in
          let content := remove_first (struct_def_re struct_name) content in
          and_then (parse_template (block_template struct_def_block))
            (fun expand =>
               struct_loop rest
                 (sub_first (struct_heading_re struct_name)
                    (fun cs' => expand (group 1 cs')) content))
      end
  end.

Definition move_all_struct_definitions (content : string) : outcome string :=
  struct_loop (findall1 struct_doc_re content) content.

End Templates.

(** A parser for the templates without a backslash in the block; on the
    others it stands for no behaviour of [re] in particular. *)
Definition parse_plain_template (template : string)
  : outcome (string -> string) :=
  if has_char bslash (drop 2 template)
  then Raises ReError
  else Returns (fun group1 => group1 ++ drop 2 template).

(** A definition block of [struct_name]: the fence with go, the white
    space [ws], type and the name, the white space character [c], the
    [body] and the closing fence. *)
Definition definition_block (struct_name ws : string) (c : ascii)
  (body : string) : string :=
  "```go" ++ ws ++ "type " ++ struct_name ++ String c body ++ "```".

Module StructExamples.

(** A struct heading, its description, and the definition block. *)
Definition doc : string :=
  "## type Foo" ++ NL ++ NL ++ "Foo is a thing." ++ NL ++ NL
  ++ "```go" ++ NL ++ "type Foo struct{}" ++ NL ++ "```" ++ NL ++ "end".

Definition doc_moved : string :=
  "## type Foo" ++ NL ++ NL
  ++ "```go" ++ NL ++ "type Foo struct{}" ++ NL ++ "```" ++ NL ++ NL
  ++ "Foo is a thing." ++ NL ++ NL ++ NL ++ "end".

End StructExamples.

(** ** process_file *)

Definition patterns_to_delete : list (list string) :=
  [ [""; "```go"; "import " ++ DQ ++ "." ++ DQ; "```"; ""];
    ["# client"];
    ["# models"];
    ["# dates"];
    ["Generated by [gomarkdoc](<https://github.com/princjef/gomarkdoc>)"];
    ["<!-- Code generated by gomarkdoc. DO NOT EDIT -->"] ].

(** The first dict of replacements, in insertion order. *)
Definition replacements : list (string * string) :=
  [ (NL ++ "### Notes", NL ++ "#### Notes");
    (NL ++ "#### Notes", NL ++ "#### Notes");
    ("#### Output", "#### Output");
    ("#### Parameters", "#### Parameters");
    ("#### Returns", "#### Returns");
    ("### Making Requests", "## Making Requests");
    ("### Setter Methods", "#### Setter Methods");
    ("### Execution Methods", "#### Execution Methods");
    ("### Methods", "#### Methods");
    ("### Generated By", "#### Generated By");
    ("</p>" ++ NL ++ "</details>", "</TabItem>") ].

Definition blocks_to_process : list string :=
  [ "#### Parameters"; "#### Returns"; "#### Setter Methods";
    "#### Execution Methods"; "#### Methods"; "#### Generated By" ].

Definition sections_to_process : list string :=
  [ "#### Setter Methods"; "#### Execution Methods"; "#### Methods";
    "#### Generated By" ].

(** The second dict of replacements. *)
Definition type_replacements : list (string * string) :=
  [ ("## type", "##") ].

(** *** Files in text mode

    The script opens its files in text mode with the default [newline].
    On reading, a carriage return followed by a line feed, and a carriage
    return alone, are read as one line feed. *)

Definition cr : ascii := "013"%char.

Fixpoint read_text (stored : string) : string :=
  match stored with
  | "" => ""
  | String c rest =>
      if Ascii.eqb c cr then
        match rest with
        | String c' rest' =>
            if Ascii.eqb c' nl then String nl (read_text rest')
            else String nl (read_text rest)
        | "" => String nl ""
        end
      else String c (read_text rest)
  end.

(** On writing, every line feed is written as [os.linesep]. *)
Definition write_text (os_linesep content : string) : string :=
  str_replace content NL os_linesep.

Section Process.

Variable parse_template : string -> outcome (string -> string).

(** The order in which a [set] made of the list [found] is iterated. *)
Variable set_iter : list string -> list string.

(** [process_file] between the reading and the writing of the file. *)
Definition process_content (content : string) : outcome string :=
  let content := remove_pattern content patterns_to_delete in
  let content := replace_pattern content replacements in
  let content := remove_first_sentence content in
  let content := convert_details_to_tabitem content in
  let content := add_tabs_tags content in
  let content := remove_output_blocks content in
  let content := process_header_blocks content blocks_to_process in
  let content := remove_index_block content in
  let content := correct_escaping_in_links content in
  and_then (move_all_struct_definitions parse_template content)
    (fun content =>
  and_then (of_res (add_anchor_tags content sections_to_process))
    (fun content =>
  let content := remove_code_block_delimiters content "## Making Requests" in
  and_then (of_res (find_method_blocks_and_relocate content))
    (fun content =>
  let content :=
    move_responses_to_top
      (set_iter (response_struct_patterns content))
      (set_iter (non_response_patterns content)) content in
  and_then (of_res (move_to_bottom content ("<a name=" ++ DQ ++ "By")
                      (Some "<a")))
    (fun content =>
  let content := replace_pattern content type_replacements in
  of_res (clean_headings content "func"))))).

(** A file as [open] finds it: [Holds] gives the text stored in the file,
    with its line ends as they are stored; [Unreadable] stands for a file
    on which [open] or [read] raises something else than
    FileNotFoundError. *)
Inductive file_state : Type :=
| Holds (stored : string)
| Missing
| Unreadable.

(** The files by path; two paths are taken to name two files. *)
Definition disk : Type := string -> file_state.

Definition write_to (d : disk) (file_path stored : string) : disk :=
  fun p => if String.eqb p file_path then Holds stored else d p.

(** What the whole script prints and writes: the events of the per-file
    pass, and those of the combiner.  [WriteBack] gives the content handed
    to [file.write]. *)
Inductive file_event : Type :=
| PrintUsage
| PrintNotFound (file_path : string)
| WriteBack (file_path content : string)
| PrintProcessed (file_path : string)
| Combine (e : event).

(** Whether [open(file_path, 'w')] and the write succeed. *)
Variable can_write : string -> bool.

(** The line separator of the platform. *)
Variable os_linesep : string.

(** [process_file]: [read_file_content] catches FileNotFoundError only, and
    [write_file_content] catches nothing. *)
Definition process_file (d : disk) (file_path : string)
  : list file_event * outcome disk :=
  match d file_path with
  | Missing => ([PrintNotFound file_path], Returns d)
  | Unreadable => ([], Raises FileError)
  | Holds stored =>
      match process_content (read_text stored) with
      | Raises r => ([], Raises r)
      | Returns content =>
          if can_write file_path
          then ([WriteBack file_path content; PrintProcessed file_path],
                Returns (write_to d file_path
                           (write_text os_linesep content)))
          else ([], Raises FileError)
      end
  end.

(** The loop of the main block over the arguments. *)
Fixpoint process_files (d : disk) (file_paths : list string)
  : list file_event * outcome disk :=
  match file_paths with
  | [] => ([], Returns d)
  | file_path :: rest =>
      match process_file d file_path with
      | (out, Returns d') =>
          let '(out', r) := process_files d' rest in
          ((out ++ out')%list, r)
      | (out, Raises r) => (out, Raises r)
      end
  end.

(** What the combiner reads: it catches every exception of [open] and
    [read]. *)
Definition readable (d : disk) (file_path : string) : option string :=
  match d file_path with
  | Holds stored => Some (read_text stored)
  | Missing | Unreadable => None
  end.

(** How the run ends. *)
Inductive termination : Type :=
| Completed
| Aborted (r : raised).

Definition of_ending (e : ending) : termination :=
  match e with
  | Finished => Completed
  | Uncaught e => Aborted (Script e)
  end.

(** The exit status of the interpreter. *)
Definition status (t : termination) : nat :=
  match t with
  | Completed => 0
  | Aborted (Script (SystemExit n)) => n
  | Aborted _ => 1
  end.

(** The main block, [file_paths] being [sys.argv[1:]]. *)
Definition main (table : url_table) (d : disk) (file_paths : list string)
  : list file_event * termination :=
  match file_paths with
  | [] => ([PrintUsage], Aborted (Script (SystemExit 1)))
  | _ :: _ =>
      match process_files d file_paths with
      | (out, Raises r) => (out, Aborted r)
      | (out, Returns d') =>
          let '(out', e) :=
            main_combine table (readable d') can_write file_paths in
          ((out ++ map Combine out')%list, of_ending e)
      end
  end.

End Process.

(** An iteration order for the examples: the first occurrences, in the
    order of the list. *)
Definition first_occurrences (found : list string) : list string :=
  nodup string_dec found.

Module FileExamples.

(** One file of plain text; every other path names no file. *)
Definition notes : disk :=
  fun p => if String.eqb p "notes.md" then Holds "Usage notes." else Missing.

(** One file of plain text with the line ends of DOS. *)
Definition dos : disk :=
  fun p =>
    if String.eqb p "dos.md"
    then Holds ("Usage notes." ++ String cr NL ++ "Call the client (once).")
    else Missing.

Definition writable : string -> bool := fun _ => true.

End FileExamples.

(* ================================================================== *)
(** * Part II: lemmas and theorems                                     *)
(* ================================================================== *)

(** ** Strings *)

Section StringFacts.

Lemma append_nil_r (s : string) : s ++ "" = s.
Proof. induction s as [|c s IH]; simpl; [reflexivity | now rewrite IH]. Qed.

Lemma append_assoc (a b c : string) : (a ++ b) ++ c = a ++ b ++ c.
Proof. induction a as [|x a IH]; simpl; [reflexivity | now rewrite IH]. Qed.

Lemma length_append (a b : string) :
  String.length (a ++ b) = String.length a + String.length b.
Proof. induction a as [|x a IH]; simpl; [reflexivity | now rewrite IH]. Qed.

Lemma take_append (a b : string) : take (String.length a) (a ++ b) = a.
Proof. induction a as [|x a IH]; simpl; [now destruct b | now rewrite IH]. Qed.

Lemma drop_append (a b : string) : drop (String.length a) (a ++ b) = b.
Proof. induction a as [|x a IH]; simpl; [now destruct b | exact IH]. Qed.

Lemma startswith_nil (s : string) : startswith s "" = true.
Proof. now destruct s. Qed.

Lemma startswith_append (p s : string) : startswith (p ++ s) p = true.
Proof.
  induction p as [|c p IH]; simpl; [reflexivity|].
  now rewrite Ascii.eqb_refl, IH.
Qed.

(** A prefix test only looks at as many characters as the prefix has. *)
Lemma startswith_app_long (a p rest : string) :
  String.length p <= String.length a ->
  startswith (a ++ rest) p = startswith a p.
Proof.
  revert a; induction p as [|c p IH]; intros a Hlen; simpl.
  - reflexivity.
  - destruct a as [|x a]; simpl in *; [lia|].
    rewrite IH by lia. reflexivity.
Qed.

Lemma startswith_head (c : ascii) (p s : string) (a : ascii) :
  startswith (String a s) (String c p) = true -> a = c.
Proof.
  simpl. intros H. apply andb_true_iff in H as [H _].
  apply Ascii.eqb_eq in H. congruence.
Qed.

Lemma find_nat_step (p : string) (c : ascii) (pre : string) :
  find_nat (String c pre ++ p) p = Some (S (String.length pre)) ->
  startswith (String c pre ++ p) p = false
  /\ find_nat (pre ++ p) p = Some (String.length pre).
Proof.
  change (String c pre ++ p) with (String c (pre ++ p)).
  intros H. simpl in H.
  destruct (startswith (String c (pre ++ p)) p); [discriminate|].
  split; [reflexivity|].
  destruct (find_nat (pre ++ p) p); simpl in H; congruence.
Qed.

Lemma find_nat_none_step (p : string) (c : ascii) (s : string) :
  find_nat (String c s) p = None ->
  startswith (String c s) p = false /\ find_nat s p = None.
Proof.
  simpl. destruct (startswith (String c s) p); [discriminate|].
  destruct (find_nat s p); [discriminate | tauto].
Qed.

End StringFacts.

(** ** Lines: [split] and [join] on the line feed *)

Section Lines.

Lemma split_from_not_nil (sep : string) (skip : nat) (s : string) :
  split_from sep skip s <> [].
Proof.
  revert skip; induction s as [|c s IH]; intros skip; simpl.
  - discriminate.
  - destruct skip as [|n]; [|apply IH].
    destruct (startswith _ _); [discriminate|].
    destruct (split_from sep 0 s); discriminate.
Qed.

Lemma split_not_nil (s sep : string) : split s sep <> [].
Proof. apply split_from_not_nil. Qed.

Lemma split_NL_cons (c : ascii) (s : string) :
  split (String c s) NL =
  if Ascii.eqb nl c then "" :: split s NL
  else match split s NL with
       | p :: ps => String c p :: ps
       | [] => [String c ""]
       end.
Proof.
  unfold split. simpl. rewrite andb_true_r. reflexivity.
Qed.

Lemma join_cons (x : string) (l : list string) :
  l <> [] -> join NL (x :: l) = x ++ NL ++ join NL l.
Proof. destruct l; [congruence | reflexivity]. Qed.

(** Joining the lines of a text gives the text back. *)
Lemma join_split (s : string) : join NL (split s NL) = s.
Proof.
  induction s as [|c s IH].
  - reflexivity.
  - rewrite split_NL_cons.
    destruct (Ascii.eqb_spec nl c) as [<-|Hc].
    + rewrite join_cons by apply split_not_nil. now rewrite IH.
    + pose proof (split_not_nil s NL) as Hne.
      destruct (split s NL) as [|p ps]; [congruence|].
      destruct ps as [|q ps].
      * simpl in *. now rewrite IH.
      * rewrite join_cons in IH by discriminate.
        rewrite join_cons by discriminate. simpl. now rewrite <- IH.
Qed.

Lemma split_lines_no_nl (s : string) :
  Forall (fun l => has_char nl l = false) (split s NL).
Proof.
  induction s as [|c s IH].
  - repeat constructor.
  - rewrite split_NL_cons.
    destruct (Ascii.eqb_spec nl c) as [<-|Hc].
    + constructor; [reflexivity | exact IH].
    + destruct (split s NL) as [|p ps].
      * repeat constructor. simpl.
        apply orb_false_iff; split; [|reflexivity].
        apply Ascii.eqb_neq. congruence.
      * inversion IH; subst. constructor; [|assumption].
        simpl. apply orb_false_iff; split; [|assumption].
        apply Ascii.eqb_neq. congruence.
Qed.

Lemma split_line_then (p rest : string) :
  has_char nl p = false ->
  split (p ++ NL ++ rest) NL = p :: split rest NL.
Proof.
  induction p as [|c p IH]; intros Hp.
  - simpl. rewrite split_NL_cons. simpl. reflexivity.
  - simpl in Hp. apply orb_false_iff in Hp as [Hc Hp].
    change (String c p ++ NL ++ rest) with (String c (p ++ NL ++ rest)).
    rewrite split_NL_cons, Ascii.eqb_sym, Hc, IH by assumption. reflexivity.
Qed.

Lemma split_one_line (p : string) :
  has_char nl p = false -> split p NL = [p].
Proof.
  induction p as [|c p IH]; intros Hp.
  - reflexivity.
  - simpl in Hp. apply orb_false_iff in Hp as [Hc Hp].
    rewrite split_NL_cons, Ascii.eqb_sym, Hc, IH by assumption. reflexivity.
Qed.

(** Splitting the join of lines gives the lines back. *)
Lemma split_join (l : list string) :
  l <> [] -> Forall (fun x => has_char nl x = false) l ->
  split (join NL l) NL = l.
Proof.
  induction l as [|x l IH]; intros Hne Hall; [congruence|].
  inversion Hall as [|? ? Hx Hl]; subst.
  destruct l as [|y l].
  - simpl. now apply split_one_line.
  - rewrite join_cons by discriminate.
    rewrite split_line_then by assumption.
    rewrite IH; [reflexivity | discriminate | assumption].
Qed.

End Lines.

(** ** Indexed filters and sections *)

Section Sections.

Context {A : Type}.

Lemma filter_idx_app (f : nat -> bool) (i : nat) (l1 l2 : list A) :
  filter_idx f i (l1 ++ l2)%list =
  (filter_idx f i l1 ++ filter_idx f (i + List.length l1) l2)%list.
Proof.
  revert i; induction l1 as [|x l1 IH]; intros i; simpl.
  - now rewrite Nat.add_0_r.
  - rewrite IH. replace (S i + List.length l1) with (i + S (List.length l1)) by lia.
    now destruct (f i).
Qed.

Lemma filter_idx_none (f : nat -> bool) (i : nat) (l : list A) :
  (forall j, i <= j < i + List.length l -> f j = false) ->
  filter_idx f i l = [].
Proof.
  revert i; induction l as [|x l IH]; intros i H; simpl; [reflexivity|].
  rewrite (H i) by (simpl; lia). apply IH. intros j Hj. apply H. simpl. lia.
Qed.

Lemma filter_idx_all (f : nat -> bool) (i : nat) (l : list A) :
  (forall j, i <= j < i + List.length l -> f j = true) ->
  filter_idx f i l = l.
Proof.
  revert i; induction l as [|x l IH]; intros i H; simpl; [reflexivity|].
  rewrite (H i) by (simpl; lia). f_equal. apply IH.
  intros j Hj. apply H. simpl. lia.
Qed.

Lemma filter_idx_ext (f g : nat -> bool) (i : nat) (l : list A) :
  (forall j, i <= j -> f j = g j) -> filter_idx f i l = filter_idx g i l.
Proof.
  revert i; induction l as [|x l IH]; intros i H; simpl; [reflexivity|].
  rewrite (H i) by lia. rewrite (IH (S i)) by (intros; apply H; lia).
  reflexivity.
Qed.

(** The selected elements and the others together are the whole list. *)
Lemma filter_idx_partition (f : nat -> bool) (i : nat) (l : list A) :
  Permutation
    (filter_idx f i l ++ filter_idx (fun j => negb (f j)) i l)%list l.
Proof.
  revert i; induction l as [|x l IH]; intros i; simpl; [constructor|].
  destruct (f i); simpl.
  - constructor. apply IH.
  - apply Permutation_sym, Permutation_cons_app, Permutation_sym, IH.
Qed.

Lemma skipn_slice (lo a : nat) (l : list A) :
  lo <= a ->
  skipn lo l = (slice lo a l ++ skipn a l)%list.
Proof.
  intros H. unfold slice.
  rewrite <- (firstn_skipn (a - lo) (skipn lo l)) at 1.
  rewrite skipn_skipn. replace (a - lo + lo) with a by lia. reflexivity.
Qed.

Lemma length_slice (a b : nat) (l : list A) :
  b <= List.length l -> List.length (slice a b l) = b - a.
Proof.
  intros H. unfold slice. rewrite length_firstn, length_skipn. lia.
Qed.

End Sections.

Lemma chain_le (secs : list (nat * nat)) : forall lo hi,
  chain lo secs hi -> lo <= hi.
Proof.
  induction secs as [|[a b] secs IH]; simpl; intros lo hi H; [exact H|].
  destruct H as (H1 & H2 & H3). apply IH in H3. lia.
Qed.

Lemma chain_weaken (secs : list (nat * nat)) : forall lo hi hi',
  chain lo secs hi -> hi <= hi' -> chain lo secs hi'.
Proof.
  induction secs as [|[a b] secs IH]; simpl; intros lo hi hi' H Hle; [lia|].
  destruct H as (H1 & H2 & H3). repeat split; try assumption.
  eapply IH; eassumption.
Qed.

Lemma chain_snoc (secs : list (nat * nat)) : forall lo a b hi,
  chain lo secs a -> a <= b -> b <= hi -> chain lo (secs ++ [(a, b)]) hi.
Proof.
  induction secs as [|[x y] secs IH]; simpl; intros lo a b hi H Hab Hb.
  - repeat split; assumption.
  - destruct H as (H1 & H2 & H3). repeat split; try assumption.
    apply IH; assumption.
Qed.

Lemma in_sections_below (secs : list (nat * nat)) : forall lo hi i,
  chain lo secs hi -> i < lo -> in_sections secs i = false.
Proof.
  induction secs as [|[a b] secs IH]; simpl; intros lo hi i H Hi.
  - reflexivity.
  - destruct H as (H1 & H2 & H3).
    apply orb_false_iff; split.
    + apply andb_false_iff; left. apply Nat.leb_gt. lia.
    + apply (IH b hi); [assumption | lia].
Qed.

(** The lines of the sections, section after section, are the lines whose
    index lies in a section, in file order. *)
Lemma section_lines_filter (lines : list string) (secs : list (nat * nat)) :
  forall lo hi,
    chain lo secs hi -> hi <= List.length lines ->
    section_lines secs lines =
    filter_idx (in_sections secs) lo (skipn lo lines).
Proof.
  induction secs as [|[a b] secs IH]; intros lo hi H Hhi.
  - simpl. symmetry. apply filter_idx_none. reflexivity.
  - simpl in H. destruct H as (H1 & H2 & H3).
    pose proof (chain_le _ _ _ H3) as Hb.
    unfold section_lines. simpl. fold (section_lines secs lines).
    rewrite (IH b hi H3 Hhi).
    rewrite (skipn_slice lo a lines H1), (skipn_slice a b lines H2).
    rewrite !filter_idx_app, !length_slice by lia.
    set (f := in_sections ((a, b) :: secs)).
    assert (E1 : filter_idx f lo (slice lo a lines) = []).
    { apply filter_idx_none. intros j Hj.
      rewrite length_slice in Hj by lia. subst f. simpl.
      apply orb_false_iff; split.
      - apply andb_false_iff; left. apply Nat.leb_gt. lia.
      - apply (in_sections_below secs b hi); [assumption | lia]. }
    assert (E2 : filter_idx f (lo + (a - lo)) (slice a b lines)
                 = slice a b lines).
    { apply filter_idx_all. intros j Hj.
      rewrite length_slice in Hj by lia. subst f. simpl.
      apply orb_true_iff; left. apply andb_true_iff; split.
      - apply Nat.leb_le. lia.
      - apply Nat.ltb_lt. lia. }
    rewrite E1, E2. simpl. f_equal.
    replace (lo + (a - lo) + (b - a)) with b by lia.
    apply filter_idx_ext. intros j Hj. subst f. simpl.
    replace (j <? b)%nat with false by (symmetry; apply Nat.ltb_ge; lia).
    now rewrite andb_false_r.
Qed.

(** ** The scanning loop keeps the sections well formed *)

Lemma top_step_inv (sp : string) (ep : option string) (i : nat)
  (line : string) (st : scan_state) :
  scan_inv i st -> scan_inv (S i) (top_step sp ep i line st).
Proof.
  destruct st as [secs [s|]]; unfold top_step; simpl; intros H.
  - destruct H as [H Hs].
    destruct (startswith line sp).
    + split; [|lia]. apply chain_snoc; [assumption | lia | lia].
    + destruct ep as [e|]; [|split; [assumption | lia]].
      destruct (startswith line e).
      * apply chain_snoc; [assumption | lia | lia].
      * split; [assumption | lia].
  - destruct (startswith line sp).
    + split; [assumption | lia].
    + destruct ep; simpl; eapply chain_weaken; try eassumption; lia.
Qed.

Lemma top_loop_inv (sp : string) (ep : option string) (lines : list string) :
  forall i st,
    scan_inv i st ->
    scan_inv (i + List.length lines) (top_loop sp ep i lines st).
Proof.
  induction lines as [|line lines IH]; intros i st H; simpl.
  - now rewrite Nat.add_0_r.
  - replace (i + S (List.length lines)) with (S i + List.length lines) by lia.
    apply IH, top_step_inv, H.
Qed.

Lemma close_sections_chain (n : nat) (st : scan_state) :
  scan_inv n st -> chain 0 (close_sections n st) n.
Proof.
  destruct st as [secs [s|]]; simpl; [|tauto].
  intros [H Hs]. apply chain_snoc; [assumption | lia | lia].
Qed.

Lemma top_sections_chain (lines : list string) (sp : string)
  (ep : option string) :
  chain 0 (top_sections lines sp ep) (List.length lines).
Proof.
  unfold top_sections. apply close_sections_chain.
  apply (top_loop_inv sp ep lines 0 ([], None)). simpl. lia.
Qed.

(** ** move_to_top and move_to_bottom *)

Lemma top_loop_no_start (sp : string) (ep : option string)
  (lines : list string) :
  Forall (fun line => startswith line sp = false) lines ->
  forall i, top_loop sp ep i lines ([], None) = ([], None).
Proof.
  induction 1 as [|line lines Hline _ IH]; intros i; simpl; [reflexivity|].
  rewrite Hline. destruct ep; apply IH.
Qed.

Lemma bottom_loop_no_start (sp e : string) (lines : list string) :
  Forall (fun line => startswith line sp = false) lines ->
  forall i, bottom_loop sp (Some e) i lines ([], None) = Ok ([], None).
Proof.
  induction 1 as [|line lines Hline _ IH]; intros i; simpl; [reflexivity|].
  rewrite Hline. destruct (startswith line e); simpl; apply IH.
Qed.

Lemma rest_of_content_nil (lines : list string) :
  rest_of_content [] lines = lines.
Proof. unfold rest_of_content. apply filter_idx_all. reflexivity. Qed.

Lemma bottom_loop_unset_end (sp : string) (lines : list string) :
  Exists (fun line => startswith line sp = false) lines ->
  forall i st, bottom_loop sp None i lines st = Raise TypeError.
Proof.
  induction 1 as [line lines Hline | line lines _ IH]; intros i st; simpl.
  - destruct st as [secs si]. unfold bottom_step. rewrite Hline. reflexivity.
  - destruct st as [secs si]. unfold bottom_step.
    destruct (startswith line sp); [|reflexivity].
    destruct si; simpl; apply IH.
Qed.

(** C7: if the start marker begins no line of the document, [move_to_top]
    returns the document unchanged whatever the end marker, set or unset,
    and [move_to_bottom] does so with an end marker.  With the end marker
    unset [move_to_bottom] raises TypeError on every such document, where
    the claim has it return the document: the first line does not begin
    with the start marker, and the test of the end marker is not guarded
    as it is in [move_to_top]. *)
Theorem marker_absent_noop_or_type_error (doc start_marker : string) :
  Forall (fun line => startswith line start_marker = false) (split doc NL) ->
  (forall end_marker : option string,
      move_to_top doc start_marker end_marker = doc)
  /\ (forall end_marker : string,
         move_to_bottom doc start_marker (Some end_marker) = Ok doc)
  /\ move_to_bottom doc start_marker None = Raise TypeError.
Proof.
  intros H. split; [|split].
  - intros end_marker. unfold move_to_top, top_sections.
    rewrite top_loop_no_start by assumption. simpl.
    rewrite rest_of_content_nil. apply join_split.
  - intros end_marker. unfold move_to_bottom, bottom_sections.
    rewrite bottom_loop_no_start by assumption. simpl.
    rewrite rest_of_content_nil, app_nil_r. now rewrite join_split.
  - unfold move_to_bottom, bottom_sections.
    rewrite bottom_loop_unset_end; [reflexivity|].
    pose proof (split_not_nil doc NL) as Hne.
    destruct (split doc NL) as [|line lines]; [congruence|].
    apply Exists_cons_hd. now apply Forall_inv in H.
Qed.

Lemma marker_absent_noop_or_type_error_witness :
  move_to_top Examples.doc_by "<a name=Candle" None = Examples.doc_by
  /\ move_to_bottom Examples.doc_by "<a name=Candle" (Some "<a")
     = Ok Examples.doc_by
  /\ move_to_bottom Examples.doc_by "<a name=Candle" None = Raise TypeError.
Proof.
  destruct (marker_absent_noop_or_type_error Examples.doc_by
              "<a name=Candle") as (Htop & Hbottom & Hunset).
  - repeat constructor.
  - split; [apply Htop|]. split; [apply Hbottom|exact Hunset].
Defined.

(** C4: what the code does with the end marker unset.  [move_to_top]
    accepts it; [move_to_bottom] raises TypeError as soon as a line does
    not begin with the start marker, where the claim has it return with
    the matched sections placed last. *)
Theorem move_to_bottom_unset_end_raises (doc start_marker : string) :
  Exists (fun line => startswith line start_marker = false) (split doc NL) ->
  move_to_bottom doc start_marker None = Raise TypeError.
Proof.
  intros H. unfold move_to_bottom, bottom_sections.
  rewrite bottom_loop_unset_end by assumption. reflexivity.
Qed.

Lemma move_to_bottom_unset_end_raises_witness :
  move_to_bottom Examples.doc_by ("<a name=" ++ DQ ++ "By") None
  = Raise TypeError
  /\ move_to_top Examples.doc_by ("<a name=" ++ DQ ++ "By") None
     = join NL [ anchor "ByDate"; "body"; "intro" ].
Proof.
  split.
  - apply (move_to_bottom_unset_end_raises Examples.doc_by
             ("<a name=" ++ DQ ++ "By")).
    apply Exists_cons_hd. reflexivity.
  - reflexivity.
Defined.

(** ** find_method_blocks_and_relocate *)

(** C1: the code on a type section whose methods come in the order Raw,
    Get, Packed.  The claim has the three blocks follow the heading
    ## XRequest Execution Methods in the order Get, Packed, Raw and leave
    their original places.  The code returns a document without that
    heading: the blocks are deleted by descending key (.Raw, .Packed, .Get)
    at their original line numbers, so after the Raw block is gone the two
    other deletions hit the anchor of Y, the new heading, the pasted Get
    block and the original Packed block; and the Packed and Raw blocks are
    pasted after the body of Y, not next to the heading. *)
Theorem relocate_raw_get_packed :
  find_method_blocks_and_relocate Examples.doc_raw_get_packed
  = Ok (join NL
          [ anchor "XRequest"; "## type XRequest";
            "## XRequest Setter Methods"; "";
            anchor "XRequest.Get"; "### func Get"; "";
            "## type Y"; "body";
            anchor "XRequest.Packed"; "### func Packed"; "";
            anchor "XRequest.Raw"; "### func Raw"; "" ])
  /\ match find_method_blocks_and_relocate Examples.doc_raw_get_packed with
     | Ok out => contains out "## XRequest Execution Methods" = false
     | Raise _ => False
     end.
Proof. split; vm_compute; reflexivity. Qed.

(** ** move_responses_to_top *)

Lemma set_order_singleton (x : string) (order : list string) :
  set_order [x] order -> order = [x].
Proof.
  intros [Hnd Hin].
  assert (Hall : forall y, In y order -> y = x).
  { intros y Hy. apply Hin in Hy. simpl in Hy. intuition congruence. }
  destruct order as [|a order].
  - exfalso. apply (proj2 (Hin x)). now left.
  - assert (a = x) by (apply Hall; now left). subst a.
    destruct order as [|b order]; [reflexivity|].
    assert (b = x) by (apply Hall; right; now left). subst b.
    inversion Hnd as [|? ? Hnot _]; subst. exfalso. apply Hnot. now left.
Qed.

(** No end marker is found when no candidate anchor occurs after the
    response anchor. *)
Lemma find_end_pattern_none (file_content start_pattern : string)
  (non_responses : list string) :
  (forall n, In n non_responses ->
             (find file_content (anchor n) >? find file_content start_pattern)%Z
             = false) ->
  find_end_pattern file_content start_pattern non_responses = None.
Proof.
  induction non_responses as [|n ns IH]; intros H; simpl; [reflexivity|].
  rewrite (H n) by now left. apply IH. intros m Hm. apply H. now right.
Qed.

(** C2: the code on a response section that lies between two other
    sections.  The claim has the section end at the nearest following
    anchor, that of Bar.  The pattern of [non_response_patterns] has its
    group inside the repetition, so the set holds the last letter of each
    name; no anchor of that name exists, no end marker is found, and for
    every iteration order of the two sets the section runs to the end of
    the document and takes the section of Bar along. *)
Theorem move_responses_to_top_loses_end_marker :
  response_struct_patterns Examples.doc_response = ["FooResponse"]
  /\ non_response_patterns Examples.doc_response = ["a"; "r"]
  /\ spec_end_marker Examples.doc_response "FooResponse" = Some (anchor "Bar")
  /\ (forall out,
        move_responses_to_top_returns Examples.doc_response out ->
        out = join NL [ anchor "FooResponse"; "foo"; anchor "Bar"; "b";
                        anchor "Alpha"; "a" ])
  /\ spec_move_responses_to_top ["FooResponse"] Examples.doc_response
     = join NL [ anchor "FooResponse"; "foo"; anchor "Alpha"; "a";
                 anchor "Bar"; "b" ].
Proof.
  assert (Hr : response_struct_patterns Examples.doc_response
               = ["FooResponse"]) by (vm_compute; reflexivity).
  assert (Hn : non_response_patterns Examples.doc_response = ["a"; "r"])
    by (vm_compute; reflexivity).
  repeat split; try (vm_compute; reflexivity).
  intros out (rs & ns & Hrs & Hns & ->).
  rewrite Hr in Hrs. apply set_order_singleton in Hrs. subst rs.
  rewrite Hn in Hns. destruct Hns as [_ Hns].
  unfold move_responses_to_top. simpl responses_loop.
  rewrite find_end_pattern_none.
  - vm_compute. reflexivity.
  - intros n Hin. apply Hns in Hin. simpl in Hin.
    destruct Hin as [<- | [<- | []]]; vm_compute; reflexivity.
Qed.

Lemma move_responses_to_top_loses_end_marker_witness :
  exists out,
    move_responses_to_top_returns Examples.doc_response out
    /\ out = join NL [ anchor "FooResponse"; "foo"; anchor "Bar"; "b";
                       anchor "Alpha"; "a" ].
Proof.
  exists (move_responses_to_top ["FooResponse"] ["a"; "r"]
            Examples.doc_response).
  assert (H : move_responses_to_top_returns Examples.doc_response
                (move_responses_to_top ["FooResponse"] ["a"; "r"]
                   Examples.doc_response)).
  { exists ["FooResponse"], ["a"; "r"]. repeat split.
    - repeat constructor; simpl; intuition discriminate.
    - intros Hx; exact Hx.
    - intros Hx; exact Hx.
    - repeat constructor; simpl; intuition discriminate.
    - intros Hx; exact Hx.
    - intros Hx; exact Hx. }
  split; [exact H|].
  apply (proj1 (proj2 (proj2 (proj2
           move_responses_to_top_loses_end_marker)))).
  exact H.
Defined.

(** With names of one letter the group does hold the name, and the inner
    loop stops at the first candidate that follows, in the iteration order
    of the set: in the order B, A the end marker is the anchor of B
    although the anchor of A is nearer. *)
Lemma find_end_pattern_order_dependent :
  non_response_patterns Examples.doc_response_short = ["A"; "B"]
  /\ find_end_pattern Examples.doc_response_short (anchor "XResponse")
       ["A"; "B"] = Some (anchor "A")
  /\ find_end_pattern Examples.doc_response_short (anchor "XResponse")
       ["B"; "A"] = Some (anchor "B")
  /\ spec_end_marker Examples.doc_response_short "XResponse"
     = Some (anchor "A").
Proof. repeat split; vm_compute; reflexivity. Qed.

(** ** The combiner *)

Lemma filter_none {A : Type} (f : A -> bool) (l : list A) :
  (forall x, In x l -> f x = false) -> filter f l = [].
Proof.
  induction l as [|x l IH]; intros H; simpl; [reflexivity|].
  rewrite (H x) by now left. apply IH. intros y Hy. apply H. now right.
Qed.

(** C5: if the files are read and no URL of the combined content is a key
    of the table, the run prints the URLs found and the keys that were not
    found, ends by SystemExit(1), so with exit code 1, and writes no
    file. *)
Theorem combine_without_matching_url_exits (table : url_table)
  (fs : string -> option string) (can_write : string -> bool)
  (file_paths : list string) (combined_content : string) :
  read_files fs file_paths "" = inl combined_content ->
  (forall url, In url (findall0 url_re combined_content) ->
               in_table table url = false) ->
  let urls_found := findall0 url_re combined_content in
  let run := main_combine table fs can_write file_paths in
  run = ([PrintNoMatchingUrls urls_found
            (filter (fun url => negb (mem url urls_found)) (map fst table))],
         Uncaught (SystemExit 1))
  /\ exit_code (snd run) = 1
  /\ writes (fst run) = [].
Proof.
  intros Hread Hnone urls_found run.
  assert (E : run = ([PrintNoMatchingUrls urls_found
                        (filter (fun url => negb (mem url urls_found))
                           (map fst table))],
                     Uncaught (SystemExit 1))).
  { subst run. unfold main_combine, combine_files_into_mdx.
    rewrite Hread. unfold combine_content, urls_to_process.
    rewrite (filter_none _ _ Hnone). reflexivity. }
  rewrite E. repeat split.
Qed.

Lemma combine_without_matching_url_exits_witness :
  let run := main_combine URL_TO_INFO CombinerExamples.fs (fun _ => true)
               ["other.md"] in
  exit_code (snd run) = 1 /\ writes (fst run) = [].
Proof.
  assert (Hread : read_files CombinerExamples.fs ["other.md"] ""
                  = inl ("See https://example.com/docs and nothing else."
                         ++ NL ++ NL)) by reflexivity.
  refine (proj2 (combine_without_matching_url_exits URL_TO_INFO
                   CombinerExamples.fs (fun _ => true) ["other.md"] _
                   Hread _)).
  intros url Hin. vm_compute in Hin.
  destruct Hin as [<- | []]. vm_compute. reflexivity.
Defined.

Lemma concat_all_app (l1 l2 : list string) :
  concat_all (l1 ++ l2) = concat_all l1 ++ concat_all l2.
Proof.
  induction l1 as [|x l1 IH]; simpl; [reflexivity|].
  now rewrite IH, append_assoc.
Qed.

Lemma url_loop_skip (table : url_table) (url : string) (urls : list string)
  (combined_content : string) :
  lacks_segments url ->
  url_loop table (url :: urls) combined_content
  = url_loop table urls (header_of table url ++ combined_content).
Proof.
  intros [Hsdk Hapi]. simpl. unfold header_of.
  destruct (table_get table url); [|reflexivity].
  now rewrite Hsdk, Hapi.
Qed.

(** The loop over URLs that all lack both segments prepends a header for
    each and binds no file name. *)
Lemma url_loop_all_skipped (table : url_table) (urls : list string) :
  Forall lacks_segments urls ->
  forall combined_content,
    url_loop table urls combined_content
    = (concat_all (map (header_of table) (rev urls)) ++ combined_content,
       None).
Proof.
  induction 1 as [|url urls Hurl _ IH]; intros combined_content.
  - reflexivity.
  - rewrite url_loop_skip, IH by assumption. f_equal.
    simpl rev. rewrite map_app, concat_all_app. simpl.
    now rewrite append_nil_r, append_assoc.
Qed.

(** The loop stops at the first URL with one of the two segments. *)
Lemma url_loop_stops (table : url_table) (skipped : list string)
  (url : string) (rest : list string) :
  Forall lacks_segments skipped ->
  in_table table url = true ->
  contains url "/sdk/" = true \/ contains url "/api/" = true ->
  forall combined_content,
    url_loop table (skipped ++ url :: rest) combined_content
    = (concat_all (map (header_of table) (url :: rev skipped))
       ++ combined_content,
       Some (output_filename_of url)).
Proof.
  intros Hskip Hin Hseg.
  induction Hskip as [|v skipped Hv _ IH]; intros combined_content.
  - simpl. unfold in_table in Hin. unfold header_of, output_filename_of.
    destruct (table_get table url); [|discriminate].
    rewrite append_nil_r.
    destruct (contains url "/sdk/"); [reflexivity|].
    destruct Hseg as [Hseg | Hseg]; [discriminate|]. now rewrite Hseg.
  - change ((v :: skipped) ++ url :: rest)%list
      with (v :: (skipped ++ url :: rest))%list.
    rewrite url_loop_skip, IH by assumption. f_equal.
    simpl. rewrite map_app, !concat_all_app. simpl.
    now rewrite !append_nil_r, !append_assoc.
Qed.

Lemma filter_In_all {A : Type} (f : A -> bool) (l : list A) :
  Forall (fun x => f x = true) (filter f l).
Proof.
  apply Forall_forall. intros x Hx. now apply filter_In in Hx.
Qed.

(** C9: if the files are read, some URL of the combined content is a key of
    the table, and no such URL contains /sdk/ or /api/, then
    [combine_files_into_mdx] raises UnboundLocalError at its return
    statement: it returns no result, and the exception leaves the main
    block before anything is written.  (Every key of [URL_TO_INFO] as
    shipped contains one of the two segments; the premise needs a table
    with further entries.) *)
Theorem combine_unbound_output_filename (table : url_table)
  (fs : string -> option string) (can_write : string -> bool)
  (file_paths : list string) (combined_content : string) :
  read_files fs file_paths "" = inl combined_content ->
  urls_to_process table combined_content <> [] ->
  Forall lacks_segments (urls_to_process table combined_content) ->
  combine_files_into_mdx table fs file_paths = ([], Raise UnboundLocalError)
  /\ main_combine table fs can_write file_paths
     = ([], Uncaught UnboundLocalError).
Proof.
  intros Hread Hne Hall.
  assert (E : combine_files_into_mdx table fs file_paths
              = ([], Raise UnboundLocalError)).
  { unfold combine_files_into_mdx. rewrite Hread. unfold combine_content.
    destruct (urls_to_process table combined_content) as [|u us] eqn:Hus;
      [congruence|].
    rewrite url_loop_all_skipped by assumption. reflexivity. }
  split; [exact E|]. unfold main_combine. now rewrite E.
Qed.

Lemma combine_unbound_output_filename_witness :
  combine_files_into_mdx CombinerExamples.table CombinerExamples.fs
    ["plans.md"] = ([], Raise UnboundLocalError)
  /\ main_combine CombinerExamples.table CombinerExamples.fs (fun _ => true)
       ["plans.md"] = ([], Uncaught UnboundLocalError).
Proof.
  apply (combine_unbound_output_filename CombinerExamples.table
           CombinerExamples.fs (fun _ => true) ["plans.md"]
           ("See <https://www.marketdata.app/docs/account/plans>."
            ++ NL ++ NL)).
  - reflexivity.
  - vm_compute. discriminate.
  - vm_compute. repeat constructor.
Defined.

(** Every key of the table of the script contains /sdk/ or /api/. *)
Lemma URL_TO_INFO_keys_have_segment :
  Forall (fun url => contains url "/sdk/" || contains url "/api/" = true)
    (map fst URL_TO_INFO).
Proof. repeat constructor. Qed.

(** C10: if the URLs to process begin with URLs that lack both segments,
    followed by a URL with one of them, the function returns, and the
    content it returns is the combined content under one front-matter
    block per URL iterated over: that of the URL that ended the loop first,
    then those of the skipped URLs, the last skipped first (with the import
    statements added where the script adds them).  So a first URL without
    the segments leaves more than one block at the top. *)
Theorem combine_header_per_iterated_url (table : url_table)
  (fs : string -> option string) (file_paths : list string)
  (combined_content : string) (skipped : list string) (url : string)
  (rest : list string) :
  read_files fs file_paths "" = inl combined_content ->
  urls_to_process table combined_content = (skipped ++ url :: rest)%list ->
  Forall lacks_segments skipped ->
  contains url "/sdk/" = true \/ contains url "/api/" = true ->
  combine_files_into_mdx table fs file_paths
  = ([], Ok (Some (add_imports
                     (concat_all (map (header_of table) (url :: rev skipped))
                      ++ combined_content),
                   output_filename_of url))).
Proof.
  intros Hread Hurls Hskip Hseg.
  assert (Hin : in_table table url = true).
  { pose proof (filter_In_all (in_table table)
                  (findall0 url_re combined_content)) as H.
    fold (urls_to_process table combined_content) in H.
    rewrite Hurls in H. apply Forall_app in H as [_ H].
    now inversion H. }
  pose proof (url_loop_stops table skipped url rest Hskip Hin Hseg
                combined_content) as Hloop.
  unfold combine_files_into_mdx. rewrite Hread. unfold combine_content.
  rewrite Hurls. revert Hloop.
  destruct (skipped ++ url :: rest)%list as [|u us] eqn:E.
  - destruct skipped; discriminate.
  - intros ->. reflexivity.
Qed.

Lemma combine_header_per_iterated_url_witness :
  combine_files_into_mdx CombinerExamples.table CombinerExamples.fs
    ["plans.md"; "quotes.md"]
  = ([], Ok (Some
       ("---" ++ NL ++ "title: Quotes" ++ NL ++ "sidebar_position: 3" ++ NL
        ++ "---" ++ NL ++ NL
        ++ "---" ++ NL ++ "title: Plans" ++ NL ++ "sidebar_position: 7" ++ NL
        ++ "---" ++ NL ++ NL
        ++ "See <https://www.marketdata.app/docs/account/plans>." ++ NL ++ NL
        ++ "See (https://www.marketdata.app/docs/api/stocks/quotes)."
        ++ NL ++ NL,
        "go/stocks/quotes.mdx"))).
Proof.
  apply (combine_header_per_iterated_url CombinerExamples.table
           CombinerExamples.fs ["plans.md"; "quotes.md"]
           ("See <https://www.marketdata.app/docs/account/plans>." ++ NL ++ NL
            ++ "See (https://www.marketdata.app/docs/api/stocks/quotes)."
            ++ NL ++ NL)
           ["https://www.marketdata.app/docs/account/plans"]
           "https://www.marketdata.app/docs/api/stocks/quotes" []).
  - reflexivity.
  - vm_compute. reflexivity.
  - repeat constructor.
  - right. vm_compute. reflexivity.
Defined.

(** ** Facts about the matcher *)

Section Matcher.

(** The equations of [matches], one per shape of pattern. *)
Lemma matches_Cat (r1 r2 : regex) (k : cont) (s : string) (cs : captures) :
  matches (Cat r1 r2) k s cs = matches r1 (matches r2 k) s cs.
Proof. reflexivity. Qed.

Lemma matches_Group (n : nat) (r : regex) (k : cont) (s : string)
  (cs : captures) :
  matches (Group n r) k s cs
  = matches r
      (fun s' cs' =>
         k s' ((n, take (String.length s - String.length s') s) :: cs'))
      s cs.
Proof. reflexivity. Qed.

Lemma matches_Star (r : regex) (k : cont) (s : string) (cs : captures) :
  matches (Star r) k s cs = star_greedy (matches r) k (String.length s) s cs.
Proof. reflexivity. Qed.

Lemma matches_LazyStar (r : regex) (k : cont) (s : string) (cs : captures) :
  matches (LazyStar r) k s cs
  = star_lazy (matches r) k (String.length s) s cs.
Proof. reflexivity. Qed.

Lemma matches_Class (q : ascii -> bool) (k : cont) (a : ascii) (s : string)
  (cs : captures) :
  matches (Class q) k (String a s) cs = if q a then k s cs else None.
Proof. reflexivity. Qed.

Lemma matches_Chr (c : ascii) (k : cont) (a : ascii) (s : string)
  (cs : captures) :
  matches (Chr c) k (String a s) cs
  = if Ascii.eqb a c then k s cs else None.
Proof. reflexivity. Qed.

(** A literal matches where the text starts with it. *)
Lemma matches_lit (p : string) : forall (k : cont) (s : string) (cs : captures),
  matches (lit p) k s cs
  = if startswith s p then k (drop (String.length p) s) cs else None.
Proof.
  induction p as [|c p IH]; intros k s cs; simpl.
  - now destruct s.
  - destruct s as [|a s]; [reflexivity|].
    rewrite (Ascii.eqb_sym c a).
    destruct (Ascii.eqb a c); simpl; [apply IH | reflexivity].
Qed.

Variable p : ascii -> bool.

(** A greedy star over a class runs to the end of the run of class
    characters when the continuation refuses every text that begins with a
    class character. *)
Lemma star_greedy_class (k : cont) (cs : captures) (rest : string) :
  (forall a t, p a = true -> k (String a t) cs = None) ->
  stops p rest = true ->
  forall run n,
    all_chars p run = true -> String.length run <= n ->
    star_greedy (matches (Class p)) k n (run ++ rest) cs = k rest cs.
Proof.
  intros Hk Hrest. induction run as [|x run IH]; intros n Hall Hn.
  - simpl. destruct n as [|n]; [reflexivity|]. simpl.
    destruct rest as [|a r]; [reflexivity|].
    simpl in Hrest. apply negb_true_iff in Hrest. now rewrite Hrest.
  - simpl in Hall. apply andb_true_iff in Hall as [Hx Hall].
    destruct n as [|n]; [simpl in Hn; lia|].
    simpl in Hn. simpl. rewrite Hx.
    rewrite (proj2 (Nat.ltb_lt _ _)) by lia.
    rewrite IH by (assumption || lia).
    destruct (k rest cs); [reflexivity|].
    apply Hk, Hx.
Qed.

End Matcher.

Section Substitution.

Variables (r : regex) (repl : string -> string).

Lemma sub_from_skip (a b : string) :
  sub_from r repl (String.length a) (a ++ b) = sub_from r repl 0 b.
Proof.
  induction a as [|x a IH]; simpl; [|exact IH].
  now destruct b.
Qed.

(** A match at the start of the text is replaced, and the scan goes on
    after it. *)
Lemma sub_from_match (mt rest : string) (cs : captures) :
  mt <> "" ->
  match_here r (mt ++ rest) = Some (mt, rest, cs) ->
  sub_from r repl 0 (mt ++ rest) = repl mt ++ sub_from r repl 0 rest.
Proof.
  intros Hne Hm. destruct mt as [|c mt]; [congruence|].
  change (String c mt ++ rest) with (String c (mt ++ rest)) in *.
  simpl sub_from. rewrite Hm.
  replace (String.length (String c mt) - 1) with (String.length mt)
    by (simpl; lia).
  rewrite sub_from_skip. reflexivity.
Qed.

Variable p : string.
Hypothesis starts_with_p :
  forall s, startswith s p = false -> match_here r s = None.

(** Nothing is replaced before the first occurrence of the text every
    match starts with. *)
Lemma sub_from_before (pre rest : string) :
  find_nat (pre ++ p) p = Some (String.length pre) ->
  sub_from r repl 0 (pre ++ p ++ rest) = pre ++ sub_from r repl 0 (p ++ rest).
Proof.
  induction pre as [|c pre IH]; intros H; [reflexivity|].
  apply find_nat_step in H as [Hs Hf].
  change (String c pre ++ p ++ rest) with (String c (pre ++ p ++ rest)).
  simpl sub_from. rewrite starts_with_p.
  - rewrite IH by assumption. reflexivity.
  - change (String c (pre ++ p ++ rest)) with (String c pre ++ p ++ rest).
    rewrite <- append_assoc, startswith_app_long; [exact Hs|].
    rewrite length_append. lia.
Qed.

(** A text without it is left as it is. *)
Lemma sub_from_absent (s : string) :
  find_nat s p = None -> sub_from r repl 0 s = s.
Proof.
  induction s as [|c s IH]; intros H; [reflexivity|].
  apply find_nat_none_step in H as [Hs Hf].
  simpl sub_from. rewrite starts_with_p by assumption.
  now rewrite IH.
Qed.

End Substitution.

(** ** correct_escaping_in_links *)

Lemma has_char_all_not (c : ascii) (s : string) :
  has_char c s = false ->
  all_chars (fun a => negb (Ascii.eqb a c)) s = true.
Proof.
  induction s as [|a s IH]; simpl; [reflexivity|].
  intros H. apply orb_false_iff in H as [Ha Hs].
  now rewrite Ha, IH.
Qed.

Lemma has_char_append (c : ascii) (a b : string) :
  has_char c (a ++ b) = has_char c a || has_char c b.
Proof.
  induction a as [|x a IH]; simpl; [reflexivity|].
  now rewrite IH, orb_assoc.
Qed.

Lemma contains_char (s : string) (c : ascii) :
  contains s (String c "") = has_char c s.
Proof.
  unfold contains. induction s as [|a s IH]; simpl; [reflexivity|].
  rewrite andb_true_r, (Ascii.eqb_sym c a).
  destruct (Ascii.eqb a c); [reflexivity|]. simpl.
  destruct (find_nat s (String c "")); simpl in *; exact IH.
Qed.

Lemma remove_char_append (c : ascii) (a b : string) :
  remove_char c (a ++ b) = remove_char c a ++ remove_char c b.
Proof.
  induction a as [|x a IH]; simpl; [reflexivity|].
  destruct (Ascii.eqb x c); simpl; now rewrite IH.
Qed.

Lemma last_char_append (a : string) (c : ascii) :
  last_char (a ++ String c "") = String c "".
Proof.
  induction a as [|x a IH]; [reflexivity|].
  change (String x a ++ String c "") with (String x (a ++ String c "")).
  simpl. rewrite IH. now destruct a.
Qed.

Lemma link_re_needs_prefix (s : string) :
  startswith s "[/v1" = false -> match_here link_re s = None.
Proof.
  intros H. unfold match_here, link_re.
  rewrite matches_Group, matches_Cat, matches_lit, H. reflexivity.
Qed.

(** The pattern matches a bracketed text that begins with [/v1 and has at
    least one more character, up to its closing bracket. *)
Lemma link_re_match (body post : string) :
  body <> "" -> has_char "]" body = false ->
  match_here link_re (("[/v1" ++ body ++ "]") ++ post)
  = Some ("[/v1" ++ body ++ "]", post, [(1, "[/v1" ++ body ++ "]")]).
Proof.
  intros Hne Hbody.
  set (mt := "[/v1" ++ body ++ "]").
  assert (Hlen : String.length (mt ++ post) - String.length post
                 = String.length mt) by (rewrite length_append; lia).
  assert (Hm : matches link_re accept (mt ++ post) []
               = Some (post, [(1, mt)])).
  { unfold link_re. rewrite matches_Group, matches_Cat, matches_lit.
    set (K := fun (s' : string) (cs' : captures) =>
                accept s'
                  ((1, take (String.length (mt ++ post) - String.length s')
                         (mt ++ post)) :: cs')).
    assert (E : mt ++ post = "[/v1" ++ body ++ "]" ++ post)
      by (subst mt; now rewrite !append_assoc).
    rewrite E at 1. rewrite E at 1. rewrite startswith_append, drop_append.
    destruct body as [|b body]; [congruence|].
    simpl in Hbody. apply orb_false_iff in Hbody as [Hb Hbody].
    unfold plus. rewrite !matches_Cat.
    change (String b body ++ "]" ++ post)
      with (String b (body ++ "]" ++ post)).
    rewrite matches_Class. unfold not_rbracket at 1. rewrite Hb.
    cbn [negb]. rewrite matches_Star, star_greedy_class.
    - change ("]" ++ post) with (String "]" post).
      rewrite matches_Chr, Ascii.eqb_refl. unfold K, accept.
      now rewrite Hlen, take_append.
    - intros a t Ha. rewrite matches_Chr. unfold not_rbracket in Ha.
      apply negb_true_iff in Ha. now rewrite Ha.
    - reflexivity.
    - apply has_char_all_not, Hbody.
    - rewrite length_append. lia. }
  unfold match_here. rewrite Hm, Hlen, take_append. reflexivity.
Qed.

(** No match where the bracket closes at once, or never closes. *)
Lemma link_re_unclosed (rest : string) :
  startswith rest "]" = true \/ has_char "]" rest = false ->
  match_here link_re ("[/v1" ++ rest) = None.
Proof.
  intros H. unfold match_here, link_re.
  rewrite matches_Group, matches_Cat, matches_lit.
  rewrite startswith_append, drop_append.
  unfold plus. rewrite !matches_Cat.
  destruct rest as [|b rest]; [reflexivity|].
  rewrite matches_Class. unfold not_rbracket at 1.
  destruct (Ascii.eqb b "]") eqn:Hb; [reflexivity|]. cbn [negb].
  destruct H as [H | H].
  - apply startswith_head in H. subst b.
    rewrite Ascii.eqb_refl in Hb. discriminate.
  - change (has_char "]" (String b rest))
      with (Ascii.eqb b "]" || has_char "]" rest) in H.
    rewrite Hb in H. cbn [orb] in H.
    rewrite matches_Star.
    rewrite <- (append_nil_r rest) at 2.
    rewrite star_greedy_class.
    + reflexivity.
    + intros a t Ha. rewrite matches_Chr. unfold not_rbracket in Ha.
      apply negb_true_iff in Ha. now rewrite Ha.
    + reflexivity.
    + apply has_char_all_not, H.
    + lia.
Qed.

Lemma bracketed_parts (t : string) :
  let cleaned := "[" ++ t ++ "]" in
  first_char cleaned = "["
  /\ inner cleaned = t
  /\ last_char cleaned = "]"
  /\ contains cleaned "{" = contains t "{"
  /\ contains cleaned "}" = contains t "}".
Proof.
  intros cleaned. subst cleaned. repeat split.
  - unfold inner. simpl. rewrite length_append. simpl.
    replace (String.length t + 1 - 1) with (String.length t) by lia.
    apply take_append.
  - change ("[" ++ t ++ "]") with (String "[" t ++ "]").
    apply last_char_append.
  - rewrite !contains_char. simpl. rewrite has_char_append. simpl.
    now rewrite orb_false_r.
  - rewrite !contains_char. simpl. rewrite has_char_append. simpl.
    now rewrite orb_false_r.
Qed.

(** What the callback makes of a match. *)
Lemma remove_escapes_of_link (body : string) :
  let text := remove_char bslash ("/v1" ++ body) in
  remove_escapes_and_check_braces ("[/v1" ++ body ++ "]")
  = "[" ++ (if contains text "{" || contains text "}"
            then "`" ++ text ++ "`" else text) ++ "]".
Proof.
  intros text. unfold remove_escapes_and_check_braces.
  assert (E : remove_char bslash ("[/v1" ++ body ++ "]") = "[" ++ text ++ "]").
  { subst text. simpl. now rewrite remove_char_append. }
  rewrite E.
  destruct (bracketed_parts text) as (H1 & H2 & H3 & H4 & H5).
  rewrite H1, H2, H3, H4, H5.
  destruct (contains text "{" || contains text "}"); [|reflexivity].
  simpl. now rewrite !append_assoc.
Qed.

(** C6: in a text whose first [/v1 is at the end of [pre], followed by a
    non-empty [body] without ] and by ], the bracketed text loses its
    backslashes; if it then contains a brace, the text between the brackets
    is put in backticks, otherwise nothing else changes; the text before it
    is kept and the text after it is treated the same way.  Where the
    bracket after the first [/v1 closes at once or never closes, only the
    text after the opening bracket is treated further.  A text without
    [/v1 is returned as it is, and so is [/v1/plain]. *)
Theorem correct_escaping_in_links_spec :
  (forall pre body post : string,
      find_nat (pre ++ "[/v1") "[/v1" = Some (String.length pre) ->
      body <> "" -> has_char "]" body = false ->
      let text := remove_char bslash ("/v1" ++ body) in
      correct_escaping_in_links (pre ++ "[/v1" ++ body ++ "]" ++ post)
      = pre ++ "[" ++ (if contains text "{" || contains text "}"
                       then "`" ++ text ++ "`" else text)
        ++ "]" ++ correct_escaping_in_links post)
  /\ (forall pre rest : string,
         find_nat (pre ++ "[/v1") "[/v1" = Some (String.length pre) ->
         startswith rest "]" = true \/ has_char "]" rest = false ->
         correct_escaping_in_links (pre ++ "[/v1" ++ rest)
         = pre ++ "[" ++ correct_escaping_in_links ("/v1" ++ rest))
  /\ (forall content : string,
         contains content "[/v1" = false ->
         correct_escaping_in_links content = content)
  /\ correct_escaping_in_links "[/v1/plain]" = "[/v1/plain]".
Proof.
  split; [|split; [|split]].
  - intros pre body post Hpre Hne Hbody text.
    unfold correct_escaping_in_links, sub.
    rewrite (sub_from_before link_re _ "[/v1" link_re_needs_prefix)
      by assumption.
    replace ("[/v1" ++ body ++ "]" ++ post)
      with (("[/v1" ++ body ++ "]") ++ post)
      by now rewrite !append_assoc.
    rewrite (sub_from_match link_re _ _ post [(1, "[/v1" ++ body ++ "]")]).
    + rewrite remove_escapes_of_link. fold text.
      now rewrite !append_assoc.
    + discriminate.
    + now apply link_re_match.
  - intros pre rest Hpre Hrest.
    unfold correct_escaping_in_links, sub.
    rewrite (sub_from_before link_re _ "[/v1" link_re_needs_prefix)
      by assumption.
    f_equal.
    change ("[/v1" ++ rest) with (String "[" ("/v1" ++ rest)).
    simpl sub_from.
    change (String "[" (String "/" (String "v" (String "1" rest))))
      with ("[/v1" ++ rest).
    now rewrite link_re_unclosed.
  - intros content H. unfold correct_escaping_in_links, sub.
    apply (sub_from_absent link_re _ "[/v1" link_re_needs_prefix).
    unfold contains in H. now destruct (find_nat content "[/v1").
  - vm_compute. reflexivity.
Qed.

Lemma correct_escaping_in_links_spec_witness :
  correct_escaping_in_links "see [/v1\/foo/{bar}] and [/v1/pl\ain] too"
  = "see [`/v1/foo/{bar}`] and [/v1/plain] too"
  /\ correct_escaping_in_links "a [/v1] b" = "a [/v1] b"
  /\ correct_escaping_in_links "no link \[here\]" = "no link \[here\]".
Proof.
  destruct correct_escaping_in_links_spec as (Hlink & Hopen & Hnone & _).
  split; [|split].
  - etransitivity.
    + exact (Hlink "see " "\/foo/{bar}" " and [/v1/pl\ain] too"
               eq_refl ltac:(discriminate) eq_refl).
    + vm_compute. reflexivity.
  - etransitivity.
    + exact (Hopen "a " "] b" eq_refl (or_introl eq_refl)).
    + vm_compute. reflexivity.
  - exact (Hnone "no link \[here\]" eq_refl).
Defined.

(** ** remove_output_blocks *)

Section LazyStar.

Variable p : string.

Lemma star_lazy_unfold (body : cont -> cont) (k : cont) (n : nat)
  (s : string) (cs : captures) :
  star_lazy body k n s cs
  = match k s cs with
    | Some x => Some x
    | None =>
        match n with
        | 0 => None
        | S n' =>
            body (fun s' cs' =>
                    if (String.length s' <? String.length s)%nat
                    then star_lazy body k n' s' cs' else None) s cs
        end
    end.
Proof. destruct n; reflexivity. Qed.

(** A lazy star over the dot stops at the first occurrence of the literal
    that follows it. *)
Lemma star_lazy_first (post : string) (cs : captures) :
  forall mid n,
    find_nat (mid ++ p) p = Some (String.length mid) ->
    String.length mid <= n ->
    star_lazy (matches (Class any_char)) (matches (lit p) accept) n
      (mid ++ p ++ post) cs
    = Some (post, cs).
Proof.
  induction mid as [|c mid IH]; intros n Hfind Hn.
  - rewrite star_lazy_unfold, matches_lit. simpl append.
    now rewrite startswith_append, drop_append.
  - apply find_nat_step in Hfind as [Hs Hf].
    rewrite star_lazy_unfold, matches_lit.
    replace (startswith (String c mid ++ p ++ post) p) with false.
    + destruct n as [|n]; [simpl in Hn; lia|].
      change (String c mid ++ p ++ post) with (String c (mid ++ p ++ post)).
      rewrite matches_Class. unfold any_char at 1.
      rewrite (proj2 (Nat.ltb_lt _ _)) by (simpl; lia).
      apply IH; [assumption | simpl in Hn; lia].
    + rewrite <- append_assoc, startswith_app_long; [now rewrite Hs|].
      rewrite length_append. lia.
Qed.

(** It fails when the literal does not occur. *)
Lemma star_lazy_absent (k0 : cont) (cs : captures) :
  forall s n,
    find_nat s p = None ->
    star_lazy (matches (Class any_char)) (matches (lit p) k0) n s cs = None.
Proof.
  induction s as [|c s IH]; intros n Hfind.
  - rewrite star_lazy_unfold, matches_lit. simpl in Hfind.
    destruct (startswith "" p); [discriminate|].
    now destruct n.
  - apply find_nat_none_step in Hfind as [Hs Hf].
    rewrite star_lazy_unfold, matches_lit, Hs.
    destruct n as [|n]; [reflexivity|].
    rewrite matches_Class. unfold any_char at 1.
    rewrite (proj2 (Nat.ltb_lt _ _)) by (simpl; lia).
    now apply IH.
Qed.

Lemma find_nat_none_drop (n : nat) : forall s,
  find_nat s p = None -> find_nat (drop n s) p = None.
Proof.
  induction n as [|n IH]; intros s H; [now destruct s|].
  destruct s as [|c s]; [exact H|].
  apply find_nat_none_step in H as [_ H]. simpl. now apply IH.
Qed.

End LazyStar.

Lemma output_re_needs_marker (s : string) :
  startswith s output_marker = false -> match_here output_re s = None.
Proof.
  intros H. unfold match_here, output_re.
  rewrite matches_Cat, matches_lit, H. reflexivity.
Qed.

Lemma output_re_needs_fence (s : string) :
  find_nat s fence = None -> match_here output_re s = None.
Proof.
  intros H. unfold match_here, output_re.
  rewrite matches_Cat, matches_lit.
  destruct (startswith s output_marker); [|reflexivity].
  rewrite matches_Cat, matches_LazyStar, star_lazy_absent; [reflexivity|].
  now apply find_nat_none_drop.
Qed.

(** The pattern matches from the marker through the first fence after
    it. *)
Lemma output_re_match (mid post : string) :
  find_nat (mid ++ fence) fence = Some (String.length mid) ->
  match_here output_re ((output_marker ++ mid ++ fence) ++ post)
  = Some (output_marker ++ mid ++ fence, post, []).
Proof.
  intros Hmid.
  set (mt := output_marker ++ mid ++ fence).
  assert (Hlen : String.length (mt ++ post) - String.length post
                 = String.length mt) by (rewrite length_append; lia).
  assert (Hm : matches output_re accept (mt ++ post) [] = Some (post, [])).
  { unfold output_re. rewrite matches_Cat, matches_lit.
    assert (E : mt ++ post = output_marker ++ mid ++ fence ++ post)
      by (subst mt; now rewrite !append_assoc).
    rewrite E, startswith_append, drop_append.
    rewrite matches_Cat, matches_LazyStar.
    apply star_lazy_first; [assumption|].
    rewrite length_append. lia. }
  unfold match_here. rewrite Hm, Hlen, take_append. reflexivity.
Qed.

Lemma remove_without_fence (s : string) :
  find_nat s fence = None -> remove_output_blocks s = s.
Proof.
  unfold remove_output_blocks, sub.
  induction s as [|c s IH]; intros H; [reflexivity|].
  simpl sub_from. rewrite output_re_needs_fence by assumption.
  apply find_nat_none_step in H as [_ H]. now rewrite IH.
Qed.

Lemma contains_false (s sub : string) :
  contains s sub = false -> find_nat s sub = None.
Proof. unfold contains. now destruct (find_nat s sub). Qed.

(** C8: in a content whose first marker // Output: is at the end of [pre]
    and where the first fence after the marker is at the end of [mid], the
    marker and [mid] are deleted, the fence and what follows it on its
    line stay, [pre] is left unchanged, and the content after the fence is
    treated the same way.  A marker with no fence after it, and a content
    without marker, are left unchanged. *)
Theorem remove_output_blocks_spec :
  (forall pre mid post : string,
      find_nat (pre ++ output_marker) output_marker
      = Some (String.length pre) ->
      find_nat (mid ++ fence) fence = Some (String.length mid) ->
      remove_output_blocks (pre ++ output_marker ++ mid ++ fence ++ post)
      = pre ++ fence ++ remove_output_blocks post)
  /\ (forall pre rest : string,
         find_nat (pre ++ output_marker) output_marker
         = Some (String.length pre) ->
         contains rest fence = false ->
         remove_output_blocks (pre ++ output_marker ++ rest)
         = pre ++ output_marker ++ rest)
  /\ (forall content : string,
         contains content output_marker = false ->
         remove_output_blocks content = content).
Proof.
  split; [|split].
  - intros pre mid post Hpre Hmid.
    unfold remove_output_blocks, sub.
    rewrite (sub_from_before output_re _ output_marker
               output_re_needs_marker) by assumption.
    replace (output_marker ++ mid ++ fence ++ post)
      with ((output_marker ++ mid ++ fence) ++ post)
      by now rewrite !append_assoc.
    rewrite (sub_from_match output_re _ _ post []);
      [reflexivity | discriminate | now apply output_re_match].
  - intros pre rest Hpre Hrest. apply contains_false in Hrest.
    unfold remove_output_blocks, sub.
    rewrite (sub_from_before output_re _ output_marker
               output_re_needs_marker) by assumption.
    f_equal. apply remove_without_fence.
    unfold output_marker. simpl. now rewrite Hrest.
  - intros content H. unfold remove_output_blocks, sub.
    apply (sub_from_absent output_re _ output_marker output_re_needs_marker).
    now apply contains_false.
Qed.

Lemma remove_output_blocks_spec_witness :
  remove_output_blocks
    (join NL [ "fmt.Println(x)"; "// Output:"; "some text"; "```"; "after" ])
  = join NL [ "fmt.Println(x)"; "```"; "after" ]
  /\ remove_output_blocks "x // Output: no fence" = "x // Output: no fence"
  /\ remove_output_blocks "plain" = "plain".
Proof.
  destruct remove_output_blocks_spec as (Hspan & Hopen & Hnone).
  split; [|split].
  - etransitivity.
    + exact (Hspan ("fmt.Println(x)" ++ NL) (NL ++ "some text" ++ NL)
               (NL ++ "after") eq_refl eq_refl).
    + vm_compute. reflexivity.
  - exact (Hopen "x " " no fence" eq_refl eq_refl).
  - exact (Hnone "plain" eq_refl).
Defined.

(* ================================================================== *)
(** * Part III: further properties                                     *)
(* ================================================================== *)

(** ** The relocator moves the marked lines *)

Section Relocator.

Variables (sp : string) (ep : option string).

Lemma in_sections_app (secs1 secs2 : list (nat * nat)) (j : nat) :
  in_sections (secs1 ++ secs2) j = in_sections secs1 j || in_sections secs2 j.
Proof. unfold in_sections. apply existsb_app. Qed.

Lemma in_sections_one (a b j : nat) :
  in_sections [(a, b)] j = (a <=? j)%nat && (j <? b)%nat.
Proof. unfold in_sections. simpl. apply orb_false_r. Qed.

Lemma in_sections_above (secs : list (nat * nat)) : forall lo hi j,
  chain lo secs hi -> hi <= j -> in_sections secs j = false.
Proof.
  induction secs as [|[a b] secs IH]; simpl; intros lo hi j H Hj.
  - reflexivity.
  - destruct H as (H1 & H2 & H3). pose proof (chain_le _ _ _ H3).
    apply orb_false_iff; split.
    + apply andb_false_iff; right. apply Nat.ltb_ge. lia.
    + apply (IH b hi); assumption.
Qed.

(** The sections closed so far end at or before line [i]. *)
Lemma scan_inv_closed (i : nat) (st : scan_state) :
  scan_inv i st -> in_sections (fst st) i = false.
Proof.
  destruct st as [secs [s|]]; simpl.
  - intros [H Hs]. apply (in_sections_above secs 0 s); assumption.
  - intros H. apply (in_sections_above secs 0 i); [assumption | lia].
Qed.

Lemma scan_inv_pending (i : nat) (st : scan_state) :
  scan_inv i st -> pending st i = is_inside st.
Proof.
  destruct st as [secs [s|]]; unfold pending, is_inside; simpl.
  - intros [_ Hs]. apply Nat.leb_le. exact Hs.
  - reflexivity.
Qed.

(** One step of the loop, seen from a line [j] at or before [i]. *)
Lemma top_step_membership (i : nat) (line : string) (st : scan_state)
  (j : nat) :
  j < i ->
  let st' := top_step sp ep i line st in
  in_sections (fst st') j || pending st' j
  = in_sections (fst st) j || pending st j.
Proof.
  intros Hj. destruct st as [secs [s|]]; unfold top_step, pending; simpl.
  - destruct (startswith line sp); simpl.
    + rewrite in_sections_app, in_sections_one.
      rewrite (proj2 (Nat.ltb_lt j i) Hj), andb_true_r.
      rewrite (proj2 (Nat.leb_gt i j) Hj). now rewrite orb_false_r.
    + destruct ep as [e|]; [|reflexivity].
      destruct (startswith line e); simpl; [|reflexivity].
      rewrite in_sections_app, in_sections_one.
      rewrite (proj2 (Nat.ltb_lt j i) Hj), andb_true_r.
      now rewrite orb_false_r.
  - destruct (startswith line sp); simpl.
    + now rewrite (proj2 (Nat.leb_gt i j) Hj).
    + destruct ep; reflexivity.
Qed.

Lemma top_step_inside (i : nat) (line : string) (st : scan_state) :
  is_inside (top_step sp ep i line st) = next_inside sp ep (is_inside st) line.
Proof.
  destruct st as [secs [s|]]; unfold top_step, next_inside, is_inside; simpl.
  - destruct (startswith line sp); [reflexivity|].
    destruct ep as [e|]; [|reflexivity]. now destruct (startswith line e).
  - destruct (startswith line sp); [reflexivity|].
    destruct ep as [e|]; [|reflexivity]. now destruct (startswith line e).
Qed.

(** One step of the loop, seen from line [i] itself. *)
Lemma top_step_at (i : nat) (line : string) (st : scan_state) :
  scan_inv i st ->
  let st' := top_step sp ep i line st in
  in_sections (fst st') i || pending st' i
  = next_inside sp ep (is_inside st) line.
Proof.
  intros Hinv. pose proof (scan_inv_closed i st Hinv) as Hc.
  pose proof (scan_inv_pending i st Hinv) as Hp.
  destruct st as [secs [s|]]; unfold top_step, next_inside, pending, is_inside
    in *; cbn [fst snd] in *.
  - destruct (startswith line sp); [|destruct ep as [e|];
      [destruct (startswith line e)|]]; cbn [fst snd].
    + rewrite Nat.leb_refl. apply orb_true_r.
    + rewrite in_sections_app, in_sections_one, Hc, Nat.ltb_irrefl.
      now rewrite andb_false_r.
    + now rewrite Hc, Hp.
    + now rewrite Hc, Hp.
  - destruct (startswith line sp); [|destruct ep as [e|];
      [destruct (startswith line e)|]]; cbn [fst snd].
    + rewrite Nat.leb_refl. apply orb_true_r.
    + now rewrite Hc.
    + now rewrite Hc.
    + now rewrite Hc.
Qed.

Lemma close_sections_membership (i : nat) (st : scan_state) (j : nat) :
  j < i ->
  in_sections (close_sections i st) j = in_sections (fst st) j || pending st j.
Proof.
  intros Hj. destruct st as [secs [s|]]; unfold pending; simpl.
  - rewrite in_sections_app, in_sections_one.
    now rewrite (proj2 (Nat.ltb_lt j i) Hj), andb_true_r.
  - now rewrite orb_false_r.
Qed.

(** The sections at the end of the scan, seen from the lines already
    scanned and from the lines still to scan. *)
Lemma top_loop_membership (todo : list string) :
  forall i st,
    scan_inv i st ->
    let final :=
      close_sections (i + List.length todo) (top_loop sp ep i todo st) in
    (forall j, j < i ->
               in_sections final j = in_sections (fst st) j || pending st j)
    /\ (forall k, k < List.length todo ->
                  in_sections final (i + k)
                  = nth k (inside_flags sp ep (is_inside st) todo) false).
Proof.
  induction todo as [|line rest IH]; intros i st Hinv final.
  - subst final. simpl. rewrite Nat.add_0_r. split.
    + intros j Hj. now apply close_sections_membership.
    + intros k Hk. simpl in Hk. lia.
  - pose proof (top_step_inv sp ep i line st Hinv) as Hinv'.
    specialize (IH (S i) (top_step sp ep i line st) Hinv').
    simpl in IH. destruct IH as [IH1 IH2].
    assert (E : final = close_sections (S (i + List.length rest))
                          (top_loop sp ep (S i) rest
                             (top_step sp ep i line st))).
    { subst final. simpl. now rewrite Nat.add_succ_r. }
    rewrite E. split.
    + intros j Hj. rewrite IH1 by lia. now apply top_step_membership.
    + intros k Hk. destruct k as [|k].
      * rewrite Nat.add_0_r, IH1 by lia. simpl.
        now apply top_step_at.
      * rewrite Nat.add_succ_r. cbn [inside_flags nth].
        rewrite <- (top_step_inside i line st).
        apply IH2. simpl in Hk. lia.
Qed.

Lemma filter_idx_flags (f : nat -> bool) (l : list string) :
  forall i b,
    (forall k, k < List.length l ->
               f (i + k) = nth k (inside_flags sp ep b l) false) ->
    filter_idx f i l = moved_lines sp ep b l
    /\ filter_idx (fun j => negb (f j)) i l = kept_lines sp ep b l.
Proof.
  induction l as [|x l IH]; intros i b H; [split; reflexivity|].
  pose proof (H 0 ltac:(simpl; lia)) as H0.
  rewrite Nat.add_0_r in H0. simpl in H0.
  destruct (IH (S i) (next_inside sp ep b x)) as [IH1 IH2].
  { intros k Hk. specialize (H (S k) ltac:(simpl; lia)).
    rewrite Nat.add_succ_r in H. exact H. }
  simpl. rewrite H0, IH1, IH2.
  destruct (next_inside sp ep b x); split; reflexivity.
Qed.

(** The lines of the sections the script computes are the marked lines, and
    the rest of the content is the other lines. *)
Lemma top_relocation (lines : list string) :
  section_lines (top_sections lines sp ep) lines
  = moved_lines sp ep false lines
  /\ rest_of_content (top_sections lines sp ep) lines
     = kept_lines sp ep false lines.
Proof.
  pose proof (top_sections_chain lines sp ep) as Hchain.
  rewrite (section_lines_filter lines _ 0 (List.length lines) Hchain)
    by lia.
  unfold rest_of_content. apply filter_idx_flags.
  intros k Hk.
  destruct (top_loop_membership lines 0 ([], None)) as [_ H];
    [simpl; lia|].
  exact (H k Hk).
Qed.

Lemma moved_kept_permutation (lines : list string) : forall b,
  Permutation (moved_lines sp ep b lines ++ kept_lines sp ep b lines)%list
    lines.
Proof.
  induction lines as [|x l IH]; intros b; simpl; [constructor|].
  destruct (next_inside sp ep b x); simpl.
  - constructor. apply IH.
  - apply Permutation_sym, Permutation_cons_app, Permutation_sym, IH.
Qed.

Lemma relocated_lines_split (l : list string) (doc : string) :
  Permutation l (split doc NL) -> split (join NL l) NL = l.
Proof.
  intros Hperm. apply split_join.
  - intros E. rewrite E in Hperm. apply Permutation_nil in Hperm.
    exact (split_not_nil doc NL Hperm).
  - eapply Permutation_Forall; [apply Permutation_sym, Hperm|].
    apply split_lines_no_nl.
Qed.

Lemma move_to_top_eq (doc : string) :
  move_to_top doc sp ep
  = join NL (moved_lines sp ep false (split doc NL)
             ++ kept_lines sp ep false (split doc NL))%list.
Proof.
  unfold move_to_top.
  destruct (top_relocation (split doc NL)) as [-> ->]. reflexivity.
Qed.

(** *** What a second pass finds *)

Lemma next_inside_true (b : bool) (line : string) :
  next_inside sp ep b line = true -> next_inside sp ep true line = true.
Proof.
  unfold next_inside. destruct (startswith line sp); [reflexivity|].
  destruct ep as [e|]; [|reflexivity].
  now destruct (startswith line e).
Qed.

Lemma next_inside_false (line : string) :
  next_inside sp ep false line = startswith line sp.
Proof.
  unfold next_inside. destruct (startswith line sp); [reflexivity|].
  destruct ep as [e|]; [|reflexivity]. now destruct (startswith line e).
Qed.

Lemma next_inside_no_start (b : bool) (line : string) :
  startswith line sp = false ->
  next_inside sp ep b line = true -> b = true.
Proof.
  unfold next_inside. intros ->. destruct ep as [e|]; [|tauto].
  destruct (startswith line e); [discriminate | tauto].
Qed.

(** The lines that stay begin with no start marker. *)
Lemma kept_lines_no_start (lines : list string) : forall b,
  Forall (fun line => startswith line sp = false) (kept_lines sp ep b lines).
Proof.
  induction lines as [|x l IH]; intros b; simpl; [constructor|].
  destruct (next_inside sp ep b x) eqn:E; [apply IH|].
  constructor; [|apply IH].
  unfold next_inside in E. now destruct (startswith x sp).
Qed.

(** A moved line stays inside a section it is found in. *)
Lemma moved_lines_stay (lines : list string) : forall b,
  Forall (fun line => next_inside sp ep true line = true)
    (moved_lines sp ep b lines).
Proof.
  induction lines as [|x l IH]; intros b; simpl; [constructor|].
  destruct (next_inside sp ep b x) eqn:E; [|apply IH].
  constructor; [|apply IH]. exact (next_inside_true b x E).
Qed.

(** Outside a section, the first moved line begins with the start
    marker. *)
Lemma moved_lines_head (lines : list string) :
  match moved_lines sp ep false lines with
  | [] => True
  | line :: _ => startswith line sp = true
  end.
Proof.
  induction lines as [|x l IH]; simpl; [exact I|].
  destruct (next_inside sp ep false x) eqn:E; [|exact IH].
  now rewrite next_inside_false in E.
Qed.

Lemma relocate_app (l1 l2 : list string) : forall b,
  moved_lines sp ep b (l1 ++ l2)
  = (moved_lines sp ep b l1
     ++ moved_lines sp ep (final_inside sp ep b l1) l2)%list
  /\ kept_lines sp ep b (l1 ++ l2)
     = (kept_lines sp ep b l1
        ++ kept_lines sp ep (final_inside sp ep b l1) l2)%list.
Proof.
  induction l1 as [|x l1 IH]; intros b; simpl; [split; reflexivity|].
  destruct (IH (next_inside sp ep b x)) as [-> ->].
  destruct (next_inside sp ep b x); split; reflexivity.
Qed.

(** Inside a section, lines that stay inside are all moved. *)
Lemma relocate_staying (lines : list string) :
  Forall (fun line => next_inside sp ep true line = true) lines ->
  moved_lines sp ep true lines = lines
  /\ kept_lines sp ep true lines = []
  /\ final_inside sp ep true lines = true.
Proof.
  induction 1 as [|x l Hx _ (IH1 & IH2 & IH3)]; simpl;
    [repeat split|].
  rewrite Hx, IH1, IH2, IH3. repeat split.
Qed.

(** The moved lines of a first pass are all moved again. *)
Lemma relocate_moved (lines : list string) :
  let m := moved_lines sp ep false lines in
  moved_lines sp ep false m = m
  /\ kept_lines sp ep false m = []
  /\ (m <> [] -> final_inside sp ep false m = true).
Proof.
  intros m. pose proof (moved_lines_head lines) as Hhead.
  pose proof (moved_lines_stay lines false) as Hstay.
  fold m in Hhead, Hstay. destruct m as [|x m].
  - repeat split. congruence.
  - inversion Hstay as [|? ? _ Hm]; subst.
    destruct (relocate_staying m Hm) as (H1 & H2 & H3).
    simpl. rewrite next_inside_false, Hhead, H1, H2, H3. repeat split.
Qed.

(** Lines without start marker: the moved ones come first. *)
Lemma relocate_no_start (lines : list string) :
  Forall (fun line => startswith line sp = false) lines ->
  forall b,
    (moved_lines sp ep b lines ++ kept_lines sp ep b lines)%list = lines
    /\ (b = false ->
        moved_lines sp ep b lines = []
        /\ kept_lines sp ep b lines = lines
        /\ final_inside sp ep b lines = false).
Proof.
  induction 1 as [|x l Hx _ IH]; intros b; simpl;
    [split; [reflexivity | intros ->; repeat split]|].
  destruct (next_inside sp ep b x) eqn:E.
  - pose proof (next_inside_no_start b x Hx E) as ->.
    destruct (IH true) as [IH1 _]. split; [|discriminate].
    simpl. now rewrite IH1.
  - destruct (IH false) as [_ IH2]. destruct (IH2 eq_refl) as (H1 & H2 & H3).
    rewrite H1, H2, H3. split; [reflexivity | repeat split].
Qed.

(** A second pass of [move_to_top] over its own result moves nothing
    further. *)
Lemma relocate_top_twice (lines : list string) :
  let m := moved_lines sp ep false lines in
  let r := kept_lines sp ep false lines in
  (moved_lines sp ep false (m ++ r) ++ kept_lines sp ep false (m ++ r))%list
  = (m ++ r)%list.
Proof.
  intros m r.
  destruct (relocate_app m r false) as [-> ->].
  destruct (relocate_moved lines) as (H1 & H2 & _). fold m in H1, H2.
  rewrite H1, H2. simpl.
  destruct (relocate_no_start r (kept_lines_no_start lines false)
              (final_inside sp ep false m)) as [H _].
  now rewrite <- app_assoc, H.
Qed.

Lemma relocate_bottom_twice (lines : list string) :
  let m := moved_lines sp ep false lines in
  let r := kept_lines sp ep false lines in
  (kept_lines sp ep false (r ++ m) ++ moved_lines sp ep false (r ++ m))%list
  = (r ++ m)%list.
Proof.
  intros m r.
  destruct (relocate_app r m false) as [-> ->].
  destruct (relocate_no_start r (kept_lines_no_start lines false) false)
    as [_ H].
  destruct (H eq_refl) as (H1 & H2 & H3). rewrite H1, H2, H3.
  destruct (relocate_moved lines) as (H4 & H5 & _). fold m in H4, H5.
  rewrite H4, H5. simpl. now rewrite app_nil_r.
Qed.

End Relocator.

Lemma bottom_loop_with_end (sp e : string) (lines : list string) :
  forall i st,
    bottom_loop sp (Some e) i lines st
    = Ok (top_loop sp (Some e) i lines st).
Proof.
  induction lines as [|line lines IH]; intros i st; simpl; [reflexivity|].
  assert (E : bottom_step sp (Some e) i line st
              = Ok (top_step sp (Some e) i line st)).
  { destruct st as [secs [s|]]; unfold bottom_step, top_step;
      destruct (startswith line sp); try reflexivity;
      destruct (startswith line e); reflexivity. }
  rewrite E. simpl. apply IH.
Qed.

Lemma move_to_bottom_eq (doc sp e : string) :
  move_to_bottom doc sp (Some e)
  = Ok (join NL (kept_lines sp (Some e) false (split doc NL)
                 ++ moved_lines sp (Some e) false (split doc NL))%list).
Proof.
  unfold move_to_bottom, bottom_sections.
  rewrite bottom_loop_with_end. simpl.
  fold (top_sections (split doc NL) sp (Some e)).
  destruct (top_relocation sp (Some e) (split doc NL)) as [-> ->].
  reflexivity.
Qed.

Lemma move_to_top_lines (doc sp : string) (ep : option string) :
  split (move_to_top doc sp ep) NL
  = (moved_lines sp ep false (split doc NL)
     ++ kept_lines sp ep false (split doc NL))%list.
Proof.
  rewrite move_to_top_eq.
  apply (relocated_lines_split _ doc), moved_kept_permutation.
Qed.

Lemma move_to_bottom_lines (doc sp e out : string) :
  move_to_bottom doc sp (Some e) = Ok out ->
  split out NL
  = (kept_lines sp (Some e) false (split doc NL)
     ++ moved_lines sp (Some e) false (split doc NL))%list.
Proof.
  rewrite move_to_bottom_eq. intros H. injection H as <-.
  apply (relocated_lines_split _ doc).
  eapply Permutation_trans; [apply Permutation_app_comm|].
  apply moved_kept_permutation.
Qed.

(** C3: for every document and every pair of markers, the lines of
    [move_to_top(doc, start_marker, end_marker)] are a permutation of the
    lines of [doc]: first the marked lines in file order, then the other
    lines in file order.  A line is marked when it begins with the start
    marker, or when the line before it is marked and it does not begin with
    the end marker; so no line that stays begins with the start marker, and
    the first line that moves does.  The marked lines are the lines of the
    sections the scan computes, section after section; these sections are
    disjoint and in increasing order. *)
Theorem move_to_top_permutation (doc start_marker : string)
  (end_marker : option string) :
  let lines := split doc NL in
  let sections := top_sections lines start_marker end_marker in
  let out := split (move_to_top doc start_marker end_marker) NL in
  let moved := moved_lines start_marker end_marker false lines in
  let kept := kept_lines start_marker end_marker false lines in
  Permutation out lines
  /\ out = (moved ++ kept)%list
  /\ Forall (fun line => startswith line start_marker = false) kept
  /\ match moved with
     | [] => True
     | line :: _ => startswith line start_marker = true
     end
  /\ section_lines sections lines = moved
  /\ section_lines sections lines = filter_idx (in_sections sections) 0 lines
  /\ chain 0 sections (List.length lines).
Proof.
  intros lines sections out moved kept.
  pose proof (top_sections_chain lines start_marker end_marker) as Hchain.
  fold sections in Hchain.
  assert (Hout : out = (moved ++ kept)%list)
    by apply move_to_top_lines.
  split; [|split; [|split; [|split; [|split; [|split]]]]].
  - rewrite Hout. apply moved_kept_permutation.
  - exact Hout.
  - apply kept_lines_no_start.
  - apply moved_lines_head.
  - apply top_relocation.
  - apply (section_lines_filter lines sections 0 (List.length lines) Hchain).
    lia.
  - exact Hchain.
Qed.

(** X1: the lines of [move_to_top(doc, start, end)] are the marked lines of
    [doc] in file order followed by its other lines in file order, where a
    line is marked when it begins with the start marker, or when the line
    before it is marked and it does not begin with the end marker (with no
    end marker: when the line before it is marked). *)
Theorem move_to_top_moves_marked_lines (doc start_marker : string)
  (end_marker : option string) :
  split (move_to_top doc start_marker end_marker) NL
  = (moved_lines start_marker end_marker false (split doc NL)
     ++ kept_lines start_marker end_marker false (split doc NL))%list.
Proof.
  rewrite move_to_top_eq.
  apply (relocated_lines_split _ doc), moved_kept_permutation.
Qed.

(** X2: with an end marker, [move_to_bottom] returns normally; the lines of
    its result are the lines of the document that are not marked, in file
    order, followed by the marked ones in file order, and they are a
    permutation of the lines of the document. *)
Theorem move_to_bottom_moves_marked_lines
  (doc start_marker end_marker : string) :
  exists out,
    move_to_bottom doc start_marker (Some end_marker) = Ok out
    /\ split out NL
       = (kept_lines start_marker (Some end_marker) false (split doc NL)
          ++ moved_lines start_marker (Some end_marker) false
               (split doc NL))%list
    /\ Permutation (split out NL) (split doc NL).
Proof.
  eexists. split; [apply move_to_bottom_eq|].
  assert (Hperm : Permutation
                    (kept_lines start_marker (Some end_marker) false
                       (split doc NL)
                     ++ moved_lines start_marker (Some end_marker) false
                          (split doc NL))%list (split doc NL)).
  { eapply Permutation_trans; [apply Permutation_app_comm|].
    apply moved_kept_permutation. }
  rewrite (relocated_lines_split _ doc Hperm). split; [reflexivity|].
  exact Hperm.
Qed.

(** X3: [move_to_top] is idempotent: a second call with the same markers
    returns its argument. *)
Theorem move_to_top_idempotent (doc start_marker : string)
  (end_marker : option string) :
  move_to_top (move_to_top doc start_marker end_marker) start_marker end_marker
  = move_to_top doc start_marker end_marker.
Proof.
  rewrite (move_to_top_eq start_marker end_marker
             (move_to_top doc start_marker end_marker)).
  rewrite move_to_top_lines, relocate_top_twice.
  symmetry. apply move_to_top_eq.
Qed.

(** X4: with an end marker, [move_to_bottom] is idempotent: a second call
    with the same markers returns its argument. *)
Theorem move_to_bottom_idempotent (doc start_marker end_marker : string) :
  bind (move_to_bottom doc start_marker (Some end_marker))
    (fun out => move_to_bottom out start_marker (Some end_marker))
  = move_to_bottom doc start_marker (Some end_marker).
Proof.
  destruct (move_to_bottom doc start_marker (Some end_marker)) as [out|e]
    eqn:E; [|reflexivity].
  simpl. rewrite move_to_bottom_eq.
  rewrite (move_to_bottom_lines doc start_marker end_marker out E).
  rewrite relocate_bottom_twice.
  rewrite move_to_bottom_eq in E. exact E.
Qed.

Lemma responses_loop_permutation (file_content : string)
  (non_responses responses : list string) :
  forall modified_content,
    Permutation (split modified_content NL) (split file_content NL) ->
    Permutation
      (split (responses_loop file_content non_responses responses
                modified_content) NL)
      (split file_content NL).
Proof.
  induction responses as [|r rs IH]; intros m Hm; simpl; [exact Hm|].
  apply IH. rewrite move_to_top_lines.
  eapply Permutation_trans; [apply moved_kept_permutation | exact Hm].
Qed.

(** X5: whatever the iteration orders of its two sets, the lines of the
    result of [move_responses_to_top] are a permutation of the lines of
    its argument: no line is lost or doubled. *)
Theorem move_responses_to_top_permutation
  (responses non_responses : list string) (file_content : string) :
  Permutation
    (split (move_responses_to_top responses non_responses file_content) NL)
    (split file_content NL).
Proof.
  unfold move_responses_to_top. apply responses_loop_permutation.
  apply Permutation_refl.
Qed.

(** ** The method block extractor: no type, and two ways to fail *)

Lemma extractor_step_no_type (lines : list string) (i : nat) (line : string) :
  is_type_line line = false ->
  extractor_step lines i line initial_state = Ok initial_state.
Proof.
  unfold is_type_line, extractor_step. intros H.
  cbn [type_definition_found initial_state negb andb].
  rewrite H. reflexivity.
Qed.

Lemma extractor_loop_no_type (lines todo : list string) :
  Forall (fun line => is_type_line line = false) todo ->
  forall i, extractor_loop lines i todo initial_state = Ok initial_state.
Proof.
  induction 1 as [|line todo Hline _ IH]; intros i; simpl; [reflexivity|].
  rewrite extractor_step_no_type by assumption. simpl. apply IH.
Qed.

Lemma extractor_loop_app (lines todo1 todo2 : list string) :
  forall i st,
    extractor_loop lines i (todo1 ++ todo2) st
    = bind (extractor_loop lines i todo1 st)
        (fun st' => extractor_loop lines (i + List.length todo1) todo2 st').
Proof.
  induction todo1 as [|line todo1 IH]; intros i st; simpl.
  - now rewrite Nat.add_0_r.
  - destruct (extractor_step lines i line st) as [st'|e]; simpl;
      [|reflexivity].
    rewrite IH. now rewrite Nat.add_succ_r.
Qed.

(** X6: if no line of the content, stripped, begins with <a and contains
    Request, [find_method_blocks_and_relocate] returns the content
    unchanged and raises nothing. *)
Theorem relocate_without_type_is_noop (content : string) :
  Forall (fun line => is_type_line line = false) (split content NL) ->
  find_method_blocks_and_relocate content = Ok content.
Proof.
  intros H. unfold find_method_blocks_and_relocate.
  rewrite extractor_loop_no_type by assumption. simpl.
  now rewrite join_split.
Qed.

Lemma relocate_without_type_is_noop_witness :
  find_method_blocks_and_relocate Examples.doc_by = Ok Examples.doc_by.
Proof.
  apply relocate_without_type_is_noop. repeat constructor.
Defined.

Lemma split_without_separator (c : ascii) (s : string) :
  has_char c s = false -> split s (String c "") = [s].
Proof.
  unfold split. induction s as [|a s IH]; intros H; [reflexivity|].
  simpl in H. apply orb_false_iff in H as [Ha Hs].
  simpl. rewrite Ascii.eqb_sym, Ha. simpl. now rewrite IH.
Qed.

(** X7: if the first line that, stripped, begins with <a and contains
    Request holds no double quote, [find_method_blocks_and_relocate] raises
    IndexError: the type name is taken as the second piece of the line
    split at double quotes. *)
Theorem relocate_type_line_without_quote (before : list string)
  (line : string) (after : list string) (content : string) :
  split content NL = (before ++ line :: after)%list ->
  Forall (fun l => is_type_line l = false) before ->
  is_type_line line = true ->
  has_char dq (strip line) = false ->
  find_method_blocks_and_relocate content = Raise IndexError.
Proof.
  intros Hsplit Hbefore Hline Hdq. unfold find_method_blocks_and_relocate.
  rewrite Hsplit at 2. rewrite extractor_loop_app.
  rewrite extractor_loop_no_type by assumption. simpl.
  unfold extractor_step. cbn [type_definition_found initial_state negb andb].
  unfold is_type_line in Hline. rewrite Hline.
  fold DQ. unfold DQ. rewrite split_without_separator by assumption.
  reflexivity.
Qed.

Lemma relocate_type_line_without_quote_witness :
  find_method_blocks_and_relocate
    (join NL [ "intro"; "<a href=#QuoteRequest>see</a>"; "body" ])
  = Raise IndexError.
Proof.
  apply (relocate_type_line_without_quote
           ["intro"] "<a href=#QuoteRequest>see</a>" ["body"]).
  - reflexivity.
  - repeat constructor.
  - reflexivity.
  - reflexivity.
Defined.

Lemma first_index_none (p : string -> bool) (l : list string) :
  Forall (fun x => p x = false) l -> forall j, first_index p j l = None.
Proof.
  induction 1 as [|x l Hx _ IH]; intros j; simpl; [reflexivity|].
  rewrite Hx. apply IH.
Qed.

Lemma record_block_unbound (lines : list string) (stripped_line : string)
  (i : nat) (st : extractor_state) (suffix : string) :
  end_line_number st = None ->
  contains stripped_line (anchor (type_name st ++ suffix)) = true ->
  forall suffixes,
    In suffix suffixes ->
    record_block suffixes lines stripped_line i st = Raise UnboundLocalError.
Proof.
  intros Hend Hc. induction suffixes as [|s suffixes IH]; intros Hin;
    [contradiction|].
  simpl.
  destruct (contains stripped_line (anchor (type_name st ++ s))) eqn:E.
  - now rewrite Hend.
  - destruct Hin as [-> | Hin]; [congruence | now apply IH].
Qed.

(** A line that opens no method block leaves the type name and the
    unbound [end_line_number] as they are. *)
Lemma extractor_step_other (lines : list string) (i : nat) (line name : string)
  (st : extractor_state) :
  type_found_unbound name st ->
  is_method_line name line = false ->
  exists st',
    extractor_step lines i line st = Ok st' /\ type_found_unbound name st'.
Proof.
  intros (Hf & Hn & He) Hline. unfold extractor_step.
  rewrite Hf. cbn [negb andb].
  destruct (negb (type_end_loop st)); cbn [type_definition_found type_name];
    rewrite ?Hf, Hn; unfold is_method_line in Hline; rewrite Hline;
    cbn [andb]; eexists; (split; [reflexivity|]);
    repeat split; assumption.
Qed.

Lemma extractor_loop_other (lines : list string) (name : string)
  (todo : list string) :
  Forall (fun line => is_method_line name line = false) todo ->
  forall i st,
    type_found_unbound name st ->
    exists st',
      extractor_loop lines i todo st = Ok st' /\ type_found_unbound name st'.
Proof.
  induction 1 as [|line todo Hline _ IH]; intros i st Hst; simpl.
  - now exists st.
  - destruct (extractor_step_other lines i line name st Hst Hline)
      as (st1 & -> & Hst1).
    simpl. now apply IH.
Qed.

(** The step at a method line after which no anchor line follows. *)
Lemma extractor_step_unbound (lines : list string) (i : nat)
  (line name suffix : string) (st : extractor_state) :
  type_found_unbound name st ->
  is_method_line name line = true ->
  In suffix method_suffixes ->
  contains (strip line) (anchor (name ++ suffix)) = true ->
  Forall (fun l => is_anchor_line l = false) (skipn (i + 1) lines) ->
  extractor_step lines i line st = Raise UnboundLocalError.
Proof.
  intros (Hf & Hn & He) Hline Hin Hc Hafter. unfold extractor_step.
  rewrite Hf. cbn [negb andb].
  unfold is_method_line in Hline.
  destruct (negb (type_end_loop st)); cbn [type_definition_found type_name];
    rewrite ?Hf, Hn, Hline; cbn [andb];
    apply (record_block_unbound _ _ _ _ suffix);
    cbn [end_line_number type_name]; try assumption;
    try (rewrite Hn; assumption);
    now rewrite (first_index_none _ _ Hafter).
Qed.

(** X8: if the type line is followed, after lines that open no method
    block, by the anchor line of a Get, Raw or Packed method, and no line
    after that one, stripped, begins with <a, then
    [find_method_blocks_and_relocate] raises UnboundLocalError:
    [end_line_number] is read before any assignment. *)
Theorem relocate_last_block_unbound (before : list string) (type_line : string)
  (between : list string) (method_line : string) (after : list string)
  (name suffix content : string) :
  split content NL
  = (before ++ type_line :: between ++ method_line :: after)%list ->
  Forall (fun l => is_type_line l = false) before ->
  is_type_line type_line = true ->
  nth_error (split (strip type_line) DQ) 1 = Some name ->
  Forall (fun l => is_method_line name l = false) between ->
  is_method_line name method_line = true ->
  In suffix method_suffixes ->
  contains (strip method_line) (anchor (name ++ suffix)) = true ->
  Forall (fun l => is_anchor_line l = false) after ->
  find_method_blocks_and_relocate content = Raise UnboundLocalError.
Proof.
  intros Hsplit Hbefore Htype Hname Hbetween Hmethod Hin Hc Hafter.
  unfold find_method_blocks_and_relocate.
  set (lines := split content NL) in *.
  rewrite Hsplit at 2. rewrite extractor_loop_app.
  rewrite extractor_loop_no_type by assumption.
  cbn [bind extractor_loop].
  (* the type line *)
  assert (Hstep : exists st0,
             extractor_step lines (0 + List.length before) type_line
               initial_state = Ok st0
             /\ type_found_unbound name st0).
  { unfold extractor_step.
    cbn [type_definition_found initial_state negb andb].
    unfold is_type_line in Htype. rewrite Htype.
    destruct (split (strip type_line) DQ) as [|p0 [|p1 ps]];
      try discriminate.
    simpl in Hname. injection Hname as ->.
    eexists. split; [reflexivity|]. repeat split. }
  destruct Hstep as (st0 & -> & Hst0). cbn [bind].
  rewrite extractor_loop_app.
  destruct (extractor_loop_other lines name between Hbetween
              (S (0 + List.length before)) st0 Hst0) as (st1 & -> & Hst1).
  cbn [bind extractor_loop].
  rewrite (extractor_step_unbound lines _ method_line name suffix st1);
    try assumption; [reflexivity|].
  replace (skipn (S (0 + List.length before) + List.length between + 1) lines)
    with after; [assumption|].
  subst lines. rewrite Hsplit.
  replace (S (0 + List.length before) + List.length between + 1)
    with (List.length before + (1 + (List.length between + 1))) by lia.
  rewrite skipn_app, skipn_all2 by lia.
  replace (List.length before + (1 + (List.length between + 1))
           - List.length before) with (S (List.length between + 1)) by lia.
  cbn [app skipn]. rewrite skipn_app, skipn_all2 by lia.
  replace (List.length between + 1 - List.length between) with 1 by lia.
  reflexivity.
Qed.

Lemma relocate_last_block_unbound_witness :
  find_method_blocks_and_relocate
    (join NL [ "intro"; anchor "XRequest"; "## type XRequest"; "";
               anchor "XRequest.Get"; "### func Get"; "last words" ])
  = Raise UnboundLocalError.
Proof.
  apply (relocate_last_block_unbound
           ["intro"] (anchor "XRequest") ["## type XRequest"; ""]
           (anchor "XRequest.Get") ["### func Get"; "last words"]
           "XRequest" ".Get").
  - reflexivity.
  - repeat constructor.
  - reflexivity.
  - reflexivity.
  - repeat constructor.
  - reflexivity.
  - left. reflexivity.
  - reflexivity.
  - repeat constructor.
Defined.

(** ** The combiner: unreadable files, the table of the script, imports *)

Lemma read_files_unreadable (fs : string -> option string)
  (file_paths : list string) :
  Exists (fun p => fs p = None) file_paths ->
  forall combined_content,
    exists p,
      In p file_paths /\ fs p = None
      /\ read_files fs file_paths combined_content = inr p.
Proof.
  induction file_paths as [|q paths IH]; intros H acc.
  - inversion H.
  - simpl. destruct (fs q) as [text|] eqn:Hq.
    + assert (Hrest : Exists (fun p => fs p = None) paths).
      { inversion H as [? ? Hq' | ? ? Hr]; subst; [congruence | exact Hr]. }
      destruct (IH Hrest (acc ++ text ++ NL ++ NL)) as (p & Hin & Hp & Hr).
      exists p. repeat split; [now right | assumption | assumption].
    + exists q. repeat split; [now left | assumption].
Qed.

(** X9: if one of the files cannot be read, the combine step prints the
    read error of such a file, writes nothing, and the run ends normally
    with exit code 0, whatever URLs the readable files hold. *)
Theorem combine_unreadable_file_is_skipped (table : url_table)
  (fs : string -> option string) (can_write : string -> bool)
  (file_paths : list string) :
  Exists (fun p => fs p = None) file_paths ->
  exists p,
    In p file_paths /\ fs p = None
    /\ main_combine table fs can_write file_paths
       = ([PrintReadError p], Finished)
    /\ exit_code (snd (main_combine table fs can_write file_paths)) = 0
    /\ writes (fst (main_combine table fs can_write file_paths)) = [].
Proof.
  intros H.
  destruct (read_files_unreadable fs file_paths H "") as (p & Hin & Hp & Hr).
  exists p.
  assert (E : main_combine table fs can_write file_paths
              = ([PrintReadError p], Finished)).
  { unfold main_combine, combine_files_into_mdx. now rewrite Hr. }
  rewrite E. repeat split; assumption.
Qed.

Lemma combine_unreadable_file_is_skipped_witness :
  exists p,
    In p ["quotes.md"; "missing.md"]
    /\ CombinerExamples.fs p = None
    /\ main_combine URL_TO_INFO CombinerExamples.fs (fun _ => true)
         ["quotes.md"; "missing.md"] = ([PrintReadError p], Finished)
    /\ exit_code (snd (main_combine URL_TO_INFO CombinerExamples.fs
                         (fun _ => true) ["quotes.md"; "missing.md"])) = 0
    /\ writes (fst (main_combine URL_TO_INFO CombinerExamples.fs
                      (fun _ => true) ["quotes.md"; "missing.md"])) = [].
Proof.
  apply (combine_unreadable_file_is_skipped URL_TO_INFO CombinerExamples.fs
           (fun _ => true) ["quotes.md"; "missing.md"]).
  apply Exists_cons_tl, Exists_cons_hd. reflexivity.
Defined.

Lemma in_table_key (table : url_table) (url : string) :
  in_table table url = true -> In url (map fst table).
Proof.
  unfold in_table. induction table as [|[k v] table IH]; simpl;
    [discriminate|].
  destruct (String.eqb_spec k url) as [-> | _]; [now left|].
  intros H. right. now apply IH.
Qed.

(** X10: with the table of the script, once the files are read the
    combiner either ends the run by SystemExit(1) (no URL of the content is
    a key) or returns the content under exactly one front-matter block, that
    of the first URL of the content that is a key, with the output file
    name derived from that URL; it never raises UnboundLocalError. *)
Theorem combine_with_shipped_table (fs : string -> option string)
  (file_paths : list string) (combined_content : string) :
  read_files fs file_paths "" = inl combined_content ->
  match urls_to_process URL_TO_INFO combined_content with
  | [] =>
      snd (combine_files_into_mdx URL_TO_INFO fs file_paths)
      = Raise (SystemExit 1)
  | url :: _ =>
      combine_files_into_mdx URL_TO_INFO fs file_paths
      = ([], Ok (Some (add_imports
                         (header_of URL_TO_INFO url ++ combined_content),
                       output_filename_of url)))
  end.
Proof.
  intros Hread. unfold combine_files_into_mdx. rewrite Hread.
  unfold combine_content.
  destruct (urls_to_process URL_TO_INFO combined_content) as [|url rest]
    eqn:Hurls; [reflexivity|].
  assert (Hin : in_table URL_TO_INFO url = true).
  { pose proof (filter_In_all (in_table URL_TO_INFO)
                  (findall0 url_re combined_content)) as H.
    fold (urls_to_process URL_TO_INFO combined_content) in H.
    rewrite Hurls in H. now inversion H. }
  assert (Hseg : contains url "/sdk/" = true \/ contains url "/api/" = true).
  { pose proof URL_TO_INFO_keys_have_segment as Hkeys.
    rewrite Forall_forall in Hkeys.
    specialize (Hkeys url (in_table_key _ _ Hin)).
    now apply orb_true_iff in Hkeys. }
  pose proof (url_loop_stops URL_TO_INFO [] url rest (Forall_nil _) Hin Hseg
                combined_content) as Hloop.
  cbn [app] in Hloop. rewrite Hloop. cbn [rev map concat_all fold_right].
  now rewrite append_nil_r.
Qed.

Lemma combine_with_shipped_table_witness :
  combine_files_into_mdx URL_TO_INFO CombinerExamples.fs
    ["plans.md"; "quotes.md"]
  = ([], Ok (Some
       ("---" ++ NL ++ "title: Quotes" ++ NL ++ "sidebar_position: 3" ++ NL
        ++ "---" ++ NL ++ NL
        ++ "See <https://www.marketdata.app/docs/account/plans>." ++ NL ++ NL
        ++ "See (https://www.marketdata.app/docs/api/stocks/quotes)."
        ++ NL ++ NL,
        "go/stocks/quotes.mdx"))).
Proof.
  exact (combine_with_shipped_table CombinerExamples.fs
           ["plans.md"; "quotes.md"] _ eq_refl).
Defined.

Section FindFacts.

Variable p : string.

Lemma startswith_app_true (a b : string) :
  startswith a p = true -> startswith (a ++ b) p = true.
Proof.
  revert a. induction p as [|c q IH]; intros a H; [reflexivity|].
  destruct a as [|x a]; [discriminate|]. simpl in *.
  apply andb_true_iff in H as [Hx Ha]. now rewrite Hx, IH.
Qed.

Lemma startswith_length (a : string) :
  startswith a p = true -> String.length p <= String.length a.
Proof.
  revert a. induction p as [|c q IH]; intros a H; simpl; [lia|].
  destruct a as [|x a]; [discriminate|]. simpl in *.
  apply andb_true_iff in H as [_ Ha]. apply IH in Ha. lia.
Qed.

Lemma startswith_split (a : string) :
  startswith a p = true -> a = p ++ drop (String.length p) a.
Proof.
  revert a. induction p as [|c q IH]; intros a H; [now destruct a|].
  destruct a as [|x a]; [discriminate|]. simpl in *.
  apply andb_true_iff in H as [Hx Ha]. apply Ascii.eqb_eq in Hx. subst x.
  f_equal. now apply IH.
Qed.

(** Where [find_nat] finds [p], the text is cut in three. *)
Lemma find_nat_sound (s : string) : forall i,
  find_nat s p = Some i ->
  s = take i s ++ p ++ drop (i + String.length p) s
  /\ i + String.length p <= String.length s.
Proof.
  induction s as [|c s IH]; intros i H.
  - simpl in H. destruct (startswith "" p) eqn:E; [|discriminate].
    injection H as <-. split; [now apply startswith_split|].
    now apply startswith_length in E.
  - simpl in H. destruct (startswith (String c s) p) eqn:E.
    + injection H as <-. split; [now apply startswith_split|].
      now apply startswith_length in E.
    + destruct (find_nat s p) as [j|] eqn:Hj; [|discriminate].
      injection H as <-. destruct (IH j eq_refl) as [IH1 IH2].
      split; [|simpl; lia]. simpl. now rewrite <- IH1.
Qed.

(** The first occurrence in a text is the first occurrence in any
    extension of it. *)
Lemma find_nat_app (a b : string) : forall i,
  find_nat a p = Some i -> find_nat (a ++ b) p = Some i.
Proof.
  induction a as [|c a IH]; intros i H.
  - simpl in H. destruct (startswith "" p) eqn:E; [|discriminate].
    injection H as <-. simpl append.
    destruct b as [|x b]; simpl.
    + now rewrite E.
    + change (String x b) with ("" ++ String x b).
      now rewrite (startswith_app_true "" (String x b) E).
  - simpl in H. change (String c a ++ b) with (String c (a ++ b)).
    destruct (startswith (String c a) p) eqn:E.
    + injection H as <-. simpl.
      change (String c (a ++ b)) with (String c a ++ b).
      now rewrite (startswith_app_true _ b E).
    + destruct (find_nat a p) as [j|] eqn:Hj; [|discriminate].
      injection H as <-.
      destruct (find_nat_sound a j Hj) as [_ Hlen].
      simpl. change (String c (a ++ b)) with (String c a ++ b).
      rewrite startswith_app_long, E by (simpl; lia).
      now rewrite (IH j eq_refl).
Qed.

End FindFacts.

Lemma take_app_le (a b : string) : forall n,
  n <= String.length a -> take n (a ++ b) = take n a.
Proof.
  induction a as [|c a IH]; intros n Hn; simpl in *.
  - assert (n = 0) by lia. subst n. now destruct b.
  - destruct n as [|n]; [reflexivity|]. simpl. rewrite IH by lia.
    reflexivity.
Qed.

Lemma drop_app_le (a b : string) : forall n,
  n <= String.length a -> drop n (a ++ b) = drop n a ++ b.
Proof.
  induction a as [|c a IH]; intros n Hn; simpl in *.
  - assert (n = 0) by lia. subst n. now destruct b.
  - destruct n as [|n]; [reflexivity|]. simpl. apply IH. lia.
Qed.

(** X11: when the combined content holds a tab group, the two import
    statements are put right after the front-matter block that leads the
    content, provided the block shows the end-of-front-matter text only at
    its own end (which holds for every entry of the table of the script);
    without a tab group nothing is added. *)
Theorem add_imports_after_front_matter (i : info) (body : string) :
  find_nat (header_text i) front_matter_end
  = Some (String.length (header_text i) - String.length front_matter_end) ->
  add_imports (header_text i ++ body)
  = if contains (header_text i ++ body) "<Tabs>"
    then header_text i ++ import_statements ++ body
    else header_text i ++ body.
Proof.
  intros Hfind. unfold add_imports.
  destruct (contains (header_text i ++ body) "<Tabs>"); [|reflexivity].
  unfold replace_first.
  rewrite (find_nat_app _ _ body _ Hfind).
  destruct (find_nat_sound _ _ _ Hfind) as [Hcut Hlen].
  set (h := header_text i) in *. set (e := front_matter_end) in *.
  assert (Hle : String.length e <= String.length h) by lia.
  replace (String.length h - String.length e + String.length e)
    with (String.length h) in * by lia.
  rewrite take_app_le by lia.
  rewrite drop_append.
  assert (Hd : drop (String.length h) h = "").
  { rewrite <- (append_nil_r h) at 2. apply drop_append. }
  rewrite Hd, append_nil_r in Hcut.
  rewrite Hcut at 3. now rewrite !append_assoc.
Qed.

(** Every entry of the table of the script meets the proviso. *)
Lemma URL_TO_INFO_headers_end_once :
  Forall (fun kv =>
            find_nat (header_text (snd kv)) front_matter_end
            = Some (String.length (header_text (snd kv))
                    - String.length front_matter_end))
    URL_TO_INFO.
Proof. repeat constructor. Qed.

Lemma add_imports_after_front_matter_witness :
  add_imports
    (header_text {| title := "Quotes"; sidebar_position := 3 |}
     ++ "<Tabs>" ++ NL ++ "</Tabs>")
  = header_text {| title := "Quotes"; sidebar_position := 3 |}
    ++ import_statements ++ "<Tabs>" ++ NL ++ "</Tabs>".
Proof.
  exact (add_imports_after_front_matter
           {| title := "Quotes"; sidebar_position := 3 |}
           ("<Tabs>" ++ NL ++ "</Tabs>") eq_refl).
Defined.

(** ** remove_code_block_delimiters *)

Lemma deletes_Forall {A : Type} (P Q : A -> Prop) (l out : list A) :
  deletes P l out -> Forall Q l -> Forall Q out.
Proof.
  induction 1 as [|x l out _ IH | x l out _ _ IH]; intros H.
  - constructor.
  - inversion H; subst. constructor; auto.
  - inversion H; subst. auto.
Qed.

Lemma deletes_refl {A : Type} (P : A -> Prop) (l : list A) : deletes P l l.
Proof. induction l; constructor; assumption. Qed.

Lemma deletes_app {A : Type} (P : A -> Prop) (l1 l2 out : list A) :
  deletes P l2 out -> deletes P (l1 ++ l2) (l1 ++ out).
Proof. induction l1; simpl; [tauto | constructor; auto]. Qed.

Lemma split_join_of_lines (out : list string) (content : string) :
  out <> [] ->
  Forall (fun l => has_char nl l = false) out ->
  split (join NL out) NL = out.
Proof. intros. now apply split_join. Qed.

Lemma delimiters_loop_deletes (title : string) (lines : list string) :
  forall in_section removed,
    removed <= 2 ->
    let out := delimiters_loop title lines in_section removed in
    deletes (fun l => strip l = "```") lines out
    /\ List.length lines <= List.length out + (2 - removed).
Proof.
  induction lines as [|line rest IH]; intros in_section removed Hr out;
    subst out; cbn [delimiters_loop].
  - split; [constructor | cbn [List.length] in *; lia].
  - destruct (String.eqb (strip line) title).
    + destruct (IH (if (removed =? 2)%nat then false else true) removed Hr)
        as [IH1 IH2].
      split; [apply deletes_keep; exact IH1 | cbn [List.length] in *; lia].
    + destruct (in_section && String.eqb (strip line) "```"
                && (removed <? 2)%nat) eqn:E.
      * apply andb_true_iff in E as [E Hlt].
        apply andb_true_iff in E as [_ Hfence].
        apply String.eqb_eq in Hfence. apply Nat.ltb_lt in Hlt.
        destruct (IH in_section (removed + 1) ltac:(lia)) as [IH1 IH2].
        split; [apply deletes_drop; [exact Hfence | exact IH1] | cbn [List.length] in *; lia].
      * destruct (IH (if (removed =? 2)%nat then false else in_section)
                    removed Hr) as [IH1 IH2].
        split; [apply deletes_keep; exact IH1 | cbn [List.length] in *; lia].
Qed.

Lemma delimiters_loop_outside (title : string) (lines rest : list string) :
  Forall (fun l => String.eqb (strip l) title = false) lines ->
  forall removed,
    delimiters_loop title (lines ++ rest) false removed
    = (lines ++ delimiters_loop title rest false removed)%list.
Proof.
  induction 1 as [|line lines Hline _ IH]; intros removed; simpl;
    [reflexivity|].
  rewrite Hline. f_equal. destruct (removed =? 2)%nat; apply IH.
Qed.

(** X12: [remove_code_block_delimiters] deletes at most two lines, each of
    them a line that, stripped, is a code fence; the lines before the first
    line that, stripped, is the section title are all kept, and a content
    without such a line is returned unchanged. *)
Theorem remove_code_block_delimiters_spec (content section_title : string) :
  let lines := split content NL in
  let out := split (remove_code_block_delimiters content section_title) NL in
  deletes (fun l => strip l = "```") lines out
  /\ List.length lines <= List.length out + 2
  /\ (forall before rest,
         lines = (before ++ rest)%list ->
         Forall (fun l => String.eqb (strip l) section_title = false) before ->
         firstn (List.length before) out = before)
  /\ (Forall (fun l => String.eqb (strip l) section_title = false) lines ->
      remove_code_block_delimiters content section_title = content).
Proof.
  intros lines out.
  destruct (delimiters_loop_deletes section_title lines false 0
              ltac:(lia)) as [Hdel Hlen].
  assert (Hout : out = delimiters_loop section_title lines false 0).
  { subst out. unfold remove_code_block_delimiters. fold lines.
    apply (split_join_of_lines _ content).
    - pose proof (split_not_nil content NL) as Hne. fold lines in Hne.
      destruct lines as [|l ls]; [congruence|]. simpl.
      destruct (String.eqb (strip l) section_title); discriminate.
    - eapply deletes_Forall; [exact Hdel|]. apply split_lines_no_nl. }
  rewrite Hout. repeat split; try assumption.
  - intros before rest E Hbefore. rewrite E.
    rewrite delimiters_loop_outside by assumption.
    rewrite firstn_app, Nat.sub_diag, firstn_all. simpl.
    apply app_nil_r.
  - intros H. unfold remove_code_block_delimiters. fold lines.
    rewrite <- (app_nil_r lines) at 1.
    rewrite delimiters_loop_outside by assumption. simpl.
    rewrite app_nil_r. apply join_split.
Qed.

Lemma remove_code_block_delimiters_spec_witness :
  remove_code_block_delimiters
    (join NL [ "```"; "intro"; "```" ]) "## Making Requests"
  = join NL [ "```"; "intro"; "```" ]
  /\ remove_code_block_delimiters
       (join NL [ "```"; "## Making Requests"; "```"; "a"; "```"; "```" ])
       "## Making Requests"
     = join NL [ "```"; "## Making Requests"; "a"; "```" ].
Proof.
  split.
  - apply (proj2 (proj2 (proj2 (remove_code_block_delimiters_spec
             (join NL [ "```"; "intro"; "```" ]) "## Making Requests")))).
    repeat constructor.
  - reflexivity.
Defined.

(** ** remove_index_block *)

Lemma index_loop_deletes (lines : list string) : forall a b,
  deletes (fun _ => True) lines (index_loop lines a b).
Proof.
  induction lines as [|line rest IH]; intros a b; cbn [index_loop]; [constructor|].
  destruct (startswith line "## Index");
    [apply deletes_drop; [exact I | apply IH]|].
  destruct (a && negb b); [apply deletes_drop; [exact I | apply IH]|].
  destruct a; [|apply deletes_keep, IH].
  destruct (_ || _); (apply deletes_drop; [exact I | apply IH]).
Qed.

Lemma index_loop_no_heading (lines : list string) : forall a b,
  Forall (fun l => startswith l "## Index" = false) (index_loop lines a b).
Proof.
  induction lines as [|line rest IH]; intros a b; cbn [index_loop]; [constructor|].
  destruct (startswith line "## Index") eqn:E; [apply IH|].
  destruct (a && negb b); [apply IH|].
  destruct a; [destruct (_ || _); apply IH|].
  constructor; [exact E | apply IH].
Qed.

Lemma index_loop_outside (lines : list string) :
  Forall (fun l => startswith l "## Index" = false) lines ->
  forall b, index_loop lines false b = lines.
Proof.
  induction 1 as [|line lines Hline _ IH]; intros b; cbn [index_loop]; [reflexivity|].
  rewrite Hline. cbn [andb]. now rewrite IH.
Qed.

(** X13: no line of the result of [remove_index_block] begins with
    ## Index; the pass only deletes lines (the result is empty, or its
    lines are lines of the content in their order); and a content without a
    line that begins with ## Index is returned unchanged. *)
Theorem remove_index_block_spec (content : string) :
  Forall (fun l => startswith l "## Index" = false)
    (split (remove_index_block content) NL)
  /\ (remove_index_block content = ""
      \/ deletes (fun _ => True) (split content NL)
           (split (remove_index_block content) NL))
  /\ (Forall (fun l => startswith l "## Index" = false) (split content NL) ->
      remove_index_block content = content).
Proof.
  unfold remove_index_block.
  pose proof (index_loop_deletes (split content NL) false false) as Hdel.
  pose proof (index_loop_no_heading (split content NL) false false) as Hno.
  destruct (index_loop (split content NL) false false) as [|l ls] eqn:E.
  - repeat split.
    + repeat constructor.
    + now left.
    + intros H. rewrite index_loop_outside in E by assumption.
      exfalso. exact (split_not_nil content NL E).
  - assert (Hs : split (join NL (l :: ls)) NL = l :: ls).
    { apply (split_join_of_lines _ content); [discriminate|].
      eapply deletes_Forall; [exact Hdel|]. apply split_lines_no_nl. }
    rewrite Hs. repeat split.
    + exact Hno.
    + now right.
    + intros H. rewrite index_loop_outside in E by assumption.
      rewrite <- E. apply join_split.
Qed.

Lemma remove_index_block_spec_witness :
  remove_index_block (join NL [ "# title"; "- item"; ""; "text" ])
  = join NL [ "# title"; "- item"; ""; "text" ]
  /\ remove_index_block
       (join NL [ "# title"; "## Index"; ""; "- a"; "- b"; ""; "text" ])
     = join NL [ "# title"; "text" ].
Proof.
  split.
  - apply (proj2 (proj2 (remove_index_block_spec
             (join NL [ "# title"; "- item"; ""; "text" ])))).
    repeat constructor.
  - reflexivity.
Defined.

(** ** remove_first_sentence *)

Lemma sentence_loop_found (lines : list string) :
  sentence_loop lines true = lines.
Proof.
  induction lines as [|line rest IH]; cbn [sentence_loop negb andb];
    [reflexivity | now rewrite IH].
Qed.

Lemma sentence_loop_step (line : string) (rest : list string) :
  has_first_sentence line = false ->
  sentence_loop (line :: rest) false = line :: sentence_loop rest false.
Proof.
  unfold has_first_sentence, contains. intros H.
  cbn [sentence_loop negb andb].
  destruct (startswith line "Package"); [|reflexivity].
  destruct (find_nat line "."); [discriminate | reflexivity].
Qed.

Lemma sentence_loop_before (before rest : list string) :
  Forall (fun l => has_first_sentence l = false) before ->
  sentence_loop (before ++ rest) false
  = (before ++ sentence_loop rest false)%list.
Proof.
  induction 1 as [|line before Hline _ IH]; [reflexivity|].
  simpl app. rewrite sentence_loop_step by assumption. now rewrite IH.
Qed.

(** X14: [remove_first_sentence] changes only the first line that begins
    with Package and holds a period: of that line it keeps the text after
    the first period without leading white space, or drops the line if
    nothing is left; all other lines stay, and a content without such a
    line is returned unchanged. *)
Theorem remove_first_sentence_spec (content : string) :
  (forall before line after,
      split content NL = (before ++ line :: after)%list ->
      Forall (fun l => has_first_sentence l = false) before ->
      has_first_sentence line = true ->
      remove_first_sentence content
      = join NL (before ++ without_first_sentence line ++ after)%list)
  /\ (Forall (fun l => has_first_sentence l = false) (split content NL) ->
      remove_first_sentence content = content).
Proof.
  unfold remove_first_sentence. split.
  - intros before line after E Hbefore Hline. rewrite E.
    rewrite sentence_loop_before by assumption. f_equal. f_equal.
    unfold has_first_sentence, contains in Hline.
    apply andb_true_iff in Hline as [Hp Hdot].
    cbn [sentence_loop negb andb]. rewrite Hp. unfold without_first_sentence.
    destruct (find_nat line "."); [|discriminate].
    now rewrite sentence_loop_found.
  - intros H. rewrite <- (app_nil_r (split content NL)) at 1.
    rewrite sentence_loop_before by assumption. simpl.
    rewrite app_nil_r. apply join_split.
Qed.

Lemma remove_first_sentence_spec_witness :
  remove_first_sentence
    (join NL [ "# client"; "Package client does things.  It also helps.";
               "Package two. More." ])
  = join NL [ "# client"; "It also helps."; "Package two. More." ]
  /\ remove_first_sentence (join NL [ "# client"; "Package without period" ])
     = join NL [ "# client"; "Package without period" ].
Proof.
  split.
  - etransitivity.
    + apply (proj1 (remove_first_sentence_spec
                      (join NL [ "# client";
                                 "Package client does things.  It also helps.";
                                 "Package two. More." ]))
               ["# client"] "Package client does things.  It also helps."
               ["Package two. More."]).
      * vm_compute. reflexivity.
      * apply Forall_cons; [vm_compute; reflexivity | apply Forall_nil].
      * vm_compute. reflexivity.
    + vm_compute. reflexivity.
  - apply (proj2 (remove_first_sentence_spec
                    (join NL [ "# client"; "Package without period" ]))).
    assert (E : split (join NL [ "# client"; "Package without period" ]) NL
                = [ "# client"; "Package without period" ])
      by (vm_compute; reflexivity).
    rewrite E.
    repeat (apply Forall_cons; [vm_compute; reflexivity|]).
    apply Forall_nil.
Defined.

(** ** clean_headings *)

Lemma words_nil_lstrip (s : string) : words s = [] -> lstrip s = "".
Proof.
  induction s as [|c s IH]; [reflexivity|]. cbn [words lstrip].
  destruct (isspace c); [exact IH|].
  destruct s as [|c' s']; [discriminate|].
  destruct (isspace c'); [discriminate|].
  destruct (words (String c' s')); discriminate.
Qed.

Lemma words_are_words (s : string) : Forall is_word (words s).
Proof.
  induction s as [|c s IH]; [constructor|]. cbn [words].
  destruct (isspace c) eqn:Hc; [exact IH|].
  assert (Hone : forall w, all_chars not_space w = true ->
                           is_word (String c w)).
  { intros w Hw. split; [discriminate|]. simpl. unfold not_space at 1.
    now rewrite Hc, Hw. }
  destruct s as [|c' s']; [constructor; [now apply Hone | constructor]|].
  destruct (isspace c').
  - constructor; [now apply Hone | exact IH].
  - destruct (words (String c' s')) as [|w ws].
    + constructor; [now apply Hone | constructor].
    + inversion IH as [|? ? [_ Hw] Hws]; subst.
      constructor; [now apply Hone | exact Hws].
Qed.

Lemma last_Forall {A : Type} (P : A -> Prop) (l : list A) (d : A) :
  Forall P l -> P d -> P (last l d).
Proof.
  induction 1 as [|x l Hx _ IH]; intros Hd; [exact Hd|].
  destruct l as [|y l]; [exact Hx|]. now apply IH.
Qed.

Lemma last_cons_default {A : Type} (x : A) (l : list A) (d : A) :
  last (x :: l) d = last l x.
Proof.
  revert x d. induction l as [|y l IH]; intros x d; [reflexivity|].
  change (last (x :: y :: l) d) with (last (y :: l) d).
  now rewrite (IH y d), (IH y x).
Qed.

Lemma last_item_words (line : string) :
  startswith (strip line) "#" = true ->
  last_item (words line) = Ok (last_word line) /\ is_word (last_word line).
Proof.
  intros H. pose proof (words_are_words line) as Hw.
  unfold last_word. destruct (words line) as [|w ws] eqn:E.
  - apply words_nil_lstrip in E. unfold strip in H. rewrite E in H.
    discriminate.
  - split.
    + unfold last_item. now rewrite last_cons_default.
    + rewrite last_cons_default. inversion Hw; subst.
      apply last_Forall; assumption.
Qed.

Lemma clean_heading_line_ok (pattern line : string) :
  clean_heading_line pattern line = Ok (clean_line pattern line).
Proof.
  unfold clean_heading_line, clean_line.
  destruct (is_heading_with pattern line) eqn:E; [|reflexivity].
  unfold is_heading_with in E. apply andb_true_iff in E as [E _].
  destruct (last_item_words line E) as [-> _]. reflexivity.
Qed.

Lemma clean_headings_loop_ok (pattern : string) (lines : list string) :
  clean_headings_loop pattern lines = Ok (map (clean_line pattern) lines).
Proof.
  induction lines as [|line rest IH]; [reflexivity|].
  cbn [clean_headings_loop map]. rewrite clean_heading_line_ok, IH.
  reflexivity.
Qed.

Lemma word_no_nl (w : string) : is_word w -> has_char nl w = false.
Proof.
  intros [_ H]. induction w as [|c w IH]; [reflexivity|].
  simpl in *. apply andb_true_iff in H as [Hc Hw].
  rewrite (IH Hw), orb_false_r.
  destruct (Ascii.eqb_spec c nl) as [->|]; [discriminate | reflexivity].
Qed.

Lemma repeat_char_no_nl (n : nat) : has_char nl (repeat_char "#" n) = false.
Proof. induction n as [|n IH]; [reflexivity | exact IH]. Qed.

Lemma clean_line_no_nl (pattern line : string) :
  has_char nl line = false -> has_char nl (clean_line pattern line) = false.
Proof.
  intros H. unfold clean_line.
  destruct (is_heading_with pattern line) eqn:E; [|exact H].
  unfold is_heading_with in E. apply andb_true_iff in E as [E _].
  destruct (last_item_words line E) as [_ Hw].
  unfold cleaned_heading.
  rewrite !has_char_append, repeat_char_no_nl, (word_no_nl _ Hw).
  reflexivity.
Qed.

Lemma clean_lines_split (pattern content : string) :
  split (join NL (map (clean_line pattern) (split content NL))) NL
  = map (clean_line pattern) (split content NL).
Proof.
  apply split_join.
  - pose proof (split_not_nil content NL) as Hne.
    destruct (split content NL); [congruence | discriminate].
  - pose proof (split_lines_no_nl content) as H.
    induction H as [|l ls Hl _ IH]; [constructor|].
    constructor; [now apply clean_line_no_nl | exact IH].
Qed.

Lemma words_word (w : string) : is_word w -> words w = [w].
Proof.
  intros [Hne H]. induction w as [|c w IH]; [congruence|].
  simpl in H. apply andb_true_iff in H as [Hc Hw].
  unfold not_space in Hc. apply negb_true_iff in Hc.
  cbn [words]. rewrite Hc.
  destruct w as [|c' w']; [reflexivity|].
  assert (Hc' : isspace c' = false).
  { simpl in Hw. apply andb_true_iff in Hw as [Hc' _].
    unfold not_space in Hc'. now apply negb_true_iff in Hc'. }
  rewrite Hc'. rewrite IH; [reflexivity | discriminate | exact Hw].
Qed.

Lemma words_hashes (k : nat) (w : string) :
  is_word w ->
  words (repeat_char "#" (S k) ++ " " ++ w) = [repeat_char "#" (S k); w].
Proof.
  intros Hw. induction k as [|k IH].
  - change (repeat_char "#" 1 ++ " " ++ w)
      with (String "#" (String " " w)).
    cbn [words]. change (isspace "#") with false.
    change (isspace " ") with true. cbn iota. now rewrite (words_word w Hw).
  - change (repeat_char "#" (S (S k)) ++ " " ++ w)
      with (String "#" (repeat_char "#" (S k) ++ " " ++ w)).
    cbn [words]. change (isspace "#") with false. cbn iota.
    change (repeat_char "#" (S k) ++ " " ++ w)
      with (String "#" (repeat_char "#" k ++ " " ++ w)) at 1.
    cbn iota. change (isspace "#") with false. cbn iota.
    change (String "#" (repeat_char "#" k ++ " " ++ w))
      with (repeat_char "#" (S k) ++ " " ++ w).
    now rewrite IH.
Qed.

Lemma last_word_cleaned (k : nat) (w : string) :
  is_word w -> last_word (repeat_char "#" k ++ " " ++ w) = w.
Proof.
  intros Hw. unfold last_word. destruct k as [|k].
  - change (repeat_char "#" 0 ++ " " ++ w) with (String " " w).
    cbn [words]. change (isspace " ") with true. cbn iota.
    now rewrite (words_word w Hw).
  - now rewrite (words_hashes k w Hw).
Qed.

Lemma length_repeat_char (c : ascii) (k : nat) :
  String.length (repeat_char c k) = k.
Proof. induction k as [|k IH]; simpl; [reflexivity | now rewrite IH]. Qed.

Lemma count_repeat_char (c : ascii) (k : nat) :
  count_char c (repeat_char c k) = k.
Proof.
  induction k as [|k IH]; simpl; [reflexivity|].
  now rewrite Ascii.eqb_refl, IH.
Qed.

Lemma hash_count_cleaned (k : nat) (w : string) :
  hash_count (repeat_char "#" k ++ " " ++ w) = k.
Proof.
  unfold hash_count.
  assert (Hfind : find_nat (repeat_char "#" k ++ " " ++ w) " " = Some k).
  { induction k as [|k IH]; [reflexivity|].
    change (repeat_char "#" (S k) ++ " " ++ w)
      with (String "#" (repeat_char "#" k ++ " " ++ w)).
    cbn [find_nat startswith]. change (Ascii.eqb " " "#") with false.
    cbn [andb]. now rewrite IH. }
  rewrite Hfind.
  rewrite <- (length_repeat_char "#" k) at 1.
  rewrite take_append. apply count_repeat_char.
Qed.

Lemma clean_line_idempotent (pattern line : string) :
  clean_line pattern (clean_line pattern line) = clean_line pattern line.
Proof.
  destruct (is_heading_with pattern line) eqn:E.
  - assert (Hc : clean_line pattern line = cleaned_heading line)
      by (unfold clean_line; now rewrite E).
    rewrite Hc. unfold is_heading_with in E.
    apply andb_true_iff in E as [E _].
    destruct (last_item_words line E) as [_ Hw].
    unfold clean_line.
    destruct (is_heading_with pattern (cleaned_heading line));
      [|reflexivity].
    unfold cleaned_heading.
    now rewrite hash_count_cleaned, (last_word_cleaned _ _ Hw).
  - assert (Hc : clean_line pattern line = line)
      by (unfold clean_line; now rewrite E).
    now rewrite !Hc.
Qed.





(** X16: [clean_headings] is idempotent: applied to its own result with the
    same pattern, it returns that result. *)
Theorem clean_headings_idempotent (content pattern : string) :
  bind (clean_headings content pattern)
    (fun out => clean_headings out pattern)
  = clean_headings content pattern.
Proof.
  unfold clean_headings. rewrite clean_headings_loop_ok. cbn [bind].
  rewrite clean_headings_loop_ok. cbn [bind].
  rewrite clean_lines_split, map_map. do 2 f_equal.
  apply map_ext. intros line. apply clean_line_idempotent.
Qed.

(** ** add_tabs_tags *)

Section Tabs.

Variable lines : list string.

Lemma tabs_loop_inserts (todo : list string) : forall i g,
  deletes is_tabs_tag (tabs_loop lines i todo g) todo.
Proof.
  induction todo as [|line rest IH]; intros i g; cbn [tabs_loop];
    [constructor|].
  set (sg := startswith (strip line) "<TabItem"
             && negb (is_next_non_blank_line_tabitem lines i false)).
  set (eg := endswith (strip line) "</TabItem>"
             && negb (is_next_non_blank_line_tabitem lines i true)).
  destruct (sg && negb g); destruct (eg && (g || sg)); cbn [app].
  - apply deletes_drop; [now left|]. apply deletes_keep.
    apply deletes_drop; [now right | apply IH].
  - apply deletes_drop; [now left|]. apply deletes_keep, IH.
  - apply deletes_keep. apply deletes_drop; [now right | apply IH].
  - apply deletes_keep, IH.
Qed.

Lemma tabs_loop_Forall (Q : string -> Prop) (todo : list string) :
  Q "<Tabs>" -> Q "</Tabs>" -> Forall Q todo ->
  forall i g, Forall Q (tabs_loop lines i todo g).
Proof.
  intros Ho Hc. induction 1 as [|line rest Hline _ IH]; intros i g;
    cbn [tabs_loop]; [constructor|].
  set (sg := startswith (strip line) "<TabItem"
             && negb (is_next_non_blank_line_tabitem lines i false)).
  set (eg := endswith (strip line) "</TabItem>"
             && negb (is_next_non_blank_line_tabitem lines i true)).
  destruct (sg && negb g); destruct (eg && (g || sg)); cbn [app];
    repeat (constructor; try assumption); apply IH.
Qed.

(** The tags the loop adds are balanced up to the group that is open at the
    start or at the end. *)
Lemma tabs_loop_balance (todo : list string) : forall i g,
  let out := tabs_loop lines i todo g in
  exists opened closed,
    count_lines "<Tabs>" out = count_lines "<Tabs>" todo + opened
    /\ count_lines "</Tabs>" out = count_lines "</Tabs>" todo + closed
    /\ List.length out = List.length todo + opened + closed
    /\ (if g then closed = opened \/ closed = S opened
        else opened = closed \/ opened = S closed).
Proof.
  induction todo as [|line rest IH]; intros i g out; subst out;
    cbn [tabs_loop].
  - exists 0, 0. destruct g; repeat split; now left.
  - set (sg := startswith (strip line) "<TabItem"
               && negb (is_next_non_blank_line_tabitem lines i false)).
    set (eg := endswith (strip line) "</TabItem>"
               && negb (is_next_non_blank_line_tabitem lines i true)).
    destruct g; destruct sg; destruct eg; cbn [andb orb negb app];
      match goal with
      | |- context [tabs_loop lines (S i) rest ?g'] =>
          destruct (IH (S i) g') as (o & c & H1 & H2 & H3 & H4)
      end;
      cbn [count_lines List.length];
      change (String.eqb "<Tabs>" "<Tabs>") with true;
      change (String.eqb "</Tabs>" "</Tabs>") with true;
      change (String.eqb "<Tabs>" "</Tabs>") with false;
      change (String.eqb "</Tabs>" "<Tabs>") with false;
      rewrite H1, H2, H3.
    + exists o, (S c). repeat split; lia.
    + exists o, c. repeat split; lia.
    + exists o, (S c). repeat split; lia.
    + exists o, c. repeat split; lia.
    + exists (S o), (S c). repeat split; lia.
    + exists (S o), c. repeat split; lia.
    + exists o, c. repeat split; lia.
    + exists o, c. repeat split; lia.
Qed.

Lemma tabs_loop_without_items (todo : list string) :
  Forall (fun l => startswith (strip l) "<TabItem" = false) todo ->
  forall i, tabs_loop lines i todo false = todo.
Proof.
  induction 1 as [|line rest Hline _ IH]; intros i; cbn [tabs_loop];
    [reflexivity|].
  rewrite Hline. cbn [andb orb app]. rewrite andb_false_r. cbn [app].
  now rewrite IH.
Qed.

End Tabs.

(** X17: [add_tabs_tags] only inserts lines <Tabs> and </Tabs>: deleting
    inserted lines from its result gives the content back.  It inserts as
    many <Tabs> as </Tabs>, or one more (a group left open at the end), and
    a content without a line that, stripped, begins with <TabItem is
    returned unchanged. *)
Theorem add_tabs_tags_spec (content : string) :
  let lines := split content NL in
  let out := split (add_tabs_tags content) NL in
  deletes is_tabs_tag out lines
  /\ (exists opened closed,
         count_lines "<Tabs>" out = count_lines "<Tabs>" lines + opened
         /\ count_lines "</Tabs>" out = count_lines "</Tabs>" lines + closed
         /\ List.length out = List.length lines + opened + closed
         /\ (opened = closed \/ opened = S closed))
  /\ (Forall (fun l => startswith (strip l) "<TabItem" = false) lines ->
      add_tabs_tags content = content).
Proof.
  intros lines out.
  assert (Hout : out = tabs_loop lines 0 lines false).
  { subst out. unfold add_tabs_tags. fold lines. apply split_join.
    - pose proof (split_not_nil content NL) as Hne. fold lines in Hne.
      pose proof (tabs_loop_inserts lines lines 0 false) as Hd.
      intros E. rewrite E in Hd. inversion Hd; subst. congruence.
    - apply tabs_loop_Forall; try reflexivity. apply split_lines_no_nl. }
  rewrite Hout. split; [apply tabs_loop_inserts|]. split.
  - exact (tabs_loop_balance lines lines 0 false).
  - intros H. unfold add_tabs_tags. fold lines.
    rewrite tabs_loop_without_items by assumption. apply join_split.
Qed.

Lemma add_tabs_tags_spec_witness :
  add_tabs_tags (join NL [ "text"; "</TabItem>"; "more" ])
  = join NL [ "text"; "</TabItem>"; "more" ]
  /\ add_tabs_tags
       (join NL [ "<TabItem value=a>"; "x"; "</TabItem>"; "";
                  "<TabItem value=b>"; "y"; "</TabItem>"; "end" ])
     = join NL [ "<Tabs>"; "<TabItem value=a>"; "x"; "</TabItem>"; "";
                 "<TabItem value=b>"; "y"; "</TabItem>"; "</Tabs>"; "end" ].
Proof.
  split.
  - apply (proj2 (proj2 (add_tabs_tags_spec
             (join NL [ "text"; "</TabItem>"; "more" ])))).
    assert (E : split (join NL [ "text"; "</TabItem>"; "more" ]) NL
                = [ "text"; "</TabItem>"; "more" ])
      by (vm_compute; reflexivity).
    rewrite E.
    repeat (apply Forall_cons; [vm_compute; reflexivity|]).
    apply Forall_nil.
  - vm_compute. reflexivity.
Defined.

(** ** convert_details_to_tabitem *)

Section SubstitutionWithGroups.

Variables (r : regex) (repl : captures -> string).

Lemma sub_groups_from_skip (a b : string) :
  sub_groups_from r repl (String.length a) (a ++ b)
  = sub_groups_from r repl 0 b.
Proof.
  induction a as [|x a IH]; simpl; [|exact IH].
  now destruct b.
Qed.

Lemma sub_groups_from_match (mt rest : string) (cs : captures) :
  mt <> "" ->
  match_here r (mt ++ rest) = Some (mt, rest, cs) ->
  sub_groups_from r repl 0 (mt ++ rest)
  = repl cs ++ sub_groups_from r repl 0 rest.
Proof.
  intros Hne Hm. destruct mt as [|c mt]; [congruence|].
  change (String c mt ++ rest) with (String c (mt ++ rest)) in *.
  simpl sub_groups_from. rewrite Hm.
  replace (String.length (String c mt) - 1) with (String.length mt)
    by (simpl; lia).
  rewrite sub_groups_from_skip. reflexivity.
Qed.

Variable p : string.
Hypothesis starts_with_p :
  forall s, startswith s p = false -> match_here r s = None.

Lemma sub_groups_from_before (pre rest : string) :
  find_nat (pre ++ p) p = Some (String.length pre) ->
  sub_groups_from r repl 0 (pre ++ p ++ rest)
  = pre ++ sub_groups_from r repl 0 (p ++ rest).
Proof.
  induction pre as [|c pre IH]; intros H; [reflexivity|].
  apply find_nat_step in H as [Hs Hf].
  change (String c pre ++ p ++ rest) with (String c (pre ++ p ++ rest)).
  simpl sub_groups_from. rewrite starts_with_p.
  - rewrite IH by assumption. reflexivity.
  - change (String c (pre ++ p ++ rest)) with (String c pre ++ p ++ rest).
    rewrite <- append_assoc, startswith_app_long; [exact Hs|].
    rewrite length_append. lia.
Qed.

Lemma sub_groups_from_absent (s : string) :
  find_nat s p = None -> sub_groups_from r repl 0 s = s.
Proof.
  induction s as [|c s IH]; intros H; [reflexivity|].
  apply find_nat_none_step in H as [Hs Hf].
  simpl sub_groups_from. rewrite starts_with_p by assumption.
  now rewrite IH.
Qed.

End SubstitutionWithGroups.

(** A lazy star over the dot hands over to its continuation at the first
    place where the continuation can start. *)
Lemma star_lazy_first_cont (p : string) (k : cont) (post : string)
  (cs : captures) (x : string * captures) :
  (forall t cs', startswith t p = false -> k t cs' = None) ->
  k (p ++ post) cs = Some x ->
  forall mid n,
    find_nat (mid ++ p) p = Some (String.length mid) ->
    String.length mid <= n ->
    star_lazy (matches (Class any_char)) k n (mid ++ p ++ post) cs = Some x.
Proof.
  intros Hk Hx. induction mid as [|c mid IH]; intros n Hfind Hn.
  - rewrite star_lazy_unfold. simpl append. now rewrite Hx.
  - apply find_nat_step in Hfind as [Hs Hf].
    rewrite star_lazy_unfold. rewrite Hk.
    + destruct n as [|n]; [simpl in Hn; lia|].
      change (String c mid ++ p ++ post) with (String c (mid ++ p ++ post)).
      rewrite matches_Class. unfold any_char at 1.
      rewrite (proj2 (Nat.ltb_lt _ _)) by (simpl; lia).
      apply IH; [assumption | simpl in Hn; lia].
    + rewrite <- append_assoc, startswith_app_long; [exact Hs|].
      rewrite length_append. lia.
Qed.

Lemma details_re_needs_open (s : string) :
  startswith s details_open = false -> match_here details_re s = None.
Proof.
  intros H. unfold match_here, details_re.
  rewrite matches_Cat, matches_lit, H. reflexivity.
Qed.

(** The pattern matches from the opening text through the first closing
    text after it, and the group is what lies between. *)
Lemma details_re_match (summary post : string) :
  find_nat (summary ++ details_close) details_close
  = Some (String.length summary) ->
  match_here details_re
    ((details_open ++ summary ++ details_close) ++ post)
  = Some (details_open ++ summary ++ details_close, post, [(1, summary)]).
Proof.
  intros Hsum.
  set (mt := details_open ++ summary ++ details_close).
  assert (Hlen : String.length (mt ++ post) - String.length post
                 = String.length mt) by (rewrite length_append; lia).
  assert (Hm : matches details_re accept (mt ++ post) []
               = Some (post, [(1, summary)])).
  { unfold details_re. rewrite matches_Cat, matches_lit.
    assert (E : mt ++ post
                = details_open ++ summary ++ details_close ++ post)
      by (subst mt; now rewrite !append_assoc).
    rewrite E, startswith_append, drop_append.
    rewrite matches_Cat, matches_Group, matches_LazyStar.
    apply (star_lazy_first_cont details_close).
    - intros t cs' Ht. now rewrite matches_lit, Ht.
    - rewrite matches_lit, startswith_append, drop_append.
      unfold accept.
      replace (String.length (summary ++ details_close ++ post)
               - String.length (details_close ++ post))
        with (String.length summary)
        by (rewrite !length_append; lia).
      now rewrite take_append.
    - assumption.
    - rewrite length_append. lia. }
  unfold match_here. rewrite Hm, Hlen, take_append. reflexivity.
Qed.

(** X18: in a content whose first <details><summary> is at the end of
    [pre], [convert_details_to_tabitem] replaces that text, the summary
    after it and the first closing text </summary>, line feed, <p> by the
    opening TabItem tag with the summary as value and as label, keeps
    [pre], and treats what follows the closing text the same way; a content
    without <details><summary> is returned unchanged. *)
Theorem convert_details_to_tabitem_spec :
  (forall pre summary post : string,
      find_nat (pre ++ details_open) details_open
      = Some (String.length pre) ->
      find_nat (summary ++ details_close) details_close
      = Some (String.length summary) ->
      convert_details_to_tabitem
        (pre ++ details_open ++ summary ++ details_close ++ post)
      = pre ++ tabitem_open summary ++ convert_details_to_tabitem post)
  /\ (forall content : string,
         contains content details_open = false ->
         convert_details_to_tabitem content = content).
Proof.
  split.
  - intros pre summary post Hpre Hsum. unfold convert_details_to_tabitem.
    rewrite (sub_groups_from_before details_re _ details_open
               details_re_needs_open) by assumption.
    replace (details_open ++ summary ++ details_close ++ post)
      with ((details_open ++ summary ++ details_close) ++ post)
      by now rewrite !append_assoc.
    rewrite (sub_groups_from_match details_re _ _ post [(1, summary)]);
      [reflexivity | discriminate | now apply details_re_match].
  - intros content H. unfold convert_details_to_tabitem.
    apply (sub_groups_from_absent details_re _ details_open
             details_re_needs_open).
    now apply contains_false.
Qed.

Lemma convert_details_to_tabitem_spec_witness :
  convert_details_to_tabitem
    ("intro " ++ details_open ++ "Example" ++ details_close ++ " body")
  = "intro " ++ tabitem_open "Example" ++ " body"
  /\ convert_details_to_tabitem "<details>plain</details>"
     = "<details>plain</details>".
Proof.
  destruct convert_details_to_tabitem_spec as (Hconv & Hnone).
  split.
  - etransitivity.
    + exact (Hconv "intro " "Example" " body" eq_refl eq_refl).
    + vm_compute. reflexivity.
  - exact (Hnone "<details>plain</details>" eq_refl).
Defined.

(** ** The pattern stripper *)

Lemma replace_from_same (old : string) (s : string) :
  old <> "" ->
  forall skip,
    skip <= String.length s ->
    replace_from old old skip s = drop skip s.
Proof.
  intros Hold. induction s as [|c s IH]; intros skip Hskip.
  - simpl in Hskip. now replace skip with 0 by lia.
  - destruct skip as [|n].
    + cbn [replace_from drop].
      destruct (startswith (String c s) old) eqn:E.
      * pose proof (startswith_length old _ E) as Hlen.
        pose proof (startswith_split old _ E) as Hcut.
        destruct old as [|o old']; [congruence|].
        simpl in Hlen. rewrite IH by (simpl; lia).
        etransitivity; [|symmetry; exact Hcut].
        simpl. now rewrite Nat.sub_0_r.
      * now rewrite IH by lia.
    + cbn [replace_from drop]. apply IH. simpl in Hskip. lia.
Qed.

Lemma str_replace_same (s old : string) :
  old <> "" -> str_replace s old old = s.
Proof.
  intros H. unfold str_replace.
  now rewrite replace_from_same by (lia || exact H).
Qed.

Lemma str_replace_absent (s old new : string) :
  contains s old = false -> str_replace s old new = s.
Proof.
  intros H. apply contains_false in H. unfold str_replace.
  induction s as [|c s IH]; [reflexivity|].
  apply find_nat_none_step in H as [Hs Hf].
  cbn [replace_from]. now rewrite Hs, IH.
Qed.

(** X19: in [replace_pattern] (with non-empty strings to find), a pair
    whose two strings are equal changes nothing, so the result is that of
    the other pairs alone; and when none of the strings to find occurs in
    the content, the content is returned unchanged. *)
Theorem replace_pattern_spec (content : string)
  (replacements : list (string * string)) :
  (Forall (fun fr => fst fr <> "") replacements ->
   replace_pattern content
     (filter (fun fr => negb (is_identity_pair fr)) replacements)
   = replace_pattern content replacements)
  /\ (Forall (fun fr => contains content (fst fr) = false) replacements ->
      replace_pattern content replacements = content).
Proof.
  split.
  - intros Hne. revert content.
    induction Hne as [|[f r] rest Hf _ IH]; intros content; [reflexivity|].
    cbn [filter]. unfold is_identity_pair at 1. cbn [fst snd].
    destruct (String.eqb_spec f r) as [<- | Hfr]; cbn [negb replace_pattern].
    + rewrite str_replace_same by exact Hf. apply IH.
    + apply IH.
  - induction 1 as [|[f r] rest Hf _ IH]; [reflexivity|].
    cbn [replace_pattern]. simpl in Hf. rewrite str_replace_absent by exact Hf.
    exact IH.
Qed.

Lemma replace_pattern_spec_witness :
  replace_pattern "### Notes and #### Output"
    [ ("#### Output", "#### Output"); ("### Methods", "#### Methods") ]
  = "### Notes and #### Output".
Proof.
  etransitivity.
  - symmetry.
    apply (proj1 (replace_pattern_spec "### Notes and #### Output"
                    [ ("#### Output", "#### Output");
                      ("### Methods", "#### Methods") ])).
    repeat (apply Forall_cons; [discriminate|]). apply Forall_nil.
  - apply (proj2 (replace_pattern_spec "### Notes and #### Output"
                    [ ("### Methods", "#### Methods") ])).
    apply Forall_cons; [vm_compute; reflexivity | apply Forall_nil].
Defined.

Lemma pattern_re_needs_first_part (part : string) (rest : list string)
  (s : string) :
  startswith s part = false ->
  match_here (pattern_re (part :: rest)) s = None.
Proof.
  intros H. unfold match_here. cbn [pattern_re].
  destruct rest; [|rewrite matches_Cat]; now rewrite matches_lit, H.
Qed.

Lemma remove_first_absent (pattern : list string) (s : string) :
  first_part_absent s pattern -> remove_first (pattern_re pattern) s = s.
Proof.
  destruct pattern as [|part rest].
  - intros _. destruct s; reflexivity.
  - cbn [first_part_absent]. intros H. apply contains_false in H.
    induction s as [|c s IH].
    + cbn [remove_first]. rewrite pattern_re_needs_first_part;
        [reflexivity|].
      simpl in H. now destruct (startswith "" part).
    + apply find_nat_none_step in H as [Hs Hf].
      cbn [remove_first]. rewrite pattern_re_needs_first_part by assumption.
      now rewrite IH.
Qed.

Lemma remove_first_literal (p s : string) :
  remove_first (lit p) s = replace_first s p "".
Proof.
  unfold replace_first. induction s as [|c s IH].
  - cbn [remove_first]. unfold match_here. rewrite matches_lit.
    cbn [find_nat]. destruct (startswith "" p) eqn:E; [|reflexivity].
    unfold accept. now destruct p.
  - cbn [remove_first find_nat]. unfold match_here at 1.
    rewrite matches_lit.
    destruct (startswith (String c s) p) eqn:E.
    + unfold accept. reflexivity.
    + rewrite IH. destruct (find_nat s p) as [i|]; reflexivity.
Qed.

(** X20: in [remove_pattern], an entry whose first part does not occur in
    the content changes nothing (so a content that holds none of the first
    parts is returned unchanged), and an entry of one part deletes the
    first occurrence of that part. *)
Theorem remove_pattern_spec (content : string) :
  (forall patterns,
      Forall (first_part_absent content) patterns ->
      remove_pattern content patterns = content)
  /\ (forall part,
         remove_pattern content [[part]] = replace_first content part "").
Proof.
  split.
  - induction 1 as [|pattern rest Hp _ IH]; [reflexivity|].
    cbn [remove_pattern]. rewrite remove_first_absent by exact Hp. exact IH.
  - intros part. cbn [remove_pattern pattern_re]. apply remove_first_literal.
Qed.

Lemma remove_pattern_spec_witness :
  remove_pattern "Some text" [ ["# client"]; ["```go"; "import"] ]
  = "Some text"
  /\ remove_pattern "# client and # client" [ ["# client"] ]
     = " and # client".
Proof.
  split.
  - apply (proj1 (remove_pattern_spec "Some text")).
    repeat (apply Forall_cons; [vm_compute; reflexivity|]). apply Forall_nil.
  - etransitivity.
    + exact (proj2 (remove_pattern_spec "# client and # client") "# client").
    + vm_compute. reflexivity.
Defined.

(** ** process_header_blocks *)

Section SplitOnChar.

Variable c : ascii.
Let sep : string := String c "".

Lemma split_char_cons (a : ascii) (s : string) :
  split (String a s) sep =
  if Ascii.eqb c a then "" :: split s sep
  else match split s sep with
       | p :: ps => String a p :: ps
       | [] => [String a ""]
       end.
Proof.
  unfold split, sep. simpl. rewrite andb_true_r. reflexivity.
Qed.

Lemma join_char_cons (x : string) (l : list string) :
  l <> [] -> join sep (x :: l) = x ++ sep ++ join sep l.
Proof. destruct l; [congruence | reflexivity]. Qed.

Lemma join_split_char (s : string) : join sep (split s sep) = s.
Proof.
  induction s as [|a s IH]; [reflexivity|].
  rewrite split_char_cons.
  destruct (Ascii.eqb_spec c a) as [<-|Hc].
  - rewrite join_char_cons by apply split_not_nil. now rewrite IH.
  - pose proof (split_not_nil s sep) as Hne.
    destruct (split s sep) as [|p ps]; [congruence|].
    destruct ps as [|q ps].
    + simpl in *. now rewrite IH.
    + rewrite join_char_cons in IH by discriminate.
      rewrite join_char_cons by discriminate. simpl. now rewrite <- IH.
Qed.

Lemma split_char_then (p rest : string) :
  has_char c p = false ->
  split (p ++ sep ++ rest) sep = p :: split rest sep.
Proof.
  induction p as [|a p IH]; intros Hp.
  - simpl append. unfold sep at 1. change (String c "" ++ rest)
      with (String c rest).
    rewrite split_char_cons, Ascii.eqb_refl. reflexivity.
  - simpl in Hp. apply orb_false_iff in Hp as [Ha Hp].
    change (String a p ++ sep ++ rest) with (String a (p ++ sep ++ rest)).
    rewrite split_char_cons, Ascii.eqb_sym, Ha, IH by assumption.
    reflexivity.
Qed.

End SplitOnChar.

Lemma find_nat_char_after (c : ascii) (a rest : string) :
  has_char c a = false ->
  find_nat (a ++ String c rest) (String c "") = Some (String.length a).
Proof.
  induction a as [|x a IH]; intros H.
  - simpl. now rewrite Ascii.eqb_refl.
  - simpl in H. apply orb_false_iff in H as [Hx Ha].
    change (String x a ++ String c rest) with (String x (a ++ String c rest)).
    cbn [find_nat startswith]. rewrite Ascii.eqb_sym, Hx. cbn [andb].
    now rewrite IH.
Qed.

(** What becomes of a list line "- key: description". *)
Lemma reformat_header_line_key (key desc : string) :
  has_char ":" key = false ->
  has_char "`" key = false ->
  reformat_header_line ("- " ++ key ++ ":" ++ desc)
  = "- `" ++ remove_char bslash key ++ "`" ++ NL ++ NL ++ " " ++ desc ++ NL.
Proof.
  intros Hcolon Htick. unfold reformat_header_line.
  assert (E1 : replace_first ("- " ++ key ++ ":" ++ desc) "- " "- `"
               = "- `" ++ key ++ ":" ++ desc) by reflexivity.
  rewrite E1.
  assert (E2 : replace_first ("- `" ++ key ++ ":" ++ desc) ":"
                 ("`" ++ NL ++ NL ++ " ")
               = "- " ++ "`" ++ key ++ "`" ++ NL ++ NL ++ " " ++ desc).
  { unfold replace_first.
    replace ("- `" ++ key ++ ":" ++ desc)
      with (("- `" ++ key) ++ String ":" desc)
      by now rewrite append_assoc.
    rewrite find_nat_char_after by exact Hcolon.
    rewrite take_append.
    replace (String.length ("- `" ++ key) + String.length ":")
      with (String.length (("- `" ++ key) ++ ":"))
      by (rewrite length_append; reflexivity).
    replace (("- `" ++ key) ++ String ":" desc)
      with ((("- `" ++ key) ++ ":") ++ desc)
      by now rewrite append_assoc.
    rewrite drop_append. simpl. now rewrite ?append_assoc. }
  rewrite E2.
  rewrite (split_char_then "`" "- ") by reflexivity.
  rewrite (split_char_then "`" key) by exact Htick.
  pose proof (split_not_nil (NL ++ NL ++ " " ++ desc) "`") as Hne.
  pose proof (join_split_char "`" (NL ++ NL ++ " " ++ desc)) as Hjoin.
  destruct (split (NL ++ NL ++ " " ++ desc) "`") as [|p2 rest];
    [congruence|].
  rewrite (join_char_cons "`") by discriminate.
  rewrite (join_char_cons "`") by discriminate.
  rewrite Hjoin. simpl. now rewrite ?append_assoc.
Qed.

Lemma header_loop_outside (blocks : list string) (lines : list string) :
  Forall (fun l => mem (strip l) blocks = false) lines ->
  forall found, header_loop blocks lines false found = lines.
Proof.
  induction 1 as [|line lines Hline _ IH]; intros found;
    cbn [header_loop]; [reflexivity|].
  now rewrite Hline, IH.
Qed.

Lemma header_loop_lines (blocks : list string) (lines : list string) :
  forall processing found,
    Forall2 (fun line out =>
               out = line
               \/ (startswith line "-" = true
                   /\ out = reformat_header_line line))
      lines (header_loop blocks lines processing found).
Proof.
  induction lines as [|line rest IH]; intros processing found;
    cbn [header_loop]; [constructor|].
  destruct (mem (strip line) blocks); [constructor; [now left | apply IH]|].
  destruct processing; [|constructor; [now left | apply IH]].
  destruct (negb found && String.eqb (strip line) "");
    [constructor; [now left | apply IH]|].
  destruct (negb found && negb (startswith line "-"));
    [constructor; [now left | apply IH]|].
  destruct (startswith line "-") eqn:E; constructor;
    solve [now left | now right | apply IH].
Qed.

Lemma rstrip_cons (c : ascii) (s : string) :
  rstrip (String c s)
  = match rstrip s with
    | "" => if isspace c then "" else String c ""
    | r => String c r
    end.
Proof. reflexivity. Qed.

Lemma strip_dash_not_empty (line : string) :
  startswith line "-" = true -> String.eqb (strip line) "" = false.
Proof.
  destruct line as [|c line]; [discriminate|]. intros H.
  apply startswith_head in H. subst c.
  unfold strip. cbn [lstrip]. change (isspace "-") with false. cbv iota.
  rewrite rstrip_cons. now destruct (rstrip line).
Qed.

Section HeaderBlock.

Variable blocks : list string.

Lemma header_loop_before (before rest : list string) :
  Forall (fun l => mem (strip l) blocks = false) before ->
  forall found,
    header_loop blocks (before ++ rest) false found
    = (before ++ header_loop blocks rest false found)%list.
Proof.
  induction 1 as [|line lines Hline _ IH]; intros found; [reflexivity|].
  cbn [app header_loop]. now rewrite Hline, IH.
Qed.

Lemma header_loop_heading (heading : string) (rest : list string)
  (processing found : bool) :
  mem (strip heading) blocks = true ->
  header_loop blocks (heading :: rest) processing found
  = heading :: header_loop blocks rest true false.
Proof. intros H. cbn [header_loop]. now rewrite H. Qed.

(** Before the first list line of a block, the lines that begin with no
    dash are kept. *)
Lemma header_loop_gap (gap rest : list string) :
  Forall (fun l => mem (strip l) blocks = false
                   /\ startswith l "-" = false) gap ->
  header_loop blocks (gap ++ rest) true false
  = (gap ++ header_loop blocks rest true false)%list.
Proof.
  induction 1 as [|line lines [Hm Hd] _ IH]; [reflexivity|].
  cbn [app header_loop]. rewrite Hm, Hd, IH. cbn [negb andb].
  now destruct (String.eqb (strip line) "").
Qed.

Lemma header_loop_item (item : string) (rest : list string) (found : bool) :
  mem (strip item) blocks = false ->
  startswith item "-" = true ->
  header_loop blocks (item :: rest) true found
  = reformat_header_line item :: header_loop blocks rest true true.
Proof.
  intros Hm Hd. cbn [header_loop].
  rewrite Hm, Hd, (strip_dash_not_empty item Hd).
  cbn [negb andb]. now rewrite !andb_false_r.
Qed.

(** The list lines of a block are rewritten one after the other. *)
Lemma header_loop_items (items rest : list string) :
  Forall (fun l => mem (strip l) blocks = false
                   /\ startswith l "-" = true) items ->
  header_loop blocks (items ++ rest) true true
  = (map reformat_header_line items
     ++ header_loop blocks rest true true)%list.
Proof.
  induction 1 as [|item items [Hm Hd] _ IH]; [reflexivity|].
  cbn [app map]. now rewrite header_loop_item, IH.
Qed.

(** The first line that is no list line ends the block. *)
Lemma header_loop_end (after : list string) :
  Forall (fun l => mem (strip l) blocks = false) after ->
  match after with
  | [] => True
  | stop :: _ => startswith stop "-" = false
  end ->
  header_loop blocks after true true = after.
Proof.
  intros Ha Hstop. destruct after as [|stop rest]; [reflexivity|].
  apply Forall_cons_iff in Ha as [Hm Hrest].
  cbn [header_loop]. rewrite Hm, Hstop. cbn [negb andb].
  now rewrite header_loop_outside.
Qed.

End HeaderBlock.

(** X21: [process_header_blocks] changes nothing outside a header block: a
    content in which no line, stripped, is one of the headings is returned
    unchanged.  In a content with one heading, the lines after the heading
    that begin with no dash are kept, the list lines (lines that begin with
    a dash) that follow are each rewritten, up to the first line that is
    no list line, and the rest is kept.  The rewriting of a list line
    "- key: description" whose key holds neither a colon nor a backtick
    gives the key in backticks without its backslashes, an empty line, and
    the description behind a space, followed by a line feed.  In every
    content, the pass makes one element of each line, which is the line
    itself or, for a line that begins with a dash, the rewritten line. *)
Theorem process_header_blocks_spec (content : string)
  (blocks_to_process : list string) :
  Forall2 (fun line out =>
             out = line
             \/ (startswith line "-" = true
                 /\ out = reformat_header_line line))
    (split content NL)
    (header_loop blocks_to_process (split content NL) false false)
  /\ (Forall (fun l => mem (strip l) blocks_to_process = false)
        (split content NL) ->
      process_header_blocks content blocks_to_process = content)
  /\ (forall before heading gap item items after,
         split content NL
         = (before ++ heading :: gap ++ (item :: items) ++ after)%list ->
         Forall (fun l => mem (strip l) blocks_to_process = false) before ->
         mem (strip heading) blocks_to_process = true ->
         Forall (fun l => mem (strip l) blocks_to_process = false
                          /\ startswith l "-" = false) gap ->
         Forall (fun l => mem (strip l) blocks_to_process = false
                          /\ startswith l "-" = true) (item :: items) ->
         Forall (fun l => mem (strip l) blocks_to_process = false) after ->
         match after with
         | [] => True
         | stop :: _ => startswith stop "-" = false
         end ->
         process_header_blocks content blocks_to_process
         = join NL (before ++ heading :: gap
                    ++ map reformat_header_line (item :: items)
                    ++ after)%list)
  /\ (forall key desc,
         has_char ":" key = false ->
         has_char "`" key = false ->
         reformat_header_line ("- " ++ key ++ ":" ++ desc)
         = "- `" ++ remove_char bslash key ++ "`" ++ NL ++ NL ++ " " ++ desc
           ++ NL).
Proof.
  split; [apply header_loop_lines|]. split; [|split].
  - intros H. unfold process_header_blocks.
    rewrite header_loop_outside by assumption. apply join_split.
  - intros before heading gap item items after E Hb Hh Hg Hi Ha Hstop.
    unfold process_header_blocks. rewrite E. f_equal.
    rewrite header_loop_before by exact Hb.
    rewrite header_loop_heading by exact Hh.
    rewrite header_loop_gap by exact Hg.
    apply Forall_cons_iff in Hi as [[Hm Hd] Hi].
    cbn [app map]. rewrite header_loop_item by assumption.
    rewrite header_loop_items by exact Hi.
    now rewrite header_loop_end.
  - apply reformat_header_line_key.
Qed.

Lemma process_header_blocks_spec_witness :
  process_header_blocks
    (join NL [ "intro"; "#### Parameters"; "";
               "- ctx context\.Context: the ctx"; "- n: a count"; "";
               "text" ])
    ["#### Parameters"]
  = join NL [ "intro"; "#### Parameters"; "";
              "- `ctx context.Context`" ++ NL ++ NL ++ "  the ctx" ++ NL;
              "- `n`" ++ NL ++ NL ++ "  a count" ++ NL; ""; "text" ]
  /\ reformat_header_line
       ("- " ++ "ctx context\.Context" ++ ":" ++ " the ctx")
     = "- `" ++ "ctx context.Context" ++ "`" ++ NL ++ NL ++ " " ++ " the ctx"
       ++ NL.
Proof.
  destruct (process_header_blocks_spec
              (join NL [ "intro"; "#### Parameters"; "";
                         "- ctx context\.Context: the ctx"; "- n: a count";
                         ""; "text" ])
              ["#### Parameters"]) as (_ & _ & Hblock & Hkey).
  split.
  - rewrite (Hblock ["intro"] "#### Parameters" [""]
               "- ctx context\.Context: the ctx" ["- n: a count"]
               [""; "text"]).
    + vm_compute. reflexivity.
    + vm_compute. reflexivity.
    + repeat (apply Forall_cons; [vm_compute; reflexivity|]).
      apply Forall_nil.
    + vm_compute. reflexivity.
    + repeat (apply Forall_cons; [split; vm_compute; reflexivity|]).
      apply Forall_nil.
    + repeat (apply Forall_cons; [split; vm_compute; reflexivity|]).
      apply Forall_nil.
    + repeat (apply Forall_cons; [vm_compute; reflexivity|]).
      apply Forall_nil.
    + vm_compute. reflexivity.
  - exact (Hkey "ctx context\.Context" " the ctx" eq_refl eq_refl).
Defined.

(** ** remove_output_blocks is idempotent *)

Section FirstOccurrence.

Variable p : string.

(** Up to its first occurrence, a text has no other occurrence. *)
Lemma find_nat_take (s : string) : forall i,
  find_nat s p = Some i ->
  find_nat (take i s ++ p) p = Some (String.length (take i s))
  /\ String.length (take i s) = i.
Proof.
  induction s as [|c s IH]; intros i H.
  - simpl in H. destruct (startswith "" p) eqn:E; [|discriminate].
    injection H as <-. destruct p; [split; reflexivity | discriminate].
  - simpl in H. destruct (startswith (String c s) p) eqn:E.
    + injection H as <-. simpl take. simpl append.
      split; [|reflexivity].
      pose proof (startswith_append p "") as Hp. rewrite append_nil_r in Hp.
      destruct p; simpl; [reflexivity|]. simpl in Hp. now rewrite Hp.
    + destruct (find_nat s p) as [j|] eqn:Hj; [|discriminate].
      injection H as <-. destruct (IH j eq_refl) as [IH1 IH2].
      destruct (find_nat_sound p s j Hj) as [Hcut Hlen].
      simpl take. split; [|simpl; now rewrite IH2].
      change (String c (take j s) ++ p) with (String c (take j s ++ p)).
      cbn [find_nat].
      assert (Hs : startswith (String c (take j s ++ p)) p = false).
      { rewrite <- E. rewrite Hcut at 2.
        change (String c (take j s ++ p ++ drop (j + String.length p) s))
          with (String c (take j s) ++ p ++ drop (j + String.length p) s).
        rewrite <- append_assoc. symmetry.
        apply startswith_app_long.
        simpl. rewrite length_append. lia. }
      rewrite Hs, IH1. simpl. now rewrite IH2.
Qed.

Lemma find_nat_first_all (pre : string) :
  find_nat (pre ++ p) p = Some (String.length pre) ->
  forall k, k < String.length pre ->
            startswith (drop k pre ++ p) p = false.
Proof.
  induction pre as [|c pre IH]; intros H k Hk; [simpl in Hk; lia|].
  apply find_nat_step in H as [Hs Hf].
  destruct k as [|k]; [exact Hs|].
  simpl drop. apply IH; [assumption | simpl in Hk; lia].
Qed.

(** A text that breaks off with a character foreign to [p] before [p] is
    complete does not start with [p]. *)
Lemma startswith_blocked (c : ascii) (t u : string) :
  has_char c p = false ->
  String.length t < String.length p ->
  startswith (t ++ String c u) p = false.
Proof.
  revert t. induction p as [|a q IH]; intros t Hc Hlen;
    [simpl in Hlen; lia|].
  simpl in Hc. apply orb_false_iff in Hc as [Ha Hq].
  destruct t as [|x t].
  - simpl. now rewrite Ha.
  - simpl. rewrite IH; [apply andb_false_r | assumption |].
    simpl in Hlen. lia.
Qed.

End FirstOccurrence.

Section Unmatched.

Variables (r : regex) (repl : string -> string) (p : string).
Hypothesis starts_with_p :
  forall s, startswith s p = false -> match_here r s = None.

(** Nothing is replaced in a part of the text where no match can start. *)
Lemma sub_from_unmatched (a b : string) :
  (forall k, k < String.length a ->
             startswith (drop k a ++ b) p = false) ->
  sub_from r repl 0 (a ++ b) = a ++ sub_from r repl 0 b.
Proof.
  induction a as [|c a IH]; intros H; [reflexivity|].
  change (String c a ++ b) with (String c (a ++ b)).
  cbn [sub_from]. rewrite starts_with_p.
  - rewrite IH; [reflexivity|].
    intros k Hk. apply (H (S k)). simpl. lia.
  - apply (H 0). simpl. lia.
Qed.

End Unmatched.

Lemma drop_append_le (a b : string) : forall k,
  k <= String.length a -> drop k (a ++ b) = drop k a ++ b.
Proof. intros k H. now apply drop_app_le. Qed.

Lemma drop_append_ge (a b : string) : forall k,
  String.length a <= k -> drop k (a ++ b) = drop (k - String.length a) b.
Proof.
  induction a as [|c a IH]; intros k H.
  - simpl. now rewrite Nat.sub_0_r.
  - destruct k as [|k]; [simpl in H; lia|]. simpl. apply IH.
    simpl in H. lia.
Qed.

(** No span starts in the part of a result that a first pass has already
    treated. *)
Lemma no_marker_before_fence (pre rest : string) :
  find_nat (pre ++ output_marker) output_marker = Some (String.length pre) ->
  forall k, k < String.length (pre ++ fence) ->
            startswith (drop k (pre ++ fence) ++ rest) output_marker = false.
Proof.
  intros Hpre k Hk. rewrite length_append in Hk.
  destruct (Nat.lt_ge_cases k (String.length pre)) as [Hlt | Hge].
  - rewrite drop_append_le by lia.
    pose proof (find_nat_first_all output_marker pre Hpre k Hlt) as Hs.
    set (t := drop k pre) in *.
    destruct (Nat.lt_ge_cases (String.length t) (String.length output_marker))
      as [Hshort | Hlong].
    + rewrite append_assoc.
      change (fence ++ rest) with (String "`" ("``" ++ rest)).
      apply startswith_blocked; [reflexivity | exact Hshort].
    + rewrite append_assoc, startswith_app_long by exact Hlong.
      rewrite <- Hs. symmetry. now apply startswith_app_long.
  - rewrite drop_append_ge by lia.
    assert (Hk' : k - String.length pre < 3) by (simpl in Hk; lia).
    destruct (k - String.length pre) as [|[|[|n]]]; try lia; reflexivity.
Qed.

Lemma remove_output_blocks_idem_len (n : nat) : forall s,
  String.length s <= n ->
  remove_output_blocks (remove_output_blocks s) = remove_output_blocks s.
Proof.
  induction n as [|n IH]; intros s Hn.
  - destruct s; [reflexivity | simpl in Hn; lia].
  - destruct (find_nat s output_marker) as [i|] eqn:Hfind.
    + destruct (find_nat_sound output_marker s i Hfind) as [Hcut Hlen].
      destruct (find_nat_take output_marker s i Hfind) as [Hpre Hi].
      set (pre := take i s) in *.
      set (rest := drop (i + String.length output_marker) s) in *.
      destruct (find_nat rest fence) as [j|] eqn:Hfence.
      * destruct (find_nat_sound fence rest j Hfence) as [Hcut2 Hlen2].
        destruct (find_nat_take fence rest j Hfence) as [Hmid Hj].
        set (mid := take j rest) in *.
        set (post := drop (j + String.length fence) rest) in *.
        assert (Hstep : remove_output_blocks s
                        = pre ++ fence ++ remove_output_blocks post).
        { rewrite Hcut, Hcut2.
          unfold remove_output_blocks, sub.
          rewrite (sub_from_before output_re _ output_marker
                     output_re_needs_marker) by exact Hpre.
          replace (output_marker ++ mid ++ fence ++ post)
            with ((output_marker ++ mid ++ fence) ++ post)
            by now rewrite !append_assoc.
          rewrite (sub_from_match output_re _ _ post []);
            [reflexivity | discriminate | now apply output_re_match]. }
        rewrite Hstep.
        assert (Hpost : String.length post <= n).
        { assert (String.length s
                  = String.length pre + String.length output_marker
                    + (String.length mid + String.length fence
                       + String.length post)).
          { rewrite Hcut at 1. rewrite Hcut2 at 1.
            rewrite !length_append. lia. }
          simpl in *. lia. }
        unfold remove_output_blocks at 1. unfold sub.
        rewrite <- append_assoc.
        rewrite (sub_from_unmatched output_re _ output_marker
                   output_re_needs_marker (pre ++ fence)).
        -- fold (sub output_re (fun _ => fence)
                   (remove_output_blocks post)).
           fold (remove_output_blocks (remove_output_blocks post)).
           rewrite (IH post Hpost). now rewrite append_assoc.
        -- apply no_marker_before_fence. exact Hpre.
      * assert (Hsame : remove_output_blocks s = s).
        { rewrite Hcut. unfold remove_output_blocks, sub.
          rewrite (sub_from_before output_re _ output_marker
                     output_re_needs_marker) by exact Hpre.
          f_equal. apply remove_without_fence.
          unfold output_marker. simpl. now rewrite Hfence. }
        now rewrite !Hsame.
    + assert (Hsame : remove_output_blocks s = s).
      { unfold remove_output_blocks, sub.
        now apply (sub_from_absent output_re _ output_marker
                     output_re_needs_marker). }
      now rewrite !Hsame.
Qed.

(** X22: [remove_output_blocks] is idempotent: applied to its own result,
    it returns that result. *)
Theorem remove_output_blocks_idempotent (content : string) :
  remove_output_blocks (remove_output_blocks content)
  = remove_output_blocks content.
Proof.
  apply (remove_output_blocks_idem_len (String.length content)). lia.
Qed.

(** ** add_anchor_tags *)

Lemma anchor_loop_outside (sections lines todo : list string) :
  Forall (fun l => mem (strip l) sections = false) todo ->
  forall matched found,
    anchor_loop sections lines todo false matched found = Ok todo.
Proof.
  induction 1 as [|line todo Hline _ IH]; intros matched found;
    cbn [anchor_loop]; [reflexivity|].
  now rewrite Hline, IH.
Qed.


(** *** add_anchor_tags raises nothing *)

Lemma words_lstrip (s : string) : words (lstrip s) = words s.
Proof.
  induction s as [|c s IH]; [reflexivity|].
  cbn [lstrip]. destruct (isspace c) eqn:Hc; [|reflexivity].
  cbn [words]. now rewrite Hc.
Qed.

Lemma words_nil_rstrip (s : string) : words s = [] -> rstrip s = "".
Proof.
  induction s as [|c s IH]; [reflexivity|]. cbn [words rstrip].
  destruct (isspace c).
  - intros H. now rewrite (IH H).
  - destruct s as [|c' s']; [discriminate|].
    destruct (isspace c'); [discriminate|].
    destruct (words (String c' s')); discriminate.
Qed.

Lemma rstrip_head (c : ascii) (s : string) (r0 : ascii) (r : string) :
  rstrip (String c s) = String r0 r -> r0 = c.
Proof.
  cbn [rstrip]. destruct (rstrip s).
  - destruct (isspace c); [discriminate | congruence].
  - congruence.
Qed.

Lemma rstrip_nil_words (s : string) : rstrip s = "" -> words s = [].
Proof.
  induction s as [|c s IH]; [reflexivity|]. cbn [rstrip words].
  destruct (rstrip s) eqn:E; [|discriminate].
  destruct (isspace c); [intros _; now apply IH | discriminate].
Qed.

Lemma words_rstrip (s : string) : words (rstrip s) = words s.
Proof.
  induction s as [|c s IH]; [reflexivity|].
  destruct (rstrip s) as [|r0 r] eqn:E.
  - pose proof (rstrip_nil_words s E) as Hw.
    cbn [rstrip]. rewrite E. cbn [words].
    destruct (isspace c) eqn:Hc; [now rewrite Hw|].
    cbn [words]. rewrite Hc.
    destruct s as [|c' s']; [reflexivity|].
    destruct (isspace c') eqn:Hc'; [now rewrite Hw|].
    exfalso. cbn [words] in Hw. rewrite Hc' in Hw.
    destruct s' as [|c'' s'']; [discriminate|].
    destruct (isspace c''); [discriminate|].
    destruct (words (String c'' s'')); discriminate.
  - assert (Hr : rstrip (String c s) = String c (String r0 r))
      by (cbn [rstrip]; now rewrite E).
    rewrite Hr. destruct s as [|c' s']; [discriminate|].
    pose proof (rstrip_head c' s' r0 r E) as ->.
    cbn [words]. cbn [words] in IH.
    destruct (isspace c); [exact IH|].
    destruct (isspace c'); now rewrite IH.
Qed.

Lemma words_strip (s : string) : words (strip s) = words s.
Proof. unfold strip. now rewrite words_rstrip, words_lstrip. Qed.

Lemma rstrip_idempotent (s : string) : rstrip (rstrip s) = rstrip s.
Proof.
  induction s as [|c s IH]; [reflexivity|].
  rewrite (rstrip_cons c s).
  destruct (rstrip s) as [|r0 r] eqn:E.
  - destruct (isspace c) eqn:Hc; [reflexivity|].
    rewrite rstrip_cons. cbn [rstrip]. now rewrite Hc.
  - rewrite rstrip_cons, IH. reflexivity.
Qed.

(** A line that, stripped, begins with "type " has a second word. *)
Lemma type_line_second_word (line : string) :
  startswith (strip line) "type " = true ->
  exists w, nth_error (words line) 1 = Some w.
Proof.
  intros H. pose proof (startswith_split "type " _ H) as Hcut.
  set (r := drop (String.length "type ") (strip line)) in *.
  rewrite <- words_strip, Hcut.
  change (words ("type " ++ r)) with ("type" :: words (String " " r)).
  change (words (String " " r)) with (words r).
  destruct (words r) as [|w ws] eqn:Hw; [|now exists w].
  exfalso. apply words_nil_rstrip in Hw.
  assert (Hid : rstrip (strip line) = strip line)
    by (unfold strip; apply rstrip_idempotent).
  rewrite Hcut in Hid.
  change (rstrip ("type " ++ r))
    with (rstrip (String "t" (String "y" (String "p" (String "e"
            (String " " r)))))) in Hid.
  cbn [rstrip] in Hid. rewrite Hw in Hid.
  change (isspace " ") with true in Hid. cbn iota in Hid.
  change (isspace "e") with false in Hid. cbn iota in Hid.
  discriminate.
Qed.

Lemma find_type_word_ok (previous : list string) :
  exists w, find_type_word previous = Ok w.
Proof.
  induction previous as [|l rest IH]; [now exists ""|].
  cbn [find_type_word].
  destruct (startswith (strip l) "type ") eqn:E; [|exact IH].
  destruct (type_line_second_word l E) as [w ->]. now exists w.
Qed.

Lemma anchor_loop_ok (sections lines todo : list string) :
  forall processing matched found,
    exists out,
      anchor_loop sections lines todo processing matched found = Ok out
      /\ List.length out = List.length todo.
Proof.
  induction todo as [|line rest IH]; intros processing matched found;
    [now exists []|].
  assert (Hcons : forall x p m f,
             exists out,
               cons_res x (anchor_loop sections lines rest p m f) = Ok out
               /\ List.length out = S (List.length rest)).
  { intros x p m f. destruct (IH p m f) as (out & -> & Hlen).
    exists (x :: out). split; [reflexivity | simpl; now rewrite Hlen]. }
  cbn [anchor_loop List.length].
  destruct (mem (strip line) sections); [apply Hcons|].
  destruct processing; [|apply Hcons].
  destruct (negb found && String.eqb (strip line) ""); [apply Hcons|].
  destruct (negb found && negb (startswith (lstrip line) "-"));
    [apply Hcons|].
  destruct (startswith line "-").
  - destruct (negb (String.eqb matched "#### Generated By"));
      [|apply Hcons].
    destruct (find_type_word_ok
                (rev (firstn (index_of_line line lines) lines))) as [w ->].
    cbn [bind]. apply Hcons.
  - destruct (String.eqb (strip line) "" || startswith line "  ");
      apply Hcons.
Qed.


Section AnchorBlock.

Variables (sections lines : list string).








End AnchorBlock.



(** X24: [add_anchor_tags] raises nothing (a line that, stripped, begins
    with "type " has the second word the function takes), and it makes one
    element of each line of the content. *)
Theorem add_anchor_tags_total (content : string)
  (sections_to_process : list string) :
  exists processed_lines,
    anchor_loop sections_to_process (split content NL) (split content NL)
      false "" false = Ok processed_lines
    /\ List.length processed_lines = List.length (split content NL)
    /\ add_anchor_tags content sections_to_process
       = Ok (join NL processed_lines).
Proof.
  destruct (anchor_loop_ok sections_to_process (split content NL)
              (split content NL) false "" false) as (out & Hout & Hlen).
  exists out. repeat split; try assumption.
  unfold add_anchor_tags. now rewrite Hout.
Qed.

(** ** The run writes at most one file *)

Lemma combine_files_into_mdx_prints (table : url_table)
  (fs : string -> option string) (file_paths : list string) :
  writes (fst (combine_files_into_mdx table fs file_paths)) = [].
Proof.
  unfold combine_files_into_mdx.
  destruct (read_files fs file_paths "") as [combined | p]; [|reflexivity].
  unfold combine_content.
  destruct (urls_to_process table combined) as [|u us]; [reflexivity|].
  destruct (url_loop table (u :: us) combined) as [c [f|]]; reflexivity.
Qed.

Lemma writes_app (a b : list event) :
  writes (a ++ b) = (writes a ++ writes b)%list.
Proof. unfold writes. apply filter_app. Qed.

(** X25: the combine step writes at most one file, and writes one only when
    [combine_files_into_mdx] has returned a content and a file name, both
    non-empty, and the run ends normally; when an exception leaves the main
    block, nothing has been written. *)
Theorem main_combine_writes_once (table : url_table)
  (fs : string -> option string) (can_write : string -> bool)
  (file_paths : list string) :
  let run := main_combine table fs can_write file_paths in
  (writes (fst run) = []
   \/ exists combined_content output_filename,
        writes (fst run) = [WriteFile output_filename combined_content]
        /\ snd run = Finished
        /\ snd (combine_files_into_mdx table fs file_paths)
           = Ok (Some (combined_content, output_filename))
        /\ combined_content <> "" /\ output_filename <> "")
  /\ (forall e, snd run = Uncaught e -> writes (fst run) = []).
Proof.
  intros run. subst run. unfold main_combine.
  pose proof (combine_files_into_mdx_prints table fs file_paths) as Hp.
  destruct (combine_files_into_mdx table fs file_paths) as [out [[[c f]|]|e]];
    cbn [fst snd] in *.
  - split; [|discriminate].
    rewrite writes_app, Hp. cbn [app].
    unfold save_combined_content.
    destruct (String.eqb_spec c "") as [-> | Hc]; [now left|].
    destruct (String.eqb_spec f "") as [-> | Hf]; [now left|].
    cbn [orb]. destruct (can_write f); [|now left].
    right. exists c, f. repeat split; assumption.
  - split; [now left | discriminate].
  - split; [now left | intros _ _; exact Hp].
Qed.

(** ** move_responses_to_top without responses *)

Lemma star_greedy_absent (q : ascii -> bool) (p : string) (k0 : cont)
  (cs : captures) :
  forall n s,
    find_nat s p = None ->
    star_greedy (matches (Class q)) (matches (lit p) k0) n s cs = None.
Proof.
  induction n as [|n IH]; intros s Hfind.
  - cbn [star_greedy]. rewrite matches_lit.
    destruct s as [|c s].
    + simpl in Hfind. now destruct (startswith "" p).
    + apply find_nat_none_step in Hfind as [-> _]. reflexivity.
  - cbn [star_greedy].
    assert (Hk : matches (lit p) k0 s cs = None).
    { rewrite matches_lit. destruct s as [|c s].
      - simpl in Hfind. now destruct (startswith "" p).
      - apply find_nat_none_step in Hfind as [-> _]. reflexivity. }
    rewrite Hk. destruct s as [|c s]; [reflexivity|].
    rewrite matches_Class.
    apply find_nat_none_step in Hfind as [_ Hf].
    destruct (q c); [|reflexivity].
    rewrite (proj2 (Nat.ltb_lt _ _)) by (simpl; lia).
    now rewrite (IH s Hf).
Qed.

Lemma response_re_needs_response (s : string) :
  find_nat s "Response" = None -> match_here response_re s = None.
Proof.
  intros H. unfold match_here, response_re.
  rewrite matches_Cat, matches_lit.
  destruct (startswith s ("<a name=" ++ DQ)); [|reflexivity].
  rewrite matches_Cat, matches_Group, matches_Cat, matches_Star.
  rewrite star_greedy_absent; [reflexivity|].
  now apply find_nat_none_drop.
Qed.

Lemma finditer_without_response (s : string) :
  find_nat s "Response" = None -> finditer response_re 0 s = [].
Proof.
  induction s as [|c s IH]; intros H; [reflexivity|].
  cbn [finditer]. rewrite response_re_needs_response by exact H.
  apply find_nat_none_step in H as [_ H]. now apply IH.
Qed.

(** X26: a content that does not hold the text Response is returned
    unchanged by [move_responses_to_top], whatever the iteration order of
    its sets. *)
Theorem move_responses_to_top_without_response (file_content out : string) :
  contains file_content "Response" = false ->
  move_responses_to_top_returns file_content out ->
  out = file_content.
Proof.
  intros H (rs & ns & [_ Hrs] & _ & ->).
  apply contains_false in H.
  unfold response_struct_patterns, findall1 in Hrs.
  rewrite finditer_without_response in Hrs by exact H.
  destruct rs as [|r rs]; [reflexivity|].
  exfalso. apply (proj1 (Hrs r)). now left.
Qed.

Lemma move_responses_to_top_without_response_witness :
  move_responses_to_top_returns (join NL ["# Title"; "text"])
    (move_responses_to_top [] [] (join NL ["# Title"; "text"]))
  /\ move_responses_to_top [] [] (join NL ["# Title"; "text"])
     = join NL ["# Title"; "text"].
Proof.
  assert (H : move_responses_to_top_returns (join NL ["# Title"; "text"])
                (move_responses_to_top [] [] (join NL ["# Title"; "text"]))).
  { exists [], []. split; [|split; [|reflexivity]].
    - split; [constructor|]. intros x. vm_compute. tauto.
    - split; [constructor|]. intros x. vm_compute. tauto. }
  split; [exact H|].
  apply (move_responses_to_top_without_response
           (join NL ["# Title"; "text"])
           (move_responses_to_top [] [] (join NL ["# Title"; "text"]))).
  - vm_compute. reflexivity.
  - exact H.
Defined.

Lemma main_combine_writes_once_witness :
  writes (fst (main_combine CombinerExamples.table CombinerExamples.fs
                 (fun _ => true) ["plans.md"])) = [].
Proof.
  apply (proj2 (main_combine_writes_once CombinerExamples.table
                  CombinerExamples.fs (fun _ => true) ["plans.md"])
           UnboundLocalError).
  vm_compute. reflexivity.
Defined.

(* ================================================================== *)
(** * Part IV: the remaining passes and the file loop                   *)
(* ================================================================== *)

(** ** colapse_bullet_points *)

Lemma bullet_loop_cons (line : string) (rest : list string) :
  bullet_loop (line :: rest)
  = match rest with
    | blank :: description :: rest' =>
        if is_bullet line && String.eqb blank ""
           && startswith description "  "
        then (line ++ " " ++ strip description) :: bullet_loop rest'
        else line :: bullet_loop rest
    | _ => line :: bullet_loop rest
    end.
Proof. reflexivity. Qed.

Lemma bullet_loop_other (line : string) (rest : list string) :
  is_bullet line = false ->
  bullet_loop (line :: rest) = line :: bullet_loop rest.
Proof.
  intros H. rewrite bullet_loop_cons, H.
  destruct rest as [|blank [|description rest']]; reflexivity.
Qed.

Lemma bullet_loop_before (before rest : list string) :
  Forall (fun l => is_bullet l = false) before ->
  bullet_loop (before ++ rest) = (before ++ bullet_loop rest)%list.
Proof.
  induction 1 as [|line before Hline _ IH]; [reflexivity|].
  cbn [app]. rewrite bullet_loop_other by exact Hline. now rewrite IH.
Qed.

(** The loop merges [merges] times, and each merge takes three lines and
    gives one. *)
Lemma bullet_loop_length (n : nat) : forall lines,
  List.length lines <= n ->
  exists merges,
    List.length lines = List.length (bullet_loop lines) + 2 * merges.
Proof.
  induction n as [|n IH]; intros lines Hn.
  - destruct lines; [now exists 0|cbn [List.length] in Hn; lia].
  - destruct lines as [|line rest]; [now exists 0|].
    cbn [List.length] in Hn. rewrite bullet_loop_cons.
    destruct rest as [|blank [|description rest']].
    + now exists 0.
    + destruct (IH [blank]) as [m Hm]; [cbn [List.length] in *; lia|].
      exists m. cbn [List.length] in *. lia.
    + destruct (is_bullet line && String.eqb blank ""
                && startswith description "  ").
      * destruct (IH rest') as [m Hm]; [cbn [List.length] in *; lia|].
        exists (S m). cbn [List.length] in *. lia.
      * destruct (IH (blank :: description :: rest')) as [m Hm];
          [cbn [List.length] in *; lia|].
        exists m. cbn [List.length] in *. lia.
Qed.

Lemma has_char_lstrip (c : ascii) (s : string) :
  has_char c s = false -> has_char c (lstrip s) = false.
Proof.
  induction s as [|a s IH]; intros H; [reflexivity|].
  cbn [lstrip]. destruct (isspace a); [|exact H].
  cbn [has_char] in H. apply orb_false_iff in H as [_ H]. now apply IH.
Qed.

Lemma has_char_rstrip (c : ascii) (s : string) :
  has_char c s = false -> has_char c (rstrip s) = false.
Proof.
  induction s as [|a s IH]; intros H; [reflexivity|].
  cbn [has_char] in H. apply orb_false_iff in H as [Ha H].
  rewrite rstrip_cons. specialize (IH H).
  destruct (rstrip s) as [|r0 r].
  - destruct (isspace a); [reflexivity|].
    cbn [has_char]. now rewrite Ha.
  - cbn [has_char] in *. now rewrite Ha, IH.
Qed.

Lemma has_char_strip (c : ascii) (s : string) :
  has_char c s = false -> has_char c (strip s) = false.
Proof. intros H. now apply has_char_rstrip, has_char_lstrip. Qed.

Lemma bullet_loop_no_nl (n : nat) : forall lines,
  List.length lines <= n ->
  Forall (fun l => has_char nl l = false) lines ->
  Forall (fun l => has_char nl l = false) (bullet_loop lines).
Proof.
  induction n as [|n IH]; intros lines Hn Hl.
  - destruct lines; [constructor|cbn [List.length] in Hn; lia].
  - destruct lines as [|line rest]; [constructor|].
    cbn [List.length] in Hn. rewrite bullet_loop_cons.
    apply Forall_cons_iff in Hl as [Hline Hrest].
    destruct rest as [|blank [|description rest']].
    + constructor; [exact Hline|constructor].
    + constructor; [exact Hline|]. apply IH; [cbn [List.length] in *; lia|].
      exact Hrest.
    + destruct (is_bullet line && String.eqb blank ""
                && startswith description "  ").
      * apply Forall_cons_iff in Hrest as [_ Hrest].
        apply Forall_cons_iff in Hrest as [Hd Hrest].
        constructor.
        -- rewrite !has_char_append, Hline, (has_char_strip _ _ Hd).
           reflexivity.
        -- apply IH; [cbn [List.length] in *; lia|exact Hrest].
      * constructor; [exact Hline|].
        apply IH; [cbn [List.length] in *; lia|exact Hrest].
Qed.

Lemma bullet_loop_not_nil (lines : list string) :
  lines <> [] -> bullet_loop lines <> [].
Proof.
  destruct lines as [|line rest]; [congruence|]. intros _.
  rewrite bullet_loop_cons.
  destruct rest as [|blank [|description rest']]; try discriminate.
  destruct (is_bullet line && String.eqb blank ""
            && startswith description "  "); discriminate.
Qed.

(** X27: [colapse_bullet_points] only merges: a list item with two
    backticks, followed by an empty line and a line that begins with two
    spaces, becomes the item, a space and the stripped third line, and every
    merge takes two lines off the content; the lines before the first such
    item are kept, the scan goes on after the three lines, and a content
    without such an item is returned unchanged. *)
Theorem colapse_bullet_points_spec (content : string) :
  let lines := split content NL in
  let out := split (colapse_bullet_points content) NL in
  out = bullet_loop lines
  /\ (exists merges, List.length lines = List.length out + 2 * merges)
  /\ (forall before item description after,
         lines = (before ++ item :: "" :: description :: after)%list ->
         Forall (fun l => is_bullet l = false) before ->
         is_bullet item = true ->
         startswith description "  " = true ->
         out = (before ++ (item ++ " " ++ strip description)%string
                  :: bullet_loop after)%list)
  /\ (Forall (fun l => is_bullet l = false) lines ->
      colapse_bullet_points content = content).
Proof.
  intros lines out.
  assert (Hout : out = bullet_loop lines).
  { unfold out, colapse_bullet_points. apply split_join.
    - apply bullet_loop_not_nil, split_not_nil.
    - apply (bullet_loop_no_nl (List.length lines)); [lia|].
      apply split_lines_no_nl. }
  split; [exact Hout|]. split; [|split].
  - rewrite Hout. apply (bullet_loop_length (List.length lines)). lia.
  - intros before item description after Hl Hb Hi Hd.
    rewrite Hout, Hl, bullet_loop_before by exact Hb.
    rewrite bullet_loop_cons, Hi, Hd. reflexivity.
  - intros H. unfold colapse_bullet_points. fold lines.
    rewrite <- (app_nil_r lines), bullet_loop_before by exact H.
    cbn [bullet_loop]. rewrite app_nil_r. apply join_split.
Qed.

Lemma colapse_bullet_points_spec_witness :
  split (colapse_bullet_points
           (join NL ["# Options"; "- `Limit(n)`"; ""; "  Sets the limit.";
                     "end"])) NL
  = ["# Options"; "- `Limit(n)` Sets the limit."; "end"].
Proof.
  apply (proj1 (proj2 (proj2
           (colapse_bullet_points_spec
              (join NL ["# Options"; "- `Limit(n)`"; "";
                        "  Sets the limit."; "end"]))))
           ["# Options"] "- `Limit(n)`" "  Sets the limit." ["end"]).
  - vm_compute. reflexivity.
  - repeat (apply Forall_cons; [vm_compute; reflexivity|]). apply Forall_nil.
  - vm_compute. reflexivity.
  - vm_compute. reflexivity.
Defined.

(** ** move_all_struct_definitions *)

Section FirstMatch.

Variables (r : regex) (repl : captures -> string).

Lemma search_match (s mt rest : string) (cs : captures) :
  match_here r s = Some (mt, rest, cs) -> search r s = Some cs.
Proof. intros H. destruct s; cbn [search]; now rewrite H. Qed.

Lemma sub_first_match (s mt rest : string) (cs : captures) :
  match_here r s = Some (mt, rest, cs) -> sub_first r repl s = repl cs ++ rest.
Proof. intros H. destruct s; cbn [sub_first]; now rewrite H. Qed.

Lemma remove_first_match (s mt rest : string) (cs : captures) :
  match_here r s = Some (mt, rest, cs) -> remove_first r s = rest.
Proof. intros H. destruct s; cbn [remove_first]; now rewrite H. Qed.

(** Without a match nothing is replaced. *)
Lemma sub_first_unmatched (s : string) :
  search r s = None -> sub_first r repl s = s.
Proof.
  induction s as [|c s IH]; cbn [search sub_first].
  - now destruct (match_here r "") as [[[mt rest] cs]|].
  - destruct (match_here r (String c s)) as [[[mt rest] cs]|];
      [discriminate|].
    intros H. now rewrite IH.
Qed.

Variable p : string.
Hypothesis starts_with_p :
  forall s, startswith s p = false -> match_here r s = None.

Lemma match_here_before (c : ascii) (pre rest : string) :
  find_nat (String c pre ++ p) p = Some (S (String.length pre)) ->
  match_here r (String c (pre ++ p ++ rest)) = None
  /\ find_nat (pre ++ p) p = Some (String.length pre).
Proof.
  intros H. apply find_nat_step in H as [Hs Hf]. split; [|exact Hf].
  apply starts_with_p.
  change (String c (pre ++ p ++ rest)) with (String c pre ++ p ++ rest).
  rewrite <- append_assoc, startswith_app_long; [exact Hs|].
  rewrite length_append. lia.
Qed.

(** Nothing matches before the first occurrence of the text every match
    starts with. *)
Lemma search_before (pre rest : string) :
  find_nat (pre ++ p) p = Some (String.length pre) ->
  search r (pre ++ p ++ rest) = search r (p ++ rest).
Proof.
  induction pre as [|c pre IH]; intros H; [reflexivity|].
  apply (match_here_before c pre rest) in H as [Hm Hf].
  change (String c pre ++ p ++ rest) with (String c (pre ++ p ++ rest)).
  cbn [search]. rewrite Hm. now apply IH.
Qed.

Lemma sub_first_before (pre rest : string) :
  find_nat (pre ++ p) p = Some (String.length pre) ->
  sub_first r repl (pre ++ p ++ rest) = pre ++ sub_first r repl (p ++ rest).
Proof.
  induction pre as [|c pre IH]; intros H; [reflexivity|].
  apply (match_here_before c pre rest) in H as [Hm Hf].
  change (String c pre ++ p ++ rest) with (String c (pre ++ p ++ rest)).
  cbn [sub_first]. rewrite Hm, IH by exact Hf. reflexivity.
Qed.

Lemma remove_first_before (pre rest : string) :
  find_nat (pre ++ p) p = Some (String.length pre) ->
  remove_first r (pre ++ p ++ rest) = pre ++ remove_first r (p ++ rest).
Proof.
  induction pre as [|c pre IH]; intros H; [reflexivity|].
  apply (match_here_before c pre rest) in H as [Hm Hf].
  change (String c pre ++ p ++ rest) with (String c (pre ++ p ++ rest)).
  cbn [remove_first]. rewrite Hm, IH by exact Hf. reflexivity.
Qed.

Lemma startswith_nil_find (s : string) :
  find_nat s p = None -> startswith s p = false.
Proof.
  destruct s as [|c s]; intros H.
  - cbn [find_nat] in H. now destruct (startswith "" p).
  - now apply find_nat_none_step in H.
Qed.

(** A text without it has no match. *)
Lemma search_absent (s : string) :
  find_nat s p = None -> search r s = None.
Proof.
  induction s as [|c s IH]; intros H.
  - cbn [search]. now rewrite starts_with_p by now apply startswith_nil_find.
  - cbn [search]. rewrite starts_with_p by now apply startswith_nil_find.
    apply find_nat_none_step in H as [_ H]. now apply IH.
Qed.

Lemma finditer_absent (s : string) :
  find_nat s p = None -> finditer r 0 s = [].
Proof.
  induction s as [|c s IH]; intros H; [reflexivity|].
  cbn [finditer]. rewrite starts_with_p by now apply startswith_nil_find.
  apply find_nat_none_step in H as [_ H]. now apply IH.
Qed.

End FirstMatch.

Lemma struct_doc_re_needs_heading (s : string) :
  startswith s "## type " = false -> match_here struct_doc_re s = None.
Proof.
  intros H. unfold match_here, struct_doc_re.
  now rewrite matches_Cat, matches_lit, H.
Qed.

Lemma struct_def_re_needs_fence (name s : string) :
  startswith s "```go" = false -> match_here (struct_def_re name) s = None.
Proof.
  intros H. unfold match_here, struct_def_re.
  now rewrite matches_Group, matches_Cat, matches_lit, H.
Qed.

Lemma struct_heading_re_needs_heading (name s : string) :
  startswith s ("## type " ++ name) = false ->
  match_here (struct_heading_re name) s = None.
Proof.
  intros H. unfold match_here, struct_heading_re.
  now rewrite matches_Group, matches_Cat, matches_lit, H.
Qed.

Lemma startswith_space_type (name : string) (a : ascii) (t : string) :
  isspace a = true -> startswith (String a t) ("type " ++ name) = false.
Proof.
  intros Ha. cbn [append startswith].
  destruct (Ascii.eqb "t" a) eqn:E; [|reflexivity].
  apply Ascii.eqb_eq in E. subst a. discriminate Ha.
Qed.

(** The definition pattern on a block: the fence with go, white space,
    type and the name, a white space character, and the text up to the
    first closing fence. *)
Lemma struct_def_body_match (name : string) (w0 : ascii) (ws : string)
  (c : ascii) (body post : string) (k0 : cont) (cs0 : captures)
  (x : string * captures) :
  isspace w0 = true ->
  all_chars isspace ws = true ->
  isspace c = true ->
  find_nat (body ++ "```") "```" = Some (String.length body) ->
  k0 post cs0 = Some x ->
  matches
    (Cat (lit "```go")
       (Cat (plus (Class isspace))
          (Cat (lit ("type " ++ name))
             (Cat (Class isspace)
                (Cat (LazyStar (Class any_char)) (lit "```"))))))
    k0
    ("```go"
     ++ String w0 (ws ++ ("type " ++ name)
                   ++ String c (body ++ "```" ++ post)))
    cs0
  = Some x.
Proof.
  intros Hw0 Hws Hc Hbody Hk.
  rewrite matches_Cat, matches_lit, startswith_append, drop_append.
  unfold plus. rewrite !matches_Cat, matches_Class, Hw0, matches_Star.
  rewrite star_greedy_class.
  - rewrite matches_Cat, matches_lit, startswith_append, drop_append.
    rewrite matches_Cat, matches_Class, Hc, matches_Cat, matches_LazyStar.
    apply star_lazy_first_cont with (post := post).
    + intros t cs' Ht. now rewrite matches_lit, Ht.
    + now rewrite matches_lit, startswith_append, drop_append.
    + exact Hbody.
    + rewrite !length_append. lia.
  - intros a t Ha. rewrite matches_Cat, matches_lit.
    now rewrite startswith_space_type.
  - reflexivity.
  - exact Hws.
  - rewrite !length_append. lia.
Qed.

Lemma definition_block_shape (name : string) (w0 : ascii) (ws : string)
  (c : ascii) (body post : string) :
  definition_block name (String w0 ws) c body ++ post
  = "```go"
    ++ String w0 (ws ++ ("type " ++ name)
                  ++ String c (body ++ "```" ++ post)).
Proof.
  unfold definition_block. rewrite ?append_assoc.
  cbn [append]. rewrite ?append_assoc. reflexivity.
Qed.

Lemma struct_def_re_match (name ws : string) (c : ascii) (body post : string) :
  ws <> "" ->
  all_chars isspace ws = true ->
  isspace c = true ->
  find_nat (body ++ "```") "```" = Some (String.length body) ->
  match_here (struct_def_re name) (definition_block name ws c body ++ post)
  = Some (definition_block name ws c body, post,
          [(1, definition_block name ws c body)]).
Proof.
  intros Hne Hws Hc Hbody. destruct ws as [|w0 ws]; [congruence|].
  cbn [all_chars] in Hws. apply andb_true_iff in Hws as [Hw0 Hws].
  unfold match_here, struct_def_re. rewrite matches_Group.
  rewrite (definition_block_shape name w0 ws c body post) at 1.
  erewrite struct_def_body_match; try eassumption; [|reflexivity].
  unfold accept.
  rewrite length_append.
  replace (String.length (definition_block name (String w0 ws) c body)
           + String.length post - String.length post)
    with (String.length (definition_block name (String w0 ws) c body))
    by lia.
  now rewrite take_append.
Qed.

Lemma matches_Chr_nil (c : ascii) (k : cont) (cs : captures) :
  matches (Chr c) k "" cs = None.
Proof. reflexivity. Qed.

Lemma matches_Class_nil (q : ascii -> bool) (k : cont) (cs : captures) :
  matches (Class q) k "" cs = None.
Proof. reflexivity. Qed.

Lemma star_greedy_unfold (body : cont -> cont) (k : cont) (n : nat)
  (s : string) (cs : captures) :
  star_greedy body k (S n) s cs
  = match body (fun s' cs' =>
                  if (String.length s' <? String.length s)%nat
                  then star_greedy body k n s' cs' else None) s cs with
    | Some x => Some x
    | None => k s cs
    end.
Proof. reflexivity. Qed.

(** After the white space, a text that does not go on with a line feed
    ends the heading pattern without a match. *)
Lemma star_greedy_no_newline (kk : cont) (cs : captures) (rest : string) :
  stops isspace rest = true ->
  forall n,
    star_greedy (matches (Class isspace)) (matches (Chr nl) kk) n rest cs
    = None.
Proof.
  intros Hstop n. destruct rest as [|d rest].
  - destruct n; [reflexivity|].
    now rewrite star_greedy_unfold, matches_Class_nil, matches_Chr_nil.
  - cbn [stops] in Hstop. apply negb_true_iff in Hstop.
    assert (Hd : Ascii.eqb d nl = false).
    { destruct (Ascii.eqb d nl) eqn:E; [|reflexivity].
      apply Ascii.eqb_eq in E. subst d. discriminate Hstop. }
    destruct n.
    + cbn [star_greedy]. now rewrite matches_Chr, Hd.
    + now rewrite star_greedy_unfold, matches_Class, Hstop, matches_Chr, Hd.
Qed.

(** \s* followed by a line feed: the greedy star takes the white space and
    gives back its last line feed. *)
Lemma star_greedy_newline (kk : cont) (cs : captures) (rest : string)
  (x : string * captures) :
  stops isspace rest = true ->
  kk rest cs = Some x ->
  forall W n,
    all_chars isspace W = true ->
    String.length W + 1 <= n ->
    star_greedy (matches (Class isspace)) (matches (Chr nl) kk) n
      (W ++ NL ++ rest) cs
    = Some x.
Proof.
  intros Hstop Hk.
  induction W as [|a W IH]; intros n HW Hn.
  - destruct n as [|n]; [cbn [String.length] in Hn; lia|].
    change ("" ++ NL ++ rest) with (String nl rest).
    rewrite star_greedy_unfold, matches_Class.
    change (isspace nl) with true. cbv iota.
    replace (String.length rest <? String.length (String nl rest))%nat
      with true by (symmetry; apply Nat.ltb_lt; cbn [String.length]; lia).
    rewrite star_greedy_no_newline by exact Hstop.
    rewrite matches_Chr. now rewrite Ascii.eqb_refl.
  - destruct n as [|n]; [cbn [String.length] in Hn; lia|].
    cbn [all_chars] in HW. apply andb_true_iff in HW as [Ha HW].
    change (String a W ++ NL ++ rest) with (String a (W ++ NL ++ rest)).
    rewrite star_greedy_unfold, matches_Class, Ha.
    replace (String.length (W ++ NL ++ rest)
             <? String.length (String a (W ++ NL ++ rest)))%nat
      with true by (symmetry; apply Nat.ltb_lt; cbn [String.length]; lia).
    rewrite IH; [reflexivity|exact HW|cbn [String.length] in Hn; lia].
Qed.

Lemma struct_heading_re_match (name W rest : string) :
  all_chars isspace W = true ->
  stops isspace rest = true ->
  match_here (struct_heading_re name)
    ((("## type " ++ name) ++ W ++ NL) ++ rest)
  = Some (("## type " ++ name) ++ W ++ NL, rest,
          [(1, ("## type " ++ name) ++ W ++ NL)]).
Proof.
  intros HW Hstop. unfold match_here, struct_heading_re.
  generalize ("## type " ++ name). intros heading.
  rewrite matches_Group, matches_Cat, matches_lit.
  rewrite (append_assoc heading (W ++ NL) rest).
  rewrite startswith_append, drop_append.
  rewrite matches_Cat, matches_Star, (append_assoc W NL rest).
  erewrite star_greedy_newline;
    [|exact Hstop|reflexivity|exact HW
     |rewrite !length_append; unfold NL; cbn [String.length]; lia].
  unfold accept.
  rewrite <- (append_assoc W NL rest), <- (append_assoc heading (W ++ NL) rest).
  rewrite length_append.
  replace (String.length (heading ++ W ++ NL)
           + String.length rest - String.length rest)
    with (String.length (heading ++ W ++ NL)) by lia.
  rewrite take_append. reflexivity.
Qed.

Section StructLoop.

Variable parse_template : string -> outcome (string -> string).

Lemma struct_loop_without_fence (content : string) :
  find_nat content "```go" = None ->
  forall names, struct_loop parse_template names content = Returns content.
Proof.
  intros H. induction names as [|name names IH]; [reflexivity|].
  cbn [struct_loop].
  rewrite (search_absent (struct_def_re name) "```go"); [exact IH| |exact H].
  intros s. apply struct_def_re_needs_fence.
Qed.

(** The definition block is found at the first fence with go and taken
    out. *)
Lemma struct_def_found (name ws : string) (c : ascii) (body : string)
  (before post : string) :
  find_nat (before ++ "```go") "```go" = Some (String.length before) ->
  ws <> "" ->
  all_chars isspace ws = true ->
  isspace c = true ->
  find_nat (body ++ "```") "```" = Some (String.length body) ->
  search (struct_def_re name)
    (before ++ definition_block name ws c body ++ post)
  = Some [(1, definition_block name ws c body)]
  /\ remove_first (struct_def_re name)
       (before ++ definition_block name ws c body ++ post)
     = before ++ post.
Proof.
  intros Hfirst Hne Hws Hc Hbody.
  pose proof (struct_def_re_match name ws c body post Hne Hws Hc Hbody)
    as Hm.
  assert (Hshape : definition_block name ws c body ++ post
                   = "```go" ++ drop 5 (definition_block name ws c body
                                        ++ post)).
  { unfold definition_block. rewrite !append_assoc. reflexivity. }
  rewrite Hshape.
  rewrite (search_before (struct_def_re name) "```go"
             (struct_def_re_needs_fence name)) by exact Hfirst.
  rewrite (remove_first_before (struct_def_re name) "```go"
             (struct_def_re_needs_fence name)) by exact Hfirst.
  rewrite <- Hshape.
  rewrite (search_match _ _ _ _ _ Hm), (remove_first_match _ _ _ _ _ Hm).
  split; reflexivity.
Qed.

(** The heading is found at its first occurrence, and the replacement put
    after its white space. *)
Lemma struct_heading_found (name W pre rest : string)
  (repl : captures -> string) :
  find_nat (pre ++ "## type " ++ name) ("## type " ++ name)
  = Some (String.length pre) ->
  all_chars isspace W = true ->
  stops isspace rest = true ->
  sub_first (struct_heading_re name) repl
    (pre ++ ("## type " ++ name) ++ W ++ NL ++ rest)
  = pre ++ repl [(1, ("## type " ++ name) ++ W ++ NL)] ++ rest.
Proof.
  intros Hfirst HW Hstop.
  rewrite (sub_first_before (struct_heading_re name) repl
             ("## type " ++ name) (struct_heading_re_needs_heading name))
    by exact Hfirst.
  f_equal.
  rewrite <- (append_assoc W NL rest),
    <- (append_assoc ("## type " ++ name) (W ++ NL) rest).
  apply (sub_first_match _ _ _ _ _ _
           (struct_heading_re_match name W rest HW Hstop)).
Qed.

End StructLoop.

(** X28: [move_all_struct_definitions] returns a content without a struct
    heading, or without a fence with go, unchanged.  For the first struct
    name found, when the first fence with go opens the definition block of
    that name and [re] expands the template made of the block to group 1,
    the block and two line feeds: if the heading of the name, at its first
    occurrence, is followed by white space that ends in a line feed, the
    block is taken from its place and put after that line feed, followed by
    an empty line; and if the heading pattern matches nowhere once the block
    is taken out, the block is not put back.  In both cases the loop goes on
    with the other names. *)
Theorem move_all_struct_definitions_spec
  (parse_template : string -> outcome (string -> string))
  (content : string) :
  (contains content "## type " = false \/ contains content "```go" = false ->
   move_all_struct_definitions parse_template content = Returns content)
  /\ (forall name rest_names ws c body pre W mid post,
         let heading := "## type " ++ name in
         let block := definition_block name ws c body in
         findall1 struct_doc_re content = name :: rest_names ->
         content = pre ++ heading ++ W ++ NL ++ mid ++ block ++ post ->
         find_nat (pre ++ heading) heading = Some (String.length pre) ->
         all_chars isspace W = true ->
         stops isspace (mid ++ post) = true ->
         find_nat ((pre ++ heading ++ W ++ NL ++ mid) ++ "```go") "```go"
         = Some (String.length (pre ++ heading ++ W ++ NL ++ mid)) ->
         ws <> "" ->
         all_chars isspace ws = true ->
         isspace c = true ->
         find_nat (body ++ "```") "```" = Some (String.length body) ->
         parse_template (block_template block)
         = Returns (plain_expansion block) ->
         move_all_struct_definitions parse_template content
         = struct_loop parse_template rest_names
             (pre ++ heading ++ W ++ NL ++ block ++ NL ++ NL ++ mid ++ post))
  /\ (forall name rest_names ws c body before post,
         let block := definition_block name ws c body in
         findall1 struct_doc_re content = name :: rest_names ->
         content = before ++ block ++ post ->
         find_nat (before ++ "```go") "```go"
         = Some (String.length before) ->
         ws <> "" ->
         all_chars isspace ws = true ->
         isspace c = true ->
         find_nat (body ++ "```") "```" = Some (String.length body) ->
         parse_template (block_template block)
         = Returns (plain_expansion block) ->
         search (struct_heading_re name) (before ++ post) = None ->
         move_all_struct_definitions parse_template content
         = struct_loop parse_template rest_names (before ++ post)).
Proof.
  split; [|split].
  - intros [H|H]; apply contains_false in H;
      unfold move_all_struct_definitions.
    + unfold findall1.
      rewrite (finditer_absent struct_doc_re "## type "
                 struct_doc_re_needs_heading) by exact H.
      reflexivity.
    + now apply struct_loop_without_fence.
  - intros name rest_names ws c body pre W mid post heading block
      Hnames Hcontent Hhead HW Hstop Hfence Hne Hws Hc Hbody Htmpl.
    unfold move_all_struct_definitions. rewrite Hnames.
    cbn [struct_loop].
    assert (Hc' : content
                  = (pre ++ heading ++ W ++ NL ++ mid) ++ block ++ post)
      by (rewrite Hcontent, !append_assoc; reflexivity).
    destruct (struct_def_found name ws c body
                (pre ++ heading ++ W ++ NL ++ mid) post
                Hfence Hne Hws Hc Hbody) as [Hsearch Hremove].
    fold block in Hsearch, Hremove.
    rewrite <- Hc' in Hsearch, Hremove. rewrite Hsearch, Hremove.
    cbn [group Nat.eqb]. rewrite Htmpl. cbn [and_then].
    f_equal.
    replace ((pre ++ heading ++ W ++ NL ++ mid) ++ post)
      with (pre ++ heading ++ W ++ NL ++ mid ++ post)
      by (rewrite !append_assoc; reflexivity).
    unfold heading.
    rewrite struct_heading_found by assumption.
    cbn [group Nat.eqb]. unfold plain_expansion.
    rewrite !append_assoc. reflexivity.
  - intros name rest_names ws c body before post block
      Hnames Hcontent Hfence Hne Hws Hc Hbody Htmpl Hnone.
    unfold move_all_struct_definitions. rewrite Hnames.
    cbn [struct_loop].
    destruct (struct_def_found name ws c body before post
                Hfence Hne Hws Hc Hbody) as [Hsearch Hremove].
    fold block in Hsearch, Hremove.
    rewrite <- Hcontent in Hsearch, Hremove. rewrite Hsearch, Hremove.
    cbn [group Nat.eqb]. rewrite Htmpl. cbn [and_then].
    f_equal. now apply sub_first_unmatched.
Qed.

Lemma move_all_struct_definitions_spec_witness :
  move_all_struct_definitions parse_plain_template StructExamples.doc
  = Returns StructExamples.doc_moved.
Proof.
  etransitivity.
  - apply (proj1 (proj2 (move_all_struct_definitions_spec
                           parse_plain_template StructExamples.doc))
             "Foo" [] NL " "%char ("struct{}" ++ NL) "" NL
             ("Foo is a thing." ++ NL ++ NL) (NL ++ "end")).
    + vm_compute. reflexivity.
    + vm_compute. reflexivity.
    + vm_compute. reflexivity.
    + vm_compute. reflexivity.
    + vm_compute. reflexivity.
    + vm_compute. reflexivity.
    + discriminate.
    + vm_compute. reflexivity.
    + vm_compute. reflexivity.
    + vm_compute. reflexivity.
    + vm_compute. reflexivity.
  - vm_compute. reflexivity.
Defined.

(** ** process_file on a text without markup *)

Lemma matches_Eps (k : cont) (s : string) (cs : captures) :
  matches Eps k s cs = k s cs.
Proof. reflexivity. Qed.

Lemma matches_Alt (r1 r2 : regex) (k : cont) (s : string) (cs : captures) :
  matches (Alt r1 r2) k s cs
  = match matches r1 k s cs with
    | Some x => Some x
    | None => matches r2 k s cs
    end.
Proof. reflexivity. Qed.

Section LackingChar.

(** A text without the character [c] holds no text with it. *)
Variable c : ascii.

Lemma has_char_find (p s : string) :
  has_char c p = true -> has_char c s = false -> find_nat s p = None.
Proof.
  intros Hp Hs. destruct (find_nat s p) as [i|] eqn:E; [|reflexivity].
  apply find_nat_sound in E as [E _].
  rewrite E, !has_char_append, Hp in Hs.
  rewrite orb_true_r in Hs. discriminate Hs.
Qed.

Lemma has_char_contains (p s : string) :
  has_char c p = true -> has_char c s = false -> contains s p = false.
Proof.
  intros Hp Hs. unfold contains. now rewrite has_char_find.
Qed.

Lemma has_char_startswith (p s : string) :
  has_char c p = true -> has_char c s = false -> startswith s p = false.
Proof.
  intros Hp Hs. apply startswith_nil_find. now apply has_char_find.
Qed.

Lemma has_char_eqb (p s : string) :
  has_char c p = true -> has_char c s = false -> String.eqb s p = false.
Proof.
  intros Hp Hs. destruct (String.eqb_spec s p) as [->|]; [|reflexivity].
  congruence.
Qed.

Lemma has_char_mem (l : list string) (s : string) :
  Forall (fun p => has_char c p = true) l ->
  has_char c s = false -> mem s l = false.
Proof.
  intros Hl Hs. unfold mem. induction Hl as [|p l Hp _ IH]; [reflexivity|].
  cbn [existsb]. now rewrite has_char_eqb, IH.
Qed.

Lemma has_char_join (l : list string) :
  has_char c (join NL l) = false ->
  Forall (fun line => has_char c line = false) l.
Proof.
  unfold join. induction l as [|x l IH]; intros H; [constructor|].
  destruct l as [|y l].
  - cbn [String.concat] in H. constructor; [exact H|constructor].
  - cbn [String.concat] in H. rewrite !has_char_append in H.
    apply orb_false_iff in H as [Hx H]. apply orb_false_iff in H as [_ H].
    constructor; [exact Hx|]. now apply IH.
Qed.

Lemma has_char_split (s : string) :
  has_char c s = false ->
  Forall (fun line => has_char c line = false) (split s NL).
Proof. intros H. apply has_char_join. now rewrite join_split. Qed.

(** The stripped lines hold no text with [c] either. *)
Lemma has_char_stripped_lines (s : string) (P : string -> bool) :
  (forall t, has_char c t = false -> P t = false) ->
  has_char c s = false ->
  Forall (fun line => P (strip line) = false) (split s NL).
Proof.
  intros HP Hs. eapply Forall_impl; [|apply has_char_split, Hs].
  intros line Hline. cbv beta in *. apply HP. now apply has_char_strip.
Qed.

Lemma has_char_lines (s : string) (P : string -> bool) :
  (forall t, has_char c t = false -> P t = false) ->
  has_char c s = false ->
  Forall (fun line => P line = false) (split s NL).
Proof.
  intros HP Hs. eapply Forall_impl; [|apply has_char_split, Hs].
  intros line Hline. cbv beta in *. now apply HP.
Qed.

Variable r : regex.
Hypothesis needs_c :
  forall s, has_char c s = false -> match_here r s = None.

Lemma search_lacking (s : string) :
  has_char c s = false -> search r s = None.
Proof.
  induction s as [|a s IH]; intros H; cbn [search];
    rewrite needs_c by exact H; [reflexivity|].
  cbn [has_char] in H. apply orb_false_iff in H as [_ H]. now apply IH.
Qed.

Lemma remove_first_lacking (s : string) :
  has_char c s = false -> remove_first r s = s.
Proof.
  induction s as [|a s IH]; intros H; cbn [remove_first];
    rewrite needs_c by exact H; [reflexivity|].
  cbn [has_char] in H. apply orb_false_iff in H as [_ H].
  now rewrite IH.
Qed.

End LackingChar.

Lemma import_pattern_needs_backtick (rest : list string) (s : string) :
  has_char "`" s = false ->
  match_here (pattern_re ("" :: "```go" :: rest)) s = None.
Proof.
  intros H. unfold match_here.
  assert (K : forall (k : cont) t cs,
             has_char "`" t = false ->
             matches (pattern_re ("```go" :: rest)) k t cs = None).
  { intros k t cs Ht.
    assert (Hs : startswith t "```go" = false)
      by (now apply (has_char_startswith "`")).
    cbn [pattern_re].
    destruct rest; [|rewrite matches_Cat]; now rewrite matches_lit, Hs. }
  cbn [pattern_re]. change (lit "") with Eps.
  rewrite matches_Cat, matches_Eps, matches_Cat.
  unfold opt. rewrite matches_Alt, matches_Eps.
  rewrite (K _ s) by exact H.
  destruct s as [|a s]; [reflexivity|].
  rewrite matches_Chr. destruct (Ascii.eqb a nl); [|reflexivity].
  cbn [has_char] in H. apply orb_false_iff in H as [_ H].
  now rewrite K.
Qed.

Lemma remove_pattern_plain (content : string) :
  has_char "#" content = false ->
  has_char "<" content = false ->
  has_char "`" content = false ->
  remove_pattern content patterns_to_delete = content.
Proof.
  intros Hh Hl Hb. unfold patterns_to_delete. cbn [remove_pattern].
  rewrite (remove_first_lacking "`" _ (import_pattern_needs_backtick _))
    by exact Hb.
  do 5 (rewrite (remove_first_absent _ content)
          by (cbn [first_part_absent];
              first [ apply (has_char_contains "#"); [reflexivity|exact Hh]
                    | apply (has_char_contains "<"); [reflexivity|exact Hl] ])).
  reflexivity.
Qed.

Lemma replace_pattern_absent (content : string)
  (pairs : list (string * string)) :
  Forall (fun fr => contains content (fst fr) = false) pairs ->
  replace_pattern content pairs = content.
Proof.
  induction 1 as [|[f r] rest Hf _ IH]; [reflexivity|].
  cbn [replace_pattern]. cbn [fst] in Hf.
  rewrite str_replace_absent by exact Hf. exact IH.
Qed.

Lemma replace_pattern_plain (content : string) :
  has_char "#" content = false ->
  has_char "<" content = false ->
  replace_pattern content replacements = content
  /\ replace_pattern content type_replacements = content.
Proof.
  intros Hh Hl. split; apply replace_pattern_absent;
    repeat (apply Forall_cons;
            [cbn [fst];
             first [ apply (has_char_contains "#"); [reflexivity|exact Hh]
                   | apply (has_char_contains "<"); [reflexivity|exact Hl] ]
            |]);
    apply Forall_nil.
Qed.

Lemma remove_first_sentence_plain (content : string) :
  Forall (fun l => has_first_sentence l = false) (split content NL) ->
  remove_first_sentence content = content.
Proof.
  intros H. unfold remove_first_sentence.
  rewrite <- (app_nil_r (split content NL)) at 1.
  rewrite sentence_loop_before by assumption. cbn [sentence_loop].
  rewrite app_nil_r. apply join_split.
Qed.

Lemma convert_details_to_tabitem_plain (content : string) :
  has_char "<" content = false ->
  convert_details_to_tabitem content = content.
Proof.
  intros H. unfold convert_details_to_tabitem.
  apply (sub_groups_from_absent _ _ details_open details_re_needs_open).
  now apply (has_char_find "<").
Qed.

Lemma add_tabs_tags_plain (content : string) :
  has_char "<" content = false -> add_tabs_tags content = content.
Proof.
  intros H. unfold add_tabs_tags.
  rewrite tabs_loop_without_items; [apply join_split|].
  apply (has_char_stripped_lines "<" content
           (fun t => startswith t "<TabItem")); [|exact H].
  intros t Ht. now apply (has_char_startswith "<").
Qed.

Lemma remove_output_blocks_plain (content : string) :
  has_char "`" content = false -> remove_output_blocks content = content.
Proof.
  intros H. apply remove_without_fence. now apply (has_char_find "`").
Qed.

Lemma headings_have_hash :
  Forall (fun p => has_char "#" p = true) blocks_to_process
  /\ Forall (fun p => has_char "#" p = true) sections_to_process.
Proof. split; repeat constructor. Qed.

Lemma process_header_blocks_plain (content : string) :
  has_char "#" content = false ->
  process_header_blocks content blocks_to_process = content.
Proof.
  intros H. unfold process_header_blocks.
  rewrite header_loop_outside; [apply join_split|].
  apply (has_char_stripped_lines "#" content
           (fun t => mem t blocks_to_process)); [|exact H].
  intros t Ht. apply (has_char_mem "#"); [apply headings_have_hash|exact Ht].
Qed.

Lemma remove_index_block_plain (content : string) :
  has_char "#" content = false -> remove_index_block content = content.
Proof.
  intros H. unfold remove_index_block.
  rewrite index_loop_outside; [apply join_split|].
  apply (has_char_lines "#" content (fun t => startswith t "## Index"));
    [|exact H].
  intros t Ht. now apply (has_char_startswith "#").
Qed.

Lemma correct_escaping_in_links_plain (content : string) :
  has_char "[" content = false -> correct_escaping_in_links content = content.
Proof.
  intros H. unfold correct_escaping_in_links, sub.
  apply (sub_from_absent _ _ "[/v1" link_re_needs_prefix).
  now apply (has_char_find "[").
Qed.

Lemma move_all_struct_definitions_plain
  (parse_template : string -> outcome (string -> string))
  (content : string) :
  has_char "#" content = false ->
  move_all_struct_definitions parse_template content = Returns content.
Proof.
  intros H. unfold move_all_struct_definitions, findall1.
  rewrite (finditer_absent struct_doc_re "## type "
             struct_doc_re_needs_heading); [reflexivity|].
  now apply (has_char_find "#").
Qed.

Lemma add_anchor_tags_plain (content : string) :
  has_char "#" content = false ->
  add_anchor_tags content sections_to_process = Ok content.
Proof.
  intros H. unfold add_anchor_tags.
  rewrite anchor_loop_outside; [cbn [bind]; now rewrite join_split|].
  apply (has_char_stripped_lines "#" content
           (fun t => mem t sections_to_process)); [|exact H].
  intros t Ht. apply (has_char_mem "#"); [apply headings_have_hash|exact Ht].
Qed.

Lemma remove_code_block_delimiters_plain (content : string) :
  has_char "#" content = false ->
  remove_code_block_delimiters content "## Making Requests" = content.
Proof.
  intros H. unfold remove_code_block_delimiters.
  rewrite <- (app_nil_r (split content NL)) at 1.
  rewrite delimiters_loop_outside; [|].
  - cbn [delimiters_loop]. rewrite app_nil_r. apply join_split.
  - apply (has_char_stripped_lines "#" content
             (fun t => String.eqb t "## Making Requests")); [|exact H].
    intros t Ht. now apply (has_char_eqb "#").
Qed.

Lemma find_method_blocks_and_relocate_plain (content : string) :
  has_char "<" content = false ->
  find_method_blocks_and_relocate content = Ok content.
Proof.
  intros H. unfold find_method_blocks_and_relocate.
  rewrite extractor_loop_no_type.
  - cbn. now rewrite join_split.
  - apply (has_char_stripped_lines "<" content
             (fun t => startswith t "<a" && contains t "Request"));
      [|exact H].
    intros t Ht. now rewrite (has_char_startswith "<").
Qed.

Lemma response_re_needs_anchor (s : string) :
  startswith s ("<a name=" ++ DQ) = false -> match_here response_re s = None.
Proof.
  intros H. unfold match_here, response_re.
  now rewrite matches_Cat, matches_lit, H.
Qed.

Lemma set_order_nil (order : list string) : set_order [] order -> order = [].
Proof.
  intros [_ H]. destruct order as [|x order]; [reflexivity|].
  destruct (proj1 (H x)). now left.
Qed.

Lemma move_responses_to_top_plain (set_iter : list string -> list string)
  (content : string) :
  (forall found, set_order found (set_iter found)) ->
  has_char "<" content = false ->
  move_responses_to_top (set_iter (response_struct_patterns content))
    (set_iter (non_response_patterns content)) content
  = content.
Proof.
  intros Hiter H. unfold response_struct_patterns, findall1.
  rewrite (finditer_absent response_re ("<a name=" ++ DQ)
             response_re_needs_anchor) by now apply (has_char_find "<").
  cbn [map]. now rewrite (set_order_nil _ (Hiter [])).
Qed.

Lemma move_to_bottom_plain (content : string) :
  has_char "<" content = false ->
  move_to_bottom content ("<a name=" ++ DQ ++ "By") (Some "<a") = Ok content.
Proof.
  intros H. rewrite move_to_bottom_eq. f_equal.
  destruct (relocate_no_start ("<a name=" ++ DQ ++ "By") (Some "<a")
              (split content NL)) with (b := false) as [_ Hn].
  - apply (has_char_lines "<" content
             (fun t => startswith t ("<a name=" ++ DQ ++ "By"))); [|exact H].
    intros t Ht. now apply (has_char_startswith "<").
  - destruct (Hn eq_refl) as (Hm & Hk & _).
    rewrite Hm, Hk, app_nil_r. apply join_split.
Qed.

Lemma clean_headings_plain (content pattern : string) :
  has_char "#" content = false -> clean_headings content pattern = Ok content.
Proof.
  intros H. unfold clean_headings. rewrite clean_headings_loop_ok.
  cbn [bind]. f_equal.
  rewrite <- (join_split content) at 2. f_equal.
  rewrite <- (map_id (split content NL)) at 2.
  apply map_ext_Forall.
  assert (Hs : Forall (fun line => startswith (strip line) "#" = false)
                 (split content NL)).
  { apply (has_char_stripped_lines "#" content
             (fun t => startswith t "#")); [|exact H].
    intros t Ht. now apply (has_char_startswith "#"). }
  eapply Forall_impl; [|exact Hs].
  intros line Hline. cbv beta in Hline. unfold clean_line, is_heading_with.
  now rewrite Hline.
Qed.

Lemma first_occurrences_order (found : list string) :
  set_order found (first_occurrences found).
Proof.
  split; [apply NoDup_nodup|]. intros x. apply nodup_In.
Qed.

Lemma read_text_without_cr (stored : string) :
  has_char cr stored = false -> read_text stored = stored.
Proof.
  induction stored as [|c rest IH]; intros H; [reflexivity|].
  cbn [has_char] in H. apply orb_false_iff in H as [Hc H].
  cbn [read_text]. now rewrite Hc, IH.
Qed.

Lemma write_text_posix (content : string) : write_text NL content = content.
Proof. unfold write_text. apply str_replace_same. discriminate. Qed.

(** X29: a file whose text, as read, holds none of the characters #, <,
    backtick and [, and no line that begins with Package and holds a
    period, goes through the seventeen passes of [process_file] unchanged,
    whatever [re] makes of templates and in whatever order sets are
    iterated; [process_file] hands the text it read to the write, prints
    that the file was processed, and returns.  What is stored afterwards is
    that text with each line feed written as the line separator of the
    platform: the text the file had if that held no carriage return and the
    separator is a line feed, and otherwise the text with its carriage
    returns read as line feeds. *)
Theorem process_file_plain_text
  (parse_template : string -> outcome (string -> string))
  (set_iter : list string -> list string) (can_write : string -> bool)
  (os_linesep stored : string) :
  let content := read_text stored in
  (forall found, set_order found (set_iter found)) ->
  has_char "#" content = false ->
  has_char "<" content = false ->
  has_char "`" content = false ->
  has_char "[" content = false ->
  Forall (fun l => has_first_sentence l = false) (split content NL) ->
  process_content parse_template set_iter content = Returns content
  /\ (forall (d : disk) (file_path : string),
         d file_path = Holds stored ->
         can_write file_path = true ->
         process_file parse_template set_iter can_write os_linesep d
           file_path
         = ([WriteBack file_path content; PrintProcessed file_path],
            Returns (write_to d file_path (write_text os_linesep content))))
  /\ (os_linesep = NL -> write_text os_linesep content = content)
  /\ (has_char cr stored = false -> content = stored).
Proof.
  intros content Hiter Hh Hl Hb Hk Hs.
  assert (Hc : process_content parse_template set_iter content
               = Returns content).
  { unfold process_content.
    rewrite remove_pattern_plain by assumption.
    rewrite (proj1 (replace_pattern_plain content Hh Hl)).
    rewrite remove_first_sentence_plain by assumption.
    rewrite convert_details_to_tabitem_plain by assumption.
    rewrite add_tabs_tags_plain by assumption.
    rewrite remove_output_blocks_plain by assumption.
    rewrite process_header_blocks_plain by assumption.
    rewrite remove_index_block_plain by assumption.
    rewrite correct_escaping_in_links_plain by assumption.
    rewrite move_all_struct_definitions_plain by assumption.
    cbn [and_then].
    rewrite add_anchor_tags_plain by assumption. cbn [of_res and_then].
    rewrite remove_code_block_delimiters_plain by assumption.
    rewrite find_method_blocks_and_relocate_plain by assumption.
    cbn [of_res and_then].
    rewrite move_responses_to_top_plain by assumption.
    rewrite move_to_bottom_plain by assumption. cbn [of_res and_then].
    rewrite (proj2 (replace_pattern_plain content Hh Hl)).
    now rewrite clean_headings_plain. }
  split; [exact Hc|]. split; [|split].
  - intros d file_path Hd Hw. unfold process_file. fold content.
    rewrite Hd. fold content. now rewrite Hc, Hw.
  - intros ->. apply write_text_posix.
  - apply read_text_without_cr.
Qed.

Lemma process_file_plain_text_witness :
  process_content parse_plain_template first_occurrences
    ("Usage notes." ++ NL ++ "Call the client (once).")
  = Returns ("Usage notes." ++ NL ++ "Call the client (once).")
  /\ process_file parse_plain_template first_occurrences
       FileExamples.writable NL FileExamples.dos "dos.md"
     = ([WriteBack "dos.md"
           ("Usage notes." ++ NL ++ "Call the client (once).");
         PrintProcessed "dos.md"],
        Returns (write_to FileExamples.dos "dos.md"
                   ("Usage notes." ++ NL ++ "Call the client (once).")))
  /\ FileExamples.dos "dos.md"
     = Holds ("Usage notes." ++ String cr NL ++ "Call the client (once).").
Proof.
  destruct (process_file_plain_text parse_plain_template
              first_occurrences FileExamples.writable NL
              ("Usage notes." ++ String cr NL ++ "Call the client (once).")
              first_occurrences_order
              ltac:(vm_compute; reflexivity)
              ltac:(vm_compute; reflexivity)
              ltac:(vm_compute; reflexivity)
              ltac:(vm_compute; reflexivity)
              ltac:(assert (E : split
                                  (read_text
                                     ("Usage notes." ++ String cr NL
                                      ++ "Call the client (once)."))
                                  NL
                                = ["Usage notes.";
                                   "Call the client (once)."])
                      by (vm_compute; reflexivity);
                    rewrite E;
                    repeat (apply Forall_cons;
                            [vm_compute; reflexivity|]);
                    apply Forall_nil))
    as (Hcontent & Hfile & Hposix & _).
  split; [exact Hcontent|]. split; [|reflexivity].
  rewrite (Hfile FileExamples.dos "dos.md" eq_refl eq_refl).
  now rewrite (Hposix eq_refl).
Defined.

(** ** The file loop *)

Section FileLoop.

Variable parse_template : string -> outcome (string -> string).
Variable set_iter : list string -> list string.
Variable can_write : string -> bool.
Variable os_linesep : string.

Lemma process_file_returns (d : disk) (p : string)
  (out : list file_event) (d' : disk) :
  process_file parse_template set_iter can_write os_linesep d p
  = (out, Returns d') ->
  (d p = Missing /\ out = [PrintNotFound p] /\ d' = d)
  \/ (exists stored stored',
         d p = Holds stored
         /\ (exists content, out = [WriteBack p content; PrintProcessed p])
         /\ d' = write_to d p stored').
Proof.
  unfold process_file. destruct (d p) as [stored| |] eqn:Hd.
  - destruct (process_content parse_template set_iter (read_text stored))
      as [content'|r]; [|discriminate].
    destruct (can_write p); [|discriminate].
    intros H. injection H as <- <-. right.
    exists stored, (write_text os_linesep content').
    split; [reflexivity|]. split; [now exists content'|reflexivity].
  - intros H. injection H as <- <-. now left.
  - discriminate.
Qed.

(** Writing a file that exists leaves the missing and the unreadable files
    as they are. *)
Lemma write_to_state (d : disk) (p content content' q : string) :
  d p = Holds content ->
  (write_to d p content' q = Missing <-> d q = Missing)
  /\ (write_to d p content' q = Unreadable <-> d q = Unreadable).
Proof.
  intros Hd. unfold write_to.
  destruct (String.eqb_spec q p) as [->|_]; [|tauto].
  rewrite Hd. split; split; discriminate.
Qed.

Lemma process_files_returns (file_paths : list string) :
  forall (d : disk) (out : list file_event) (d' : disk),
    process_files parse_template set_iter can_write os_linesep d file_paths
    = (out, Returns d') ->
    (forall q, d' q = Missing <-> d q = Missing)
    /\ (forall q, d' q = Unreadable <-> d q = Unreadable)
    /\ (forall q, In q file_paths -> d q <> Unreadable)
    /\ (forall q, In q file_paths -> d q = Missing ->
                  In (PrintNotFound q) out)
    /\ (forall q, In q file_paths -> d q <> Missing ->
                  exists content, In (WriteBack q content) out)
    /\ (forall q content, ~ In (Combine (WriteFile q content)) out).
Proof.
  induction file_paths as [|p rest IH]; intros d out d' H.
  - cbn [process_files] in H. injection H as <- <-.
    repeat split; try tauto; try (intros q []); intros q content [].
  - cbn [process_files] in H.
    destruct (process_file parse_template set_iter can_write os_linesep d p)
      as [out1 [d1|r]] eqn:H1; [|discriminate].
    destruct (process_files parse_template set_iter can_write os_linesep d1
                rest) as [out2 r2] eqn:H2.
    injection H as <- ->.
    destruct (IH d1 out2 d' H2) as (Im & Iu & Ir & In1 & Iw & Ic).
    assert (S1 : forall q, (d1 q = Missing <-> d q = Missing)
                           /\ (d1 q = Unreadable <-> d q = Unreadable)).
    { intros q.
      destruct (process_file_returns d p out1 d1 H1)
        as [(_ & _ & ->)|(content & content' & Hd & _ & ->)]; [tauto|].
      exact (write_to_state d p content content' q Hd). }
    split; [|split; [|split; [|split; [|split]]]].
    + intros q. rewrite Im. apply S1.
    + intros q. rewrite Iu. apply S1.
    + intros q [<-|Hq] Hu.
      * destruct (process_file_returns d p out1 d1 H1)
          as [(Hd & _)|(content & content' & Hd & _)]; congruence.
      * apply (Ir q Hq). now apply S1.
    + intros q [<-|Hq] Hm; apply in_or_app.
      * left.
        destruct (process_file_returns d p out1 d1 H1)
          as [(_ & -> & _)|(content & content' & Hd & _)];
          [now left|congruence].
      * right. apply In1; [exact Hq|]. now apply S1.
    + intros q [<-|Hq] Hm.
      * destruct (process_file_returns d p out1 d1 H1)
          as [(Hd & _)|(stored & stored' & _ & (content & ->) & _)];
          [congruence|].
        exists content. apply in_or_app. left. now left.
      * destruct (Iw q Hq) as [content Hc].
        -- intros Hd1. apply Hm. now apply S1.
        -- exists content. apply in_or_app. now right.
    + intros q content Hin. apply in_app_or in Hin as [Hin|Hin].
      * destruct (process_file_returns d p out1 d1 H1)
          as [(_ & -> & _)|(stored & stored' & _ & (c & ->) & _)].
        -- destruct Hin as [Hin|[]]. discriminate Hin.
        -- destruct Hin as [Hin|[Hin|[]]]; discriminate Hin.
      * exact (Ic q content Hin).
Qed.

End FileLoop.

Lemma read_files_first_unreadable (fs : string -> option string)
  (before : list string) (p : string) (after : list string) :
  Forall (fun q => fs q <> None) before ->
  fs p = None ->
  forall combined_content,
    read_files fs (before ++ p :: after) combined_content = inr p.
Proof.
  intros Hb Hp. induction Hb as [|q before Hq _ IH]; intros acc.
  - cbn [app read_files]. now rewrite Hp.
  - cbn [app read_files]. destruct (fs q) as [text|]; [apply IH|congruence].
Qed.

(** X30: when the per-file pass returns and one of the arguments names a
    missing file, the run ends normally with exit status 0 and no combined
    file: the first argument that names a missing file is reported by
    [process_file] and again, as a read error, by the combiner, which
    prints nothing else; every argument that names an existing file has
    been rewritten in place. *)
Theorem main_missing_file
  (parse_template : string -> outcome (string -> string))
  (set_iter : list string -> list string) (can_write : string -> bool)
  (os_linesep : string) (table : url_table) (d : disk)
  (before : list string) (p : string) (after : list string)
  (out : list file_event) (d' : disk) :
  let file_paths := (before ++ p :: after)%list in
  process_files parse_template set_iter can_write os_linesep d file_paths
  = (out, Returns d') ->
  Forall (fun q => d q <> Missing) before ->
  d p = Missing ->
  main parse_template set_iter can_write os_linesep table d file_paths
  = ((out ++ [Combine (PrintReadError p)])%list, Completed)
  /\ status (snd (main parse_template set_iter can_write os_linesep table d
                    file_paths)) = 0
  /\ In (PrintNotFound p) out
  /\ (forall q, In q file_paths -> d q <> Missing ->
                exists content, In (WriteBack q content) out)
  /\ (forall q content, ~ In (Combine (WriteFile q content)) out).
Proof.
  intros file_paths Hrun Hbefore Hp.
  destruct (process_files_returns parse_template set_iter can_write
              os_linesep file_paths d out d' Hrun)
    as (Im & Iu & Ir & In1 & Iw & Ic).
  assert (Hread : read_files (readable d') file_paths "" = inr p).
  { apply read_files_first_unreadable.
    - apply Forall_forall. intros q Hq.
      assert (Hin : In q file_paths) by (apply in_or_app; now left).
      pose proof (proj1 (Forall_forall _ _) Hbefore q Hq) as Hm.
      pose proof (Ir q Hin) as Hu.
      unfold readable. destruct (d' q) as [stored| |] eqn:E;
        [discriminate| |].
      + destruct Hm. now apply Im.
      + destruct Hu. now apply Iu.
    - unfold readable. now rewrite (proj2 (Im p) Hp). }
  assert (E : main parse_template set_iter can_write os_linesep table d
                file_paths
              = ((out ++ [Combine (PrintReadError p)])%list, Completed)).
  { unfold main. subst file_paths.
    destruct (before ++ p :: after)%list as [|q rest] eqn:El;
      [now destruct before|].
    rewrite Hrun. unfold main_combine, combine_files_into_mdx.
    now rewrite Hread. }
  rewrite E. split; [reflexivity|]. split; [reflexivity|].
  split; [|split; [exact Iw|exact Ic]].
  apply In1; [|exact Hp]. apply in_or_app. right. now left.
Qed.

Lemma main_missing_file_witness :
  main parse_plain_template first_occurrences FileExamples.writable NL
    URL_TO_INFO FileExamples.notes ["notes.md"; "gone.md"; "lost.md"]
  = ([WriteBack "notes.md" "Usage notes."; PrintProcessed "notes.md";
      PrintNotFound "gone.md"; PrintNotFound "lost.md";
      Combine (PrintReadError "gone.md")], Completed).
Proof.
  apply (main_missing_file parse_plain_template first_occurrences
           FileExamples.writable NL URL_TO_INFO FileExamples.notes
           ["notes.md"] "gone.md" ["lost.md"]
           [WriteBack "notes.md" "Usage notes."; PrintProcessed "notes.md";
            PrintNotFound "gone.md"; PrintNotFound "lost.md"]
           (write_to FileExamples.notes "notes.md" "Usage notes.")).
  - vm_compute. reflexivity.
  - apply Forall_cons; [|apply Forall_nil]. vm_compute. discriminate.
  - vm_compute. reflexivity.
Defined.
